(** * chan_dahdi: the per-line call-state core

    A shallow embedding of the sub-channel multiplexer, the conference
    topology manager and the parts of the call lifecycle of
    [chan_dahdi.c], with the properties of its specification stated and
    settled against the embedded code.

    Conventions.
    - A [struct dahdi_pvt *] is a key into the store [pvts]; a
      [struct ast_channel *] is a key into the store [chans]; NULL is
      [None].  Following a pointer that is not in its store is a failed
      run ([None] in the monad [M]).
    - C [int] fields that hold numbers are [Z]; one-bit bit-fields are
      [bool].
    - Everything the driver asks of the kernel or of the PBX core is
      appended to the [trace] of the world, newest last.  What the kernel
      answers is given by an oracle over the trace so far. *)

From Stdlib Require Import ZArith List Bool Lia String.
From stdpp Require Import base option gmap list.

Local Open Scope Z_scope.

(** ** Constants of the source *)

(** The three roles of a sub-channel: [SUB_REAL] 0, [SUB_CALLWAIT] 1,
    [SUB_THREEWAY] 2. *)
Inductive subidx : Type := SUB_REAL | SUB_CALLWAIT | SUB_THREEWAY.

Definition subidx_eqb (a b : subidx) : bool :=
  match a, b with
  | SUB_REAL, SUB_REAL | SUB_CALLWAIT, SUB_CALLWAIT
  | SUB_THREEWAY, SUB_THREEWAY => true
  | _, _ => false
  end.

Definition subidx_to_Z (x : subidx) : Z :=
  match x with SUB_REAL => 0 | SUB_CALLWAIT => 1 | SUB_THREEWAY => 2 end.

(** [for (x = 0; x < 3; x++)] *)
Definition all_subs : list subidx := [SUB_REAL; SUB_CALLWAIT; SUB_THREEWAY].

(** [static char *subnames[]] *)
Definition subnames (x : subidx) : string :=
  match x with
  | SUB_REAL => "Real" | SUB_CALLWAIT => "Callwait" | SUB_THREEWAY => "Threeway"
  end%string.

(** The slots of [slaves[MAX_SLAVES]], [MAX_SLAVES] being 4. *)
Inductive slaveidx : Type := SLAVE0 | SLAVE1 | SLAVE2 | SLAVE3.

Definition MAX_SLAVES : Z := 4.

(** [for (x = 0; x < MAX_SLAVES; x++)] *)
Definition all_slaves : list slaveidx := [SLAVE0; SLAVE1; SLAVE2; SLAVE3].

Definition slaveidx_to_Z (x : slaveidx) : Z :=
  match x with SLAVE0 => 0 | SLAVE1 => 1 | SLAVE2 => 2 | SLAVE3 => 3 end.

Definition POLARITY_IDLE : Z := 0.
Definition POLARITY_REV : Z := 1.
Definition CHAN_PSEUDO : Z := -2.

(** [#define MIN_MS_SINCE_FLASH ( (2000) )] *)
Definition MIN_MS_SINCE_FLASH : Z := 2000.

(** The signalling styles the source names ([SIG_EM] ... [SIG_GR303FXSKS]);
    [SIG_PSEUDO] is the value 0 of a pseudo line, which the source writes
    [case 0:] and [!p->sig]. *)
Inductive signalling : Type :=
| SIG_PSEUDO
| SIG_EM | SIG_EMWINK | SIG_FEATD | SIG_FEATDMF | SIG_FEATB | SIG_E911
| SIG_FEATDMF_TA | SIG_FGC_CAMA | SIG_FGC_CAMAMF
| SIG_FXSLS | SIG_FXSGS | SIG_FXSKS
| SIG_FXOLS | SIG_FXOGS | SIG_FXOKS
| SIG_PRI | SIG_BRI | SIG_BRI_PTMP | SIG_SS7
| SIG_SF | SIG_SFWINK | SIG_SF_FEATD | SIG_SF_FEATDMF | SIG_SF_FEATB
| SIG_EM_E1 | SIG_GR303FXOKS | SIG_GR303FXSKS.

(** [enum ast_channel_state] of the PBX core. *)
Inductive ast_state : Type :=
| AST_STATE_DOWN | AST_STATE_RESERVED | AST_STATE_OFFHOOK | AST_STATE_DIALING
| AST_STATE_RING | AST_STATE_RINGING | AST_STATE_UP | AST_STATE_BUSY
| AST_STATE_DIALING_OFFHOOK | AST_STATE_PRERING.

Definition ast_state_eqb (a b : ast_state) : bool :=
  match a, b with
  | AST_STATE_DOWN, AST_STATE_DOWN | AST_STATE_RESERVED, AST_STATE_RESERVED
  | AST_STATE_OFFHOOK, AST_STATE_OFFHOOK | AST_STATE_DIALING, AST_STATE_DIALING
  | AST_STATE_RING, AST_STATE_RING | AST_STATE_RINGING, AST_STATE_RINGING
  | AST_STATE_UP, AST_STATE_UP | AST_STATE_BUSY, AST_STATE_BUSY
  | AST_STATE_DIALING_OFFHOOK, AST_STATE_DIALING_OFFHOOK
  | AST_STATE_PRERING, AST_STATE_PRERING => true
  | _, _ => false
  end.

(** [AST_SOFTHANGUP_DEV], bit 0 of [_softhangup]. *)
Definition AST_SOFTHANGUP_DEV : Z := 1.

(** [struct timeval] *)
Record timeval : Type := mk_timeval { tv_sec : Z; tv_usec : Z }.

(** [enum ast_control_frame_type], the values the embedded code uses. *)
Inductive ast_control : Type :=
| AST_CONTROL_HANGUP | AST_CONTROL_RINGING | AST_CONTROL_ANSWER
| AST_CONTROL_HOLD | AST_CONTROL_UNHOLD
| AST_CONTROL_RADIO_KEY | AST_CONTROL_RADIO_UNKEY.

(** [enum ast_frame_type], the values the embedded code tells apart. *)
Inductive ast_frame_type : Type :=
| AST_FRAME_DTMF | AST_FRAME_VOICE | AST_FRAME_NULL | AST_FRAME_CONTROL
| AST_FRAME_OTHER.

(** [struct ast_frame]: its type and its subclass (a control code for a
    control frame, the digit for a DTMF frame). *)
Inductive subclass_t : Type :=
| SC_NONE
| SC_CONTROL (c : ast_control)
| SC_DIGIT (d : Z).

Record ast_frame : Type := mk_frame {
  frametype : ast_frame_type;
  subclass : subclass_t
}.

(** What the driver puts on a call leg's read queue. *)

Inductive queued : Type :=
| Q_NULL_FRAME                       (* ast_queue_frame(c, &ast_null_frame) *)
| Q_HANGUP                           (* ast_queue_hangup(c) *)
| Q_CONTROL (c : ast_control).       (* ast_queue_control(c, ...) *)

(** ** The structures *)

Module conf.
Record t : Type := mk {
  chan : Z;  (* channel number, 0 for the descriptor's own channel *)
  confno : Z;  (* conference number *)
  confmode : Z  (* conferencing mode bits *)
}.
End conf.

Module sub.
Record t : Type := mk {
  dfd : Z;  (* hardware descriptor, negative when not allocated *)
  owner : option nat;  (* struct ast_channel *owner *)
  chan : Z;  (* pseudo channel number *)
  needringing : bool;
  needbusy : bool;
  needcongestion : bool;
  needcallerid : bool;
  needanswer : bool;
  needflash : bool;
  needhold : bool;
  needunhold : bool;
  linear : bool;
  inthreeway : bool;
  curconf : conf.t
}.
Definition set_dfd (v : Z) (x : t) : t :=
  mk
    v (owner x) (chan x) (needringing x) (needbusy x) (needcongestion x)
    (needcallerid x) (needanswer x) (needflash x) (needhold x) (needunhold x)
    (linear x) (inthreeway x) (curconf x).
Definition set_owner (v : option nat) (x : t) : t :=
  mk
    (dfd x) v (chan x) (needringing x) (needbusy x) (needcongestion x)
    (needcallerid x) (needanswer x) (needflash x) (needhold x) (needunhold x)
    (linear x) (inthreeway x) (curconf x).
Definition set_chan (v : Z) (x : t) : t :=
  mk
    (dfd x) (owner x) v (needringing x) (needbusy x) (needcongestion x)
    (needcallerid x) (needanswer x) (needflash x) (needhold x) (needunhold x)
    (linear x) (inthreeway x) (curconf x).
Definition set_needbusy (v : bool) (x : t) : t :=
  mk
    (dfd x) (owner x) (chan x) (needringing x) v (needcongestion x)
    (needcallerid x) (needanswer x) (needflash x) (needhold x) (needunhold x)
    (linear x) (inthreeway x) (curconf x).
Definition set_needanswer (v : bool) (x : t) : t :=
  mk
    (dfd x) (owner x) (chan x) (needringing x) (needbusy x) (needcongestion x)
    (needcallerid x) v (needflash x) (needhold x) (needunhold x) (linear x)
    (inthreeway x) (curconf x).
Definition set_needflash (v : bool) (x : t) : t :=
  mk
    (dfd x) (owner x) (chan x) (needringing x) (needbusy x) (needcongestion x)
    (needcallerid x) (needanswer x) v (needhold x) (needunhold x) (linear x)
    (inthreeway x) (curconf x).
Definition set_needhold (v : bool) (x : t) : t :=
  mk
    (dfd x) (owner x) (chan x) (needringing x) (needbusy x) (needcongestion x)
    (needcallerid x) (needanswer x) (needflash x) v (needunhold x) (linear x)
    (inthreeway x) (curconf x).
Definition set_needunhold (v : bool) (x : t) : t :=
  mk
    (dfd x) (owner x) (chan x) (needringing x) (needbusy x) (needcongestion x)
    (needcallerid x) (needanswer x) (needflash x) (needhold x) v (linear x)
    (inthreeway x) (curconf x).
Definition set_linear (v : bool) (x : t) : t :=
  mk
    (dfd x) (owner x) (chan x) (needringing x) (needbusy x) (needcongestion x)
    (needcallerid x) (needanswer x) (needflash x) (needhold x) (needunhold x)
    v (inthreeway x) (curconf x).
Definition set_inthreeway (v : bool) (x : t) : t :=
  mk
    (dfd x) (owner x) (chan x) (needringing x) (needbusy x) (needcongestion x)
    (needcallerid x) (needanswer x) (needflash x) (needhold x) (needunhold x)
    (linear x) v (curconf x).
Definition set_curconf (v : conf.t) (x : t) : t :=
  mk
    (dfd x) (owner x) (chan x) (needringing x) (needbusy x) (needcongestion x)
    (needcallerid x) (needanswer x) (needflash x) (needhold x) (needunhold x)
    (linear x) (inthreeway x) v.
End sub.

(** [struct dahdi_subchannel subs[3]] *)
Record subs_t : Type := mk_subs {
  sub_real : sub.t;
  sub_callwait : sub.t;
  sub_threeway : sub.t
}.

(** [subs[x]] *)
Definition get_sub (s : subs_t) (x : subidx) : sub.t :=
  match x with
  | SUB_REAL => sub_real s
  | SUB_CALLWAIT => sub_callwait s
  | SUB_THREEWAY => sub_threeway s
  end.

(** [subs[x] = v] *)
Definition put_sub (x : subidx) (v : sub.t) (s : subs_t) : subs_t :=
  match x with
  | SUB_REAL => mk_subs v (sub_callwait s) (sub_threeway s)
  | SUB_CALLWAIT => mk_subs (sub_real s) v (sub_threeway s)
  | SUB_THREEWAY => mk_subs (sub_real s) (sub_callwait s) v
  end.

(** [struct dahdi_pvt *slaves[MAX_SLAVES]] *)
Record slaves_t : Type := mk_slaves {
  slave0 : option nat;
  slave1 : option nat;
  slave2 : option nat;
  slave3 : option nat
}.

(** [slaves[x]] *)
Definition get_slave (s : slaves_t) (x : slaveidx) : option nat :=
  match x with
  | SLAVE0 => slave0 s | SLAVE1 => slave1 s
  | SLAVE2 => slave2 s | SLAVE3 => slave3 s
  end.

(** [slaves[x] = v] *)
Definition put_slave (x : slaveidx) (v : option nat) (s : slaves_t) : slaves_t :=
  match x with
  | SLAVE0 => mk_slaves v (slave1 s) (slave2 s) (slave3 s)
  | SLAVE1 => mk_slaves (slave0 s) v (slave2 s) (slave3 s)
  | SLAVE2 => mk_slaves (slave0 s) (slave1 s) v (slave3 s)
  | SLAVE3 => mk_slaves (slave0 s) (slave1 s) (slave2 s) v
  end.

Definition slaves_list (s : slaves_t) : list (option nat) :=
  [slave0 s; slave1 s; slave2 s; slave3 s].

(** [struct dahdi_pvt], the fields the embedded functions read or write. *)
Module pvt.
Record t : Type := mk {
  owner : option nat;  (* our current active owner *)
  subs : subs_t;  (* struct dahdi_subchannel subs[3] *)
  slaves : slaves_t;  (* struct dahdi_pvt *slaves[MAX_SLAVES] *)
  master : option nat;  (* struct dahdi_pvt *master *)
  inconference : Z;  (* if our real should be in the conference *)
  sig : signalling;  (* signalling style *)
  radio : Z;  (* radio type *)
  outsigmod : option signalling;  (* outbound signalling style, None for -1 *)
  oprmode : Z;  (* operator services mode *)
  channel : Z;  (* channel number *)
  confno : Z;  (* our conference number, -1 when none *)
  law : Z;  (* companding law *)
  bearer : option nat;  (* HAVE_PRI: struct dahdi_pvt *bearer *)
  polarity : Z;
  dialing : bool;
  outgoing : bool;
  dialednone : bool;
  pulsedial : bool;
  transfer : bool;
  transfertobusy : bool;
  threewaycalling : bool;
  hanguponpolarityswitch : bool;
  echocanon : bool;
  inalarm : bool;
  digital : bool;
  echocancel_tap_length : Z;  (* echocancel.head.tap_length *)
  echotraining : Z;
  callwaitcas : Z;
  callwaitingrepeat : Z;
  cidcwexpire : Z;
  ringt : Z;
  msgstate : Z;
  onhooktime : Z;  (* time_t *)
  flashtime : timeval;  (* last flash-hook time *)
  polaritydelaytv : timeval;
  dialdest : string  (* char dialdest[256] *)
}.
Definition set_owner (v : option nat) (x : t) : t :=
  mk
    v (subs x) (slaves x) (master x) (inconference x) (sig x) (radio x)
    (outsigmod x) (oprmode x) (channel x) (confno x) (law x) (bearer x)
    (polarity x) (dialing x) (outgoing x) (dialednone x) (pulsedial x)
    (transfer x) (transfertobusy x) (threewaycalling x)
    (hanguponpolarityswitch x) (echocanon x) (inalarm x) (digital x)
    (echocancel_tap_length x) (echotraining x) (callwaitcas x)
    (callwaitingrepeat x) (cidcwexpire x) (ringt x) (msgstate x)
    (onhooktime x) (flashtime x) (polaritydelaytv x) (dialdest x).
Definition set_subs (v : subs_t) (x : t) : t :=
  mk
    (owner x) v (slaves x) (master x) (inconference x) (sig x) (radio x)
    (outsigmod x) (oprmode x) (channel x) (confno x) (law x) (bearer x)
    (polarity x) (dialing x) (outgoing x) (dialednone x) (pulsedial x)
    (transfer x) (transfertobusy x) (threewaycalling x)
    (hanguponpolarityswitch x) (echocanon x) (inalarm x) (digital x)
    (echocancel_tap_length x) (echotraining x) (callwaitcas x)
    (callwaitingrepeat x) (cidcwexpire x) (ringt x) (msgstate x)
    (onhooktime x) (flashtime x) (polaritydelaytv x) (dialdest x).
Definition set_slaves (v : slaves_t) (x : t) : t :=
  mk
    (owner x) (subs x) v (master x) (inconference x) (sig x) (radio x)
    (outsigmod x) (oprmode x) (channel x) (confno x) (law x) (bearer x)
    (polarity x) (dialing x) (outgoing x) (dialednone x) (pulsedial x)
    (transfer x) (transfertobusy x) (threewaycalling x)
    (hanguponpolarityswitch x) (echocanon x) (inalarm x) (digital x)
    (echocancel_tap_length x) (echotraining x) (callwaitcas x)
    (callwaitingrepeat x) (cidcwexpire x) (ringt x) (msgstate x)
    (onhooktime x) (flashtime x) (polaritydelaytv x) (dialdest x).
Definition set_master (v : option nat) (x : t) : t :=
  mk
    (owner x) (subs x) (slaves x) v (inconference x) (sig x) (radio x)
    (outsigmod x) (oprmode x) (channel x) (confno x) (law x) (bearer x)
    (polarity x) (dialing x) (outgoing x) (dialednone x) (pulsedial x)
    (transfer x) (transfertobusy x) (threewaycalling x)
    (hanguponpolarityswitch x) (echocanon x) (inalarm x) (digital x)
    (echocancel_tap_length x) (echotraining x) (callwaitcas x)
    (callwaitingrepeat x) (cidcwexpire x) (ringt x) (msgstate x)
    (onhooktime x) (flashtime x) (polaritydelaytv x) (dialdest x).
Definition set_inconference (v : Z) (x : t) : t :=
  mk
    (owner x) (subs x) (slaves x) (master x) v (sig x) (radio x) (outsigmod x)
    (oprmode x) (channel x) (confno x) (law x) (bearer x) (polarity x)
    (dialing x) (outgoing x) (dialednone x) (pulsedial x) (transfer x)
    (transfertobusy x) (threewaycalling x) (hanguponpolarityswitch x)
    (echocanon x) (inalarm x) (digital x) (echocancel_tap_length x)
    (echotraining x) (callwaitcas x) (callwaitingrepeat x) (cidcwexpire x)
    (ringt x) (msgstate x) (onhooktime x) (flashtime x) (polaritydelaytv x)
    (dialdest x).
Definition set_confno (v : Z) (x : t) : t :=
  mk
    (owner x) (subs x) (slaves x) (master x) (inconference x) (sig x)
    (radio x) (outsigmod x) (oprmode x) (channel x) v (law x) (bearer x)
    (polarity x) (dialing x) (outgoing x) (dialednone x) (pulsedial x)
    (transfer x) (transfertobusy x) (threewaycalling x)
    (hanguponpolarityswitch x) (echocanon x) (inalarm x) (digital x)
    (echocancel_tap_length x) (echotraining x) (callwaitcas x)
    (callwaitingrepeat x) (cidcwexpire x) (ringt x) (msgstate x)
    (onhooktime x) (flashtime x) (polaritydelaytv x) (dialdest x).
Definition set_polarity (v : Z) (x : t) : t :=
  mk
    (owner x) (subs x) (slaves x) (master x) (inconference x) (sig x)
    (radio x) (outsigmod x) (oprmode x) (channel x) (confno x) (law x)
    (bearer x) v (dialing x) (outgoing x) (dialednone x) (pulsedial x)
    (transfer x) (transfertobusy x) (threewaycalling x)
    (hanguponpolarityswitch x) (echocanon x) (inalarm x) (digital x)
    (echocancel_tap_length x) (echotraining x) (callwaitcas x)
    (callwaitingrepeat x) (cidcwexpire x) (ringt x) (msgstate x)
    (onhooktime x) (flashtime x) (polaritydelaytv x) (dialdest x).
Definition set_dialing (v : bool) (x : t) : t :=
  mk
    (owner x) (subs x) (slaves x) (master x) (inconference x) (sig x)
    (radio x) (outsigmod x) (oprmode x) (channel x) (confno x) (law x)
    (bearer x) (polarity x) v (outgoing x) (dialednone x) (pulsedial x)
    (transfer x) (transfertobusy x) (threewaycalling x)
    (hanguponpolarityswitch x) (echocanon x) (inalarm x) (digital x)
    (echocancel_tap_length x) (echotraining x) (callwaitcas x)
    (callwaitingrepeat x) (cidcwexpire x) (ringt x) (msgstate x)
    (onhooktime x) (flashtime x) (polaritydelaytv x) (dialdest x).
Definition set_outgoing (v : bool) (x : t) : t :=
  mk
    (owner x) (subs x) (slaves x) (master x) (inconference x) (sig x)
    (radio x) (outsigmod x) (oprmode x) (channel x) (confno x) (law x)
    (bearer x) (polarity x) (dialing x) v (dialednone x) (pulsedial x)
    (transfer x) (transfertobusy x) (threewaycalling x)
    (hanguponpolarityswitch x) (echocanon x) (inalarm x) (digital x)
    (echocancel_tap_length x) (echotraining x) (callwaitcas x)
    (callwaitingrepeat x) (cidcwexpire x) (ringt x) (msgstate x)
    (onhooktime x) (flashtime x) (polaritydelaytv x) (dialdest x).
Definition set_dialednone (v : bool) (x : t) : t :=
  mk
    (owner x) (subs x) (slaves x) (master x) (inconference x) (sig x)
    (radio x) (outsigmod x) (oprmode x) (channel x) (confno x) (law x)
    (bearer x) (polarity x) (dialing x) (outgoing x) v (pulsedial x)
    (transfer x) (transfertobusy x) (threewaycalling x)
    (hanguponpolarityswitch x) (echocanon x) (inalarm x) (digital x)
    (echocancel_tap_length x) (echotraining x) (callwaitcas x)
    (callwaitingrepeat x) (cidcwexpire x) (ringt x) (msgstate x)
    (onhooktime x) (flashtime x) (polaritydelaytv x) (dialdest x).
Definition set_echocanon (v : bool) (x : t) : t :=
  mk
    (owner x) (subs x) (slaves x) (master x) (inconference x) (sig x)
    (radio x) (outsigmod x) (oprmode x) (channel x) (confno x) (law x)
    (bearer x) (polarity x) (dialing x) (outgoing x) (dialednone x)
    (pulsedial x) (transfer x) (transfertobusy x) (threewaycalling x)
    (hanguponpolarityswitch x) v (inalarm x) (digital x)
    (echocancel_tap_length x) (echotraining x) (callwaitcas x)
    (callwaitingrepeat x) (cidcwexpire x) (ringt x) (msgstate x)
    (onhooktime x) (flashtime x) (polaritydelaytv x) (dialdest x).
Definition set_callwaitcas (v : Z) (x : t) : t :=
  mk
    (owner x) (subs x) (slaves x) (master x) (inconference x) (sig x)
    (radio x) (outsigmod x) (oprmode x) (channel x) (confno x) (law x)
    (bearer x) (polarity x) (dialing x) (outgoing x) (dialednone x)
    (pulsedial x) (transfer x) (transfertobusy x) (threewaycalling x)
    (hanguponpolarityswitch x) (echocanon x) (inalarm x) (digital x)
    (echocancel_tap_length x) (echotraining x) v (callwaitingrepeat x)
    (cidcwexpire x) (ringt x) (msgstate x) (onhooktime x) (flashtime x)
    (polaritydelaytv x) (dialdest x).
Definition set_callwaitingrepeat (v : Z) (x : t) : t :=
  mk
    (owner x) (subs x) (slaves x) (master x) (inconference x) (sig x)
    (radio x) (outsigmod x) (oprmode x) (channel x) (confno x) (law x)
    (bearer x) (polarity x) (dialing x) (outgoing x) (dialednone x)
    (pulsedial x) (transfer x) (transfertobusy x) (threewaycalling x)
    (hanguponpolarityswitch x) (echocanon x) (inalarm x) (digital x)
    (echocancel_tap_length x) (echotraining x) (callwaitcas x) v
    (cidcwexpire x) (ringt x) (msgstate x) (onhooktime x) (flashtime x)
    (polaritydelaytv x) (dialdest x).
Definition set_cidcwexpire (v : Z) (x : t) : t :=
  mk
    (owner x) (subs x) (slaves x) (master x) (inconference x) (sig x)
    (radio x) (outsigmod x) (oprmode x) (channel x) (confno x) (law x)
    (bearer x) (polarity x) (dialing x) (outgoing x) (dialednone x)
    (pulsedial x) (transfer x) (transfertobusy x) (threewaycalling x)
    (hanguponpolarityswitch x) (echocanon x) (inalarm x) (digital x)
    (echocancel_tap_length x) (echotraining x) (callwaitcas x)
    (callwaitingrepeat x) v (ringt x) (msgstate x) (onhooktime x)
    (flashtime x) (polaritydelaytv x) (dialdest x).
Definition set_ringt (v : Z) (x : t) : t :=
  mk
    (owner x) (subs x) (slaves x) (master x) (inconference x) (sig x)
    (radio x) (outsigmod x) (oprmode x) (channel x) (confno x) (law x)
    (bearer x) (polarity x) (dialing x) (outgoing x) (dialednone x)
    (pulsedial x) (transfer x) (transfertobusy x) (threewaycalling x)
    (hanguponpolarityswitch x) (echocanon x) (inalarm x) (digital x)
    (echocancel_tap_length x) (echotraining x) (callwaitcas x)
    (callwaitingrepeat x) (cidcwexpire x) v (msgstate x) (onhooktime x)
    (flashtime x) (polaritydelaytv x) (dialdest x).
Definition set_msgstate (v : Z) (x : t) : t :=
  mk
    (owner x) (subs x) (slaves x) (master x) (inconference x) (sig x)
    (radio x) (outsigmod x) (oprmode x) (channel x) (confno x) (law x)
    (bearer x) (polarity x) (dialing x) (outgoing x) (dialednone x)
    (pulsedial x) (transfer x) (transfertobusy x) (threewaycalling x)
    (hanguponpolarityswitch x) (echocanon x) (inalarm x) (digital x)
    (echocancel_tap_length x) (echotraining x) (callwaitcas x)
    (callwaitingrepeat x) (cidcwexpire x) (ringt x) v (onhooktime x)
    (flashtime x) (polaritydelaytv x) (dialdest x).
Definition set_onhooktime (v : Z) (x : t) : t :=
  mk
    (owner x) (subs x) (slaves x) (master x) (inconference x) (sig x)
    (radio x) (outsigmod x) (oprmode x) (channel x) (confno x) (law x)
    (bearer x) (polarity x) (dialing x) (outgoing x) (dialednone x)
    (pulsedial x) (transfer x) (transfertobusy x) (threewaycalling x)
    (hanguponpolarityswitch x) (echocanon x) (inalarm x) (digital x)
    (echocancel_tap_length x) (echotraining x) (callwaitcas x)
    (callwaitingrepeat x) (cidcwexpire x) (ringt x) (msgstate x) v
    (flashtime x) (polaritydelaytv x) (dialdest x).
Definition set_flashtime (v : timeval) (x : t) : t :=
  mk
    (owner x) (subs x) (slaves x) (master x) (inconference x) (sig x)
    (radio x) (outsigmod x) (oprmode x) (channel x) (confno x) (law x)
    (bearer x) (polarity x) (dialing x) (outgoing x) (dialednone x)
    (pulsedial x) (transfer x) (transfertobusy x) (threewaycalling x)
    (hanguponpolarityswitch x) (echocanon x) (inalarm x) (digital x)
    (echocancel_tap_length x) (echotraining x) (callwaitcas x)
    (callwaitingrepeat x) (cidcwexpire x) (ringt x) (msgstate x)
    (onhooktime x) v (polaritydelaytv x) (dialdest x).
Definition set_polaritydelaytv (v : timeval) (x : t) : t :=
  mk
    (owner x) (subs x) (slaves x) (master x) (inconference x) (sig x)
    (radio x) (outsigmod x) (oprmode x) (channel x) (confno x) (law x)
    (bearer x) (polarity x) (dialing x) (outgoing x) (dialednone x)
    (pulsedial x) (transfer x) (transfertobusy x) (threewaycalling x)
    (hanguponpolarityswitch x) (echocanon x) (inalarm x) (digital x)
    (echocancel_tap_length x) (echotraining x) (callwaitcas x)
    (callwaitingrepeat x) (cidcwexpire x) (ringt x) (msgstate x)
    (onhooktime x) (flashtime x) v (dialdest x).
Definition set_dialdest (v : string) (x : t) : t :=
  mk
    (owner x) (subs x) (slaves x) (master x) (inconference x) (sig x)
    (radio x) (outsigmod x) (oprmode x) (channel x) (confno x) (law x)
    (bearer x) (polarity x) (dialing x) (outgoing x) (dialednone x)
    (pulsedial x) (transfer x) (transfertobusy x) (threewaycalling x)
    (hanguponpolarityswitch x) (echocanon x) (inalarm x) (digital x)
    (echocancel_tap_length x) (echotraining x) (callwaitcas x)
    (callwaitingrepeat x) (cidcwexpire x) (ringt x) (msgstate x)
    (onhooktime x) (flashtime x) (polaritydelaytv x) v.
End pvt.

(** [struct ast_channel] of the PBX core, the fields the driver touches. *)
Module chn.
Record t : Type := mk {
  _state : ast_state;  (* enum ast_channel_state _state *)
  fds0 : Z;  (* fds[0], the descriptor frames are read from *)
  _softhangup : Z;  (* soft hangup flag bits *)
  pbx : bool;  (* pbx != NULL *)
  tech_pvt : option nat;  (* the line this leg runs on *)
  bridged : option nat;  (* what ast_bridged_channel answers *)
  readq : list queued  (* frames queued for the reader *)
}.
Definition set__state (v : ast_state) (x : t) : t :=
  mk
    v (fds0 x) (_softhangup x) (pbx x) (tech_pvt x) (bridged x) (readq x).
Definition set_fds0 (v : Z) (x : t) : t :=
  mk
    (_state x) v (_softhangup x) (pbx x) (tech_pvt x) (bridged x) (readq x).
Definition set__softhangup (v : Z) (x : t) : t :=
  mk
    (_state x) (fds0 x) v (pbx x) (tech_pvt x) (bridged x) (readq x).
Definition set_readq (v : list queued) (x : t) : t :=
  mk
    (_state x) (fds0 x) (_softhangup x) (pbx x) (tech_pvt x) (bridged x) v.
End chn.

(** [p->subs[x]] and its assignment, on a line. *)
Definition psub (p : pvt.t) (x : subidx) : sub.t := get_sub (pvt.subs p) x.

Definition upd_sub (x : subidx) (f : sub.t -> sub.t) (p : pvt.t) : pvt.t :=
  pvt.set_subs (put_sub x (f (psub p x)) (pvt.subs p)) p.

(** ** The world: lines, call legs, and what was asked of the outside *)

Inductive loglevel : Type := LOG_NOTICE | LOG_WARNING | LOG_ERROR.

(** Requests to the DAHDI kernel driver and the tone library. *)
Inductive hwcall : Type :=
| DAHDI_SETCONF (dfd : Z) (zi : conf.t)
| DAHDI_HOOK (dfd : Z) (hs : Z)
| DAHDI_FLUSH (dfd : Z) (x : Z)
| DAHDI_AUDIOMODE (dfd : Z) (x : Z)
| DAHDI_ECHOCANCEL_PARAMS (dfd : Z) (tap_length : Z)
| DAHDI_ECHOTRAIN (dfd : Z) (x : Z)
| TONE_ZONE_PLAY_TONE (dfd : Z) (tone : Z)
| CLOSE (fd : Z).

Inductive event : Type :=
| Hw (c : hwcall)
| Log (l : loglevel) (msg : string)
| SetActualGain (dfd : Z) (law : Z)      (* set_actual_gain(dfd, 0, rx, tx, law) *)
| AstIndicate (c : nat) (ctl : ast_control)  (* ast_indicate(c, ctl) *)
| AstMasquerade (original clone : nat)   (* ast_channel_masquerade *)
| AstWrite (c : nat) (f : ast_frame).    (* ast_write(c, f) *)

Record world : Type := mk_world {
  pvts : gmap nat pvt.t;
  chans : gmap nat chn.t;
  trace : list event
}.

(** Runs that may follow a bad pointer. *)
Definition M (A : Type) : Type := world -> option (A * world).

Definition ret {A} (a : A) : M A := fun w => Some (a, w).

Definition bind {A B} (m : M A) (k : A -> M B) : M B :=
  fun w => match m w with
           | Some (a, w') => k a w'
           | None => None
           end.

Notation "'do' x <- m ; k" := (bind m (fun x => k))
  (at level 10, x name, m at level 100, k at level 200).
Notation "m ;; k" := (bind m (fun _ => k))
  (at level 100, k at level 200, right associativity).

Definition when (b : bool) (m : M unit) : M unit := if b then m else ret tt.

(** Read the line behind the pointer [p]. *)
Definition rd (p : nat) : M pvt.t :=
  fun w => match pvts w !! p with Some v => Some (v, w) | None => None end.

(** Write through the pointer [p]. *)
Definition wr (p : nat) (f : pvt.t -> pvt.t) : M unit :=
  fun w => match pvts w !! p with
           | Some v => Some (tt, mk_world (<[p := f v]> (pvts w)) (chans w) (trace w))
           | None => None
           end.

(** The same for a call leg. *)
Definition rdc (c : nat) : M chn.t :=
  fun w => match chans w !! c with Some v => Some (v, w) | None => None end.

Definition wrc (c : nat) (f : chn.t -> chn.t) : M unit :=
  fun w => match chans w !! c with
           | Some v => Some (tt, mk_world (pvts w) (<[c := f v]> (chans w)) (trace w))
           | None => None
           end.

Definition emit (e : event) : M unit :=
  fun w => Some (tt, mk_world (pvts w) (chans w) (trace w ++ [e])).

Definition ast_log (l : loglevel) (msg : string) : M unit := emit (Log l msg).

(** The trace so far, for the oracle. *)
Definition history : M (list event) := fun w => Some (trace w, w).

Definition is_some {A} (o : option A) : bool :=
  match o with Some _ => true | None => false end.

Definition opt_nat_eqb (a b : option nat) : bool :=
  match a, b with
  | Some x, Some y => Nat.eqb x y
  | None, None => true
  | _, _ => false
  end.

(** ** Sub-channel multiplexer *)

(** [dahdi_get_index]: which role of [p] the call leg [ast] owns, [None]
    for -1. *)
Definition dahdi_get_index (ast : nat) (p : nat) (nullok : bool) : M (option subidx) :=
  do v <- rd p;
  if opt_nat_eqb (sub.owner (psub v SUB_REAL)) (Some ast) then ret (Some SUB_REAL)
  else if opt_nat_eqb (sub.owner (psub v SUB_CALLWAIT)) (Some ast) then ret (Some SUB_CALLWAIT)
  else if opt_nat_eqb (sub.owner (psub v SUB_THREEWAY)) (Some ast) then ret (Some SUB_THREEWAY)
  else
    (when (negb nullok)
       (ast_log LOG_WARNING "Unable to get index, and nullok is not asserted") ;;
     ret None).

(** [ast_channel_set_fd(c, 0, fd)] of the PBX core. *)
Definition ast_channel_set_fd0 (c : nat) (fd : Z) : M unit :=
  wrc c (chn.set_fds0 fd).

(** [ast_queue_frame] and its kin of the PBX core: append to the read
    queue of the leg. *)
Definition ast_queue (c : nat) (q : queued) : M unit :=
  wrc c (fun ch => chn.set_readq (chn.readq ch ++ [q]) ch).

(** [wakeup_sub(p, a, NULL)]: queue a null frame on the owner of role [a],
    if there is one.  The source spins on the owner's lock until it gets
    it; the embedding is of the run in which it does. *)
Definition wakeup_sub (p : nat) (a : subidx) : M unit :=
  do v <- rd p;
  match sub.owner (psub v a) with
  | Some o => ast_queue o Q_NULL_FRAME
  | None => ret tt
  end.

(** [swap_subs(p, a, b)] *)
Definition swap_subs (p : nat) (a b : subidx) : M unit :=
  do v <- rd p;
  let tchan := sub.chan (psub v a) in
  let towner := sub.owner (psub v a) in
  let tinthreeway := sub.inthreeway (psub v a) in
  wr p (fun v => upd_sub a (sub.set_chan (sub.chan (psub v b))) v) ;;
  wr p (fun v => upd_sub a (sub.set_owner (sub.owner (psub v b))) v) ;;
  wr p (fun v => upd_sub a (sub.set_inthreeway (sub.inthreeway (psub v b))) v) ;;
  wr p (upd_sub b (sub.set_chan tchan)) ;;
  wr p (upd_sub b (sub.set_owner towner)) ;;
  wr p (upd_sub b (sub.set_inthreeway tinthreeway)) ;;
  (do v <- rd p;
   match sub.owner (psub v a) with
   | Some o => ast_channel_set_fd0 o (sub.dfd (psub v a))
   | None => ret tt
   end) ;;
  (do v <- rd p;
   match sub.owner (psub v b) with
   | Some o => ast_channel_set_fd0 o (sub.dfd (psub v b))
   | None => ret tt
   end) ;;
  wakeup_sub p a ;;
  wakeup_sub p b.

(** [dahdi_close(fd)] *)
Definition dahdi_close (fd : Z) : M unit :=
  when (0 <? fd) (emit (Hw (CLOSE fd))).

Definition conf_zero : conf.t := conf.mk 0 0 0.

(** [unalloc_sub(p, x)]; the result is the C return value. *)
Definition unalloc_sub (p : nat) (x : subidx) : M Z :=
  match x with
  | SUB_REAL =>
      do _ <- rd p;      (* the message reads p->channel *)
      ast_log LOG_WARNING "Trying to unalloc the real channel?!?" ;;
      ret (-1)
  | _ =>
      do v <- rd p;
      when (-1 <? sub.dfd (psub v x)) (dahdi_close (sub.dfd (psub v x))) ;;
      wr p (upd_sub x (sub.set_dfd (-1))) ;;
      wr p (upd_sub x (sub.set_linear false)) ;;
      wr p (upd_sub x (sub.set_chan 0)) ;;
      wr p (upd_sub x (sub.set_owner None)) ;;
      wr p (upd_sub x (sub.set_inthreeway false)) ;;
      wr p (pvt.set_polarity POLARITY_IDLE) ;;
      wr p (upd_sub x (sub.set_curconf conf_zero)) ;;
      ret 0
  end.

(** ** What lies outside the file

    The DAHDI kernel interface ([dahdi/user.h]) and the PBX core are not
    part of [chan_dahdi.c].  Their constants and their answers are taken
    as one parameter of the embedding. *)

Record env : Type := mk_env {
  (* conferencing modes and flags of [struct dahdi_confinfo] *)
  DAHDI_CONF_CONF : Z;
  DAHDI_CONF_REALANDPSEUDO : Z;
  DAHDI_CONF_DIGITALMON : Z;
  DAHDI_CONF_LISTENER : Z;
  DAHDI_CONF_TALKER : Z;
  DAHDI_CONF_PSEUDO_LISTENER : Z;
  DAHDI_CONF_PSEUDO_TALKER : Z;
  (* hook states, tones, flush bits, errno *)
  DAHDI_ONHOOK : Z;
  DAHDI_OFFHOOK : Z;
  DAHDI_RING : Z;
  DAHDI_TONE_RINGTONE : Z;
  DAHDI_FLUSH_READ : Z;
  DAHDI_FLUSH_WRITE : Z;
  EINPROGRESS : Z;
  EBUSY : Z;
  EINTR : Z;
  (* the return value of a request, given everything asked before it *)
  ioctl : list event -> hwcall -> Z;
  (* [errno] after a request that failed *)
  ioctl_errno : list event -> hwcall -> Z;
  (* the [struct dahdi_confinfo] the kernel writes back on DAHDI_SETCONF *)
  setconf_out : list event -> Z -> conf.t -> conf.t;
  (* [sig & __DAHDI_SIG_FXS] is not zero *)
  sig_fxs : signalling -> bool;
  (* [ast_tvnow()] and [ast_tvdiff_ms(end, start)] of the PBX core *)
  ast_tvnow : list event -> timeval;
  ast_tvdiff_ms : timeval -> timeval -> Z;
  (* the return value of [ast_channel_masquerade(original, clone)] *)
  ast_channel_masquerade : list event -> nat -> nat -> Z
}.

Fixpoint foldM {A S : Type} (f : A -> S -> M S) (l : list A) (s : S) : M S :=
  match l with
  | [] => ret s
  | a :: l' => do s' <- f a s; foldM f l' s'
  end.

(** A [struct dahdi_subchannel *]: the line it lives in and its role. *)
Definition subref : Type := (nat * subidx)%type.

Definition rdsub (c : subref) : M sub.t :=
  do v <- rd (fst c); ret (psub v (snd c)).

Section Driver.

Variable K : env.

(** A request to the kernel: recorded, then answered by the oracle. *)
Definition hw (c : hwcall) : M Z :=
  do h <- history;
  emit (Hw c) ;;
  ret (ioctl K h c).

(** ** Conference topology manager *)

(** [DAHDI_CONF_REALANDPSEUDO | DAHDI_CONF_TALKER | DAHDI_CONF_LISTENER |
     DAHDI_CONF_PSEUDO_TALKER | DAHDI_CONF_PSEUDO_LISTENER] *)
Definition confmode_real : Z :=
  Z.lor (Z.lor (Z.lor (Z.lor (DAHDI_CONF_REALANDPSEUDO K) (DAHDI_CONF_TALKER K))
                      (DAHDI_CONF_LISTENER K))
               (DAHDI_CONF_PSEUDO_TALKER K))
        (DAHDI_CONF_PSEUDO_LISTENER K).

(** [DAHDI_CONF_CONF | DAHDI_CONF_TALKER | DAHDI_CONF_LISTENER] *)
Definition confmode_pseudo : Z :=
  Z.lor (Z.lor (DAHDI_CONF_CONF K) (DAHDI_CONF_TALKER K)) (DAHDI_CONF_LISTENER K).

(** The [zi] that [conf_add] builds before it looks at [c]. *)
Definition conf_add_zi (vp : pvt.t) (index : subidx) (slavechannel : Z) : conf.t :=
  if 0 <? slavechannel then
    (* If we have only one slave, do a digital mon *)
    conf.mk 0 slavechannel (DAHDI_CONF_DIGITALMON K)
  else
    conf.mk 0 (pvt.confno vp)
      (match index with
       | SUB_REAL => confmode_real
       | _ => confmode_pseudo
       end).

(** [conf_add(p, c, index, slavechannel)] *)
Definition conf_add (p : nat) (c : subref) (index : subidx) (slavechannel : Z) : M Z :=
  do vp <- rd p;
  let zi := conf_add_zi vp index slavechannel in
  do cs <- rdsub c;
  if (conf.confno zi =? conf.confno (sub.curconf cs)) &&
     (conf.confmode zi =? conf.confmode (sub.curconf cs)) then ret 0
  else if sub.dfd cs <? 0 then ret 0
  else
    do h <- history;
    do r <- hw (DAHDI_SETCONF (sub.dfd cs) zi);
    if negb (r =? 0) then
      ast_log LOG_WARNING "Failed to add to conference" ;;
      ret (-1)
    else
      let zi' := setconf_out K h (sub.dfd cs) zi in
      when (slavechannel <? 1) (wr p (pvt.set_confno (conf.confno zi'))) ;;
      wr (fst c) (upd_sub (snd c) (sub.set_curconf zi')) ;;
      ret 0.

(** [isourconf(p, c)] *)
Definition isourconf (vp : pvt.t) (cs : sub.t) : bool :=
  if (pvt.channel vp =? conf.confno (sub.curconf cs)) &&
     (conf.confmode (sub.curconf cs) =? DAHDI_CONF_DIGITALMON K) then true
  else if (0 <? pvt.confno vp) &&
          (pvt.confno vp =? conf.confno (sub.curconf cs)) &&
          negb (Z.land (conf.confmode (sub.curconf cs)) (DAHDI_CONF_TALKER K) =? 0)
       then true
  else false.

(** [conf_del(p, c, index)] *)
Definition conf_del (p : nat) (c : subref) (index : subidx) : M Z :=
  do vp <- rd p;
  do cs <- rdsub c;
  if (sub.dfd cs <? 0) || negb (isourconf vp cs) then ret 0
  else
    do h <- history;
    do r <- hw (DAHDI_SETCONF (sub.dfd cs) conf_zero);
    if negb (r =? 0) then
      ast_log LOG_WARNING "Failed to drop from conference" ;;
      ret (-1)
    else
      wr (fst c) (upd_sub (snd c)
                    (sub.set_curconf (setconf_out K h (sub.dfd cs) conf_zero))) ;;
      ret 0.

(** The first loop of [isslavenative]: any allocated sub-channel in a
    three-way call rules slave-native mode out. *)
Definition no_threeway (v : pvt.t) : bool :=
  fold_left
    (fun useslavenative x =>
       if (-1 <? sub.dfd (psub v x)) && sub.inthreeway (psub v x)
       then false else useslavenative)
    all_subs true.

(** The second loop of [isslavenative], over [slaves[0..3]], with its
    [break]: the slave found and whether slave-native mode is still on. *)
Fixpoint scan_slaves (l : list (option nat)) (slave : option nat)
  : option nat * bool :=
  match l with
  | [] => (slave, true)
  | None :: l' => scan_slaves l' slave
  | Some s :: l' =>
      match slave with
      | Some _ => (None, false)   (* Whoops already have a slave! *)
      | None => scan_slaves l' (Some s)
      end
  end.

(** [isslavenative(p, &slave)]: the return value and [*out]. *)
Definition isslavenative (p : nat) : M (bool * option nat) :=
  do v <- rd p;
  let useslavenative := no_threeway v in
  let '(slave, useslavenative) :=
    if useslavenative then scan_slaves (slaves_list (pvt.slaves v)) None
    else (None, useslavenative) in
  match slave with
  | None => ret (false, None)
  | Some s =>
      do vs <- rd s;
      if negb (pvt.law vs =? pvt.law v) then ret (false, None)
      else ret (useslavenative, Some s)
  end.

(** [reset_conf(p)] *)
Definition reset_conf (p : nat) : M Z :=
  wr p (pvt.set_confno (-1)) ;;
  wr p (upd_sub SUB_REAL (sub.set_curconf conf_zero)) ;;
  do v <- rd p;
  (if -1 <? sub.dfd (psub v SUB_REAL) then
     do r <- hw (DAHDI_SETCONF (sub.dfd (psub v SUB_REAL)) conf_zero);
     when (negb (r =? 0)) (ast_log LOG_WARNING "Failed to reset conferencing")
   else ret tt) ;;
  ret 0.

(** [GET_CHANNEL(p)], as built with HAVE_PRI; without it [bearer] is
    never set and this is [p->channel]. *)
Definition GET_CHANNEL (p : nat) : M Z :=
  do v <- rd p;
  match pvt.bearer v with
  | Some b => do vb <- rd b; ret (pvt.channel vb)
  | None => ret (pvt.channel v)
  end.

(** Body of the first loop of [update_conf]. *)
Definition update_conf_sub (p : nat) (x : subidx) (needconf : Z) : M Z :=
  do v <- rd p;
  if (-1 <? sub.dfd (psub v x)) && sub.inthreeway (psub v x) then
    conf_add p (p, x) x 0 ;;
    ret (needconf + 1)
  else
    conf_del p (p, x) x ;;
    ret needconf.

(** Body of the second loop of [update_conf]. *)
Definition update_conf_slave (p : nat) (useslavenative : bool)
    (x : slaveidx) (needconf : Z) : M Z :=
  do v <- rd p;
  match get_slave (pvt.slaves v) x with
  | Some s =>
      if useslavenative then
        do ch <- GET_CHANNEL p;
        conf_add p (s, SUB_REAL) SUB_REAL ch ;;
        ret needconf
      else
        conf_add p (s, SUB_REAL) SUB_REAL 0 ;;
        ret (needconf + 1)
  | None => ret needconf
  end.

(** [update_conf(p)] *)
Definition update_conf (p : nat) : M Z :=
  do ns <- isslavenative p;
  let '(useslavenative, slave) := ns in
  (* Start with the obvious, general stuff *)
  do needconf <- foldM (update_conf_sub p) all_subs 0;
  (* If we have a slave, add him to our conference now. or DAX
     if this is slave native *)
  do needconf <- foldM (update_conf_slave p useslavenative) all_slaves needconf;
  (* If we're supposed to be in there, do so now *)
  do v <- rd p;
  do needconf <-
    (if negb (pvt.inconference v =? 0) && negb (sub.inthreeway (psub v SUB_REAL)) then
       if useslavenative then
         match slave with
         | Some s =>
             do ch <- GET_CHANNEL s;
             conf_add p (p, SUB_REAL) SUB_REAL ch ;;
             ret needconf
         | None => fun _ => None
         end
       else
         conf_add p (p, SUB_REAL) SUB_REAL 0 ;;
         ret (needconf + 1)
     else ret needconf);
  (* If we have a master, add ourselves to his conference *)
  do v <- rd p;
  match pvt.master v with
  | Some m =>
      do mn <- isslavenative m;
      if fst mn then
        do ch <- GET_CHANNEL m;
        conf_add m (p, SUB_REAL) SUB_REAL ch ;;
        ret tt
      else
        conf_add m (p, SUB_REAL) SUB_REAL 0 ;;
        ret tt
  | None => ret tt
  end ;;
  (* Nobody is left (or should be left) in our conference.  Kill it. *)
  when (needconf =? 0) (wr p (pvt.set_confno (-1))) ;;
  ret 0.

(** The first loop of [dahdi_link]: the first [x] with [!master->slaves[x]],
    [None] when the loop runs to [MAX_SLAVES]. *)
Definition first_free_slave (sl : slaves_t) : option slaveidx :=
  List.find (fun x => negb (is_some (get_slave sl x))) all_slaves.

(** [dahdi_link(slave, master)] *)
Definition dahdi_link (slave master : option nat) : M unit :=
  match slave, master with
  | Some s, Some m =>
      do vm <- rd m;
      match first_free_slave (pvt.slaves vm) with
      | Some x => wr m (fun v => pvt.set_slaves (put_slave x (Some s) (pvt.slaves v)) v)
      | None =>
          (* x >= MAX_SLAVES: the message reads both channel numbers *)
          match get_slave (pvt.slaves vm) SLAVE3 with
          | Some old => do _ <- rd old; do _ <- rd s; ret tt
          | None => ret tt
          end ;;
          ast_log LOG_WARNING "Replacing slave with new slave" ;;
          wr m (fun v => pvt.set_slaves (put_slave SLAVE3 (Some s) (pvt.slaves v)) v)
      end ;;
      do vs <- rd s;
      match pvt.master vs with
      | Some old =>
          do _ <- rd old;
          ast_log LOG_WARNING "Replacing master with new master"
      | None => ret tt
      end ;;
      wr s (pvt.set_master (Some m))
  | _, _ => ast_log LOG_WARNING "Tried to link to/from NULL??"
  end.

End Driver.

(** ** Call lifecycle controller *)

Section Lifecycle.

Variable K : env.

(** The arms of the source that are not embedded are parameters:
    - [dial_by_signalling ast p]: [dahdi_call] from [switch (mysig)] to
      its end, the per-signalling dial routines;
    - [answer_digital ast p]: the PRI, BRI and SS7 arms of
      [dahdi_answer]. *)
Variable dial_by_signalling : nat -> nat -> M Z.
Variable answer_digital : nat -> nat -> M Z.

(** [dahdi_set_hook(fd, hs)] *)
Definition dahdi_set_hook (fd hs : Z) : M Z :=
  do h <- history;
  do res <- hw K (DAHDI_HOOK fd hs);
  if res <? 0 then
    if ioctl_errno K h (DAHDI_HOOK fd hs) =? EINPROGRESS K then ret 0
    else
      ast_log LOG_WARNING "DAHDI hook failed" ;;
      ret res
  else ret res.

(** [tone_zone_play_tone(fd, tone)] of the tone library. *)
Definition tone_zone_play_tone (fd tone : Z) : M Z :=
  hw K (TONE_ZONE_PLAY_TONE fd tone).

Definition sig_is_digital (s : signalling) : bool :=
  match s with
  | SIG_BRI | SIG_BRI_PTMP | SIG_PRI | SIG_SS7 => true
  | _ => false
  end.

(** [dahdi_enable_ec(p)] *)
Definition dahdi_enable_ec (p : nat) : M unit :=
  do v <- rd p;
  if pvt.echocanon v then ret tt
  else if pvt.digital v then ret tt
  else if negb (pvt.echocancel_tap_length v =? 0) then
    (if sig_is_digital (pvt.sig v) then
       do res <- hw K (DAHDI_AUDIOMODE (sub.dfd (psub v SUB_REAL)) 1);
       when (negb (res =? 0)) (ast_log LOG_WARNING "Unable to enable audio mode")
     else ret tt) ;;
    do res <- hw K (DAHDI_ECHOCANCEL_PARAMS (sub.dfd (psub v SUB_REAL))
                      (pvt.echocancel_tap_length v));
    if negb (res =? 0) then
      ast_log LOG_WARNING "Unable to enable echo cancellation"
    else wr p (pvt.set_echocanon true)
  else ret tt.

(** [dahdi_train_ec(p)] *)
Definition dahdi_train_ec (p : nat) : M unit :=
  do v <- rd p;
  if pvt.echocanon v && negb (pvt.echotraining v =? 0) then
    do res <- hw K (DAHDI_ECHOTRAIN (sub.dfd (psub v SUB_REAL)) (pvt.echotraining v));
    when (negb (res =? 0)) (ast_log LOG_WARNING "Unable to request echo training")
  else ret tt.

(** [dahdi_disable_ec(p)] *)
Definition dahdi_disable_ec (p : nat) : M unit :=
  do v <- rd p;
  (if pvt.echocanon v then
     do res <- hw K (DAHDI_ECHOCANCEL_PARAMS (sub.dfd (psub v SUB_REAL)) 0);
     when (negb (res =? 0)) (ast_log LOG_WARNING "Unable to disable echo cancellation")
   else ret tt) ;;
  wr p (pvt.set_echocanon false).

(** [ast_setstate(ast, state)] of the PBX core. *)
Definition ast_setstate (ast : nat) (s : ast_state) : M unit :=
  wrc ast (chn.set__state s).

(** [ast->tech_pvt] *)
Definition tech_pvt (ast : nat) : M nat :=
  do c <- rdc ast;
  match chn.tech_pvt c with
  | Some p => ret p
  | None => fun _ => None
  end.

(** [ast_copy_string(dst, src, 256)]: at most 255 characters. *)
Definition ast_copy_string_256 (src : string) : string := String.substring 0 255 src.

(** [dahdi_call(ast, rdest, timeout)], up to the dispatch on the
    signalling style. *)
Definition dahdi_call (ast : nat) (rdest : string) (timeout : Z) : M Z :=
  do p <- tech_pvt ast;
  wr p (pvt.set_dialdest (ast_copy_string_256 rdest)) ;;
  do c <- rdc ast;
  if ast_state_eqb (chn._state c) AST_STATE_BUSY then
    wr p (upd_sub SUB_REAL (sub.set_needbusy true)) ;;
    ret 0
  else if negb (ast_state_eqb (chn._state c) AST_STATE_DOWN) &&
          negb (ast_state_eqb (chn._state c) AST_STATE_RESERVED) then
    ast_log LOG_WARNING "dahdi_call called on channel, neither down nor reserved" ;;
    ret (-1)
  else
    wr p (pvt.set_dialednone false) ;;
    do v <- rd p;
    if negb (pvt.radio v =? 0) || (pvt.oprmode v <? 0) then
      (* Special pseudo -- automatically up *)
      ast_setstate ast AST_STATE_UP ;;
      ret 0
    else
      do res <- hw K (DAHDI_FLUSH (sub.dfd (psub v SUB_REAL))
                        (Z.lor (DAHDI_FLUSH_READ K) (DAHDI_FLUSH_WRITE K)));
      when (negb (res =? 0)) (ast_log LOG_WARNING "Unable to flush input on channel") ;;
      wr p (pvt.set_outgoing true) ;;
      emit (SetActualGain (sub.dfd (psub v SUB_REAL)) (pvt.law v)) ;;
      dial_by_signalling ast p.

(** The signalling styles of the analog arm of [dahdi_answer]. *)
Definition answer_analog_sig (s : signalling) : bool :=
  match s with
  | SIG_FXSLS | SIG_FXSGS | SIG_FXSKS
  | SIG_EM | SIG_EM_E1 | SIG_EMWINK | SIG_FEATD | SIG_FEATDMF | SIG_FEATDMF_TA
  | SIG_E911 | SIG_FGC_CAMA | SIG_FGC_CAMAMF | SIG_FEATB
  | SIG_SF | SIG_SFWINK | SIG_SF_FEATD | SIG_SF_FEATDMF | SIG_SF_FEATB
  | SIG_FXOLS | SIG_FXOGS | SIG_FXOKS => true
  | _ => false
  end.

(** [dahdi_answer(ast)] *)
Definition dahdi_answer (ast : nat) : M Z :=
  do p <- tech_pvt ast;
  do c <- rdc ast;
  let oldstate := chn._state c in
  ast_setstate ast AST_STATE_UP ;;
  do oi <- dahdi_get_index ast p false;
  let index := match oi with Some i => i | None => SUB_REAL end in
  do v <- rd p;
  (* nothing to do if a radio channel *)
  if negb (pvt.radio v =? 0) || (pvt.oprmode v <? 0) then ret 0
  else if answer_analog_sig (pvt.sig v) then
    when (match pvt.sig v with
          | SIG_FXSLS | SIG_FXSGS | SIG_FXSKS => true
          | _ => false
          end)
         (wr p (pvt.set_ringt 0)) ;;
    (* Pick up the line *)
    (do h <- history;
     when (pvt.hanguponpolarityswitch v)
          (wr p (pvt.set_polaritydelaytv (ast_tvnow K h)))) ;;
    do res <- dahdi_set_hook (sub.dfd (psub v SUB_REAL)) (DAHDI_OFFHOOK K);
    tone_zone_play_tone (sub.dfd (psub v index)) (-1) ;;
    wr p (pvt.set_dialing false) ;;
    do v <- rd p;
    (if subidx_eqb index SUB_REAL && sub.inthreeway (psub v SUB_THREEWAY) then
       if ast_state_eqb oldstate AST_STATE_RINGING then
         tone_zone_play_tone (sub.dfd (psub v SUB_THREEWAY)) (-1) ;;
         swap_subs p SUB_THREEWAY SUB_REAL ;;
         wr p (fun v => pvt.set_owner (sub.owner (psub v SUB_REAL)) v)
       else ret tt
     else ret tt) ;;
    when (sig_fxs K (pvt.sig v)) (dahdi_enable_ec p ;; dahdi_train_ec p) ;;
    ret res
  else
    match pvt.sig v with
    | SIG_BRI | SIG_BRI_PTMP | SIG_PRI | SIG_SS7 => answer_digital ast p
    | SIG_PSEUDO => ret 0
    | _ =>
        ast_log LOG_WARNING "Don't know how to answer signalling" ;;
        ret (-1)
    end.

End Lifecycle.

(** ** Signalling event state machine: hook events on FXO-signalled lines *)

(** The events of [dahdi_get_event] that are embedded; the rest are
    [DAHDI_EVENT_OTHER]. *)
Inductive dahdi_event : Type :=
| DAHDI_EVENT_ONHOOK
| DAHDI_EVENT_WINKFLASH
| DAHDI_EVENT_OTHER (res : Z).

(** The frame [dahdi_handle_event] prepares in [p->subs[index].f]. *)
Definition null_frame : ast_frame := mk_frame AST_FRAME_NULL SC_NONE.

Section Events.

Variable K : env.

(** Arms of [dahdi_handle_event] that are not embedded:
    - [onhook_oprmode p]: the operator-mode arm of the on-hook event;
    - [start_threeway ast p]: the flash with neither a call-waiting nor a
      three-way leg (from [if (!p->threewaycalling)] on);
    - [winkflash_other ast p mysig]: the flash on other signalling styles
      and in operator mode;
    - [other_event ast p index res]: every other event. *)
Variable onhook_oprmode : nat -> M unit.
Variable start_threeway : nat -> nat -> M unit.
Variable winkflash_other : nat -> nat -> signalling -> M (option ast_frame).
Variable other_event : nat -> nat -> subidx -> Z -> M (option ast_frame).

(** [p->subs[x].owner], which the source then dereferences. *)
Definition owner_of (p : nat) (x : subidx) : M nat :=
  do v <- rd p;
  match sub.owner (psub v x) with
  | Some o => do _ <- rdc o; ret o
  | None => fun _ => None
  end.

(** [ast_bridged_channel(c)] of the PBX core. *)
Definition ast_bridged_channel (c : nat) : M (option nat) :=
  do ch <- rdc c; ret (chn.bridged ch).

(** [c->_softhangup |= AST_SOFTHANGUP_DEV] *)
Definition softhangup_dev (c : nat) : M unit :=
  wrc c (fun ch => chn.set__softhangup (Z.lor (chn._softhangup ch) AST_SOFTHANGUP_DEV) ch).

Definition ast_queue_hangup (c : nat) : M unit := ast_queue c Q_HANGUP.
Definition ast_queue_control (c : nat) (ctl : ast_control) : M unit :=
  ast_queue c (Q_CONTROL ctl).

(** [ast_indicate(c, ctl)] of the PBX core. *)
Definition ast_indicate (c : nat) (ctl : ast_control) : M unit :=
  do _ <- rdc c; emit (AstIndicate c ctl).

(** The [do ... while (res)] of [dahdi_ring_phone]: the DAHDI_RING
    request, repeated as long as the kernel answers EBUSY or EINTR.  The
    kernel may do so for ever; [fuel] bounds the tries, and a run that
    uses them up has not ended ([None]). *)
Fixpoint ring_loop (fuel : nat) (dfd : Z) : M Z :=
  match fuel with
  | O => fun _ => None
  | S fuel' =>
      do h <- history;
      do res <- hw K (DAHDI_HOOK dfd (DAHDI_RING K));
      if negb (res =? 0) then
        let errno := ioctl_errno K h (DAHDI_HOOK dfd (DAHDI_RING K)) in
        if (errno =? EBUSY K) || (errno =? EINTR K) then
          (* Wait just in case *)
          ring_loop fuel' dfd
        else if errno =? EINPROGRESS K then ret 0
        else
          ast_log LOG_WARNING "Couldn't ring the phone" ;;
          ret 0
      else ret res
  end.

(** [dahdi_ring_phone(p)] *)
Definition dahdi_ring_phone (fuel : nat) (p : nat) : M Z :=
  do v <- rd p;
  (* Make sure our transmit state is on hook *)
  do _ <- hw K (DAHDI_HOOK (sub.dfd (psub v SUB_REAL)) (DAHDI_ONHOOK K));
  ring_loop fuel (sub.dfd (psub v SUB_REAL)).

(** [ast_channel_masquerade(original, clone)] *)
Definition masquerade (original clone : nat) : M Z :=
  do h <- history;
  emit (AstMasquerade original clone) ;;
  ret (ast_channel_masquerade K h original clone).

(** [attempt_transfer(p)] *)
Definition attempt_transfer (p : nat) : M Z :=
  do oreal <- owner_of p SUB_REAL;
  do breal <- ast_bridged_channel oreal;
  match breal with
  | Some br =>
      do o3 <- owner_of p SUB_THREEWAY;
      do b3 <- ast_bridged_channel o3;
      when (is_some b3) (ast_queue_control o3 AST_CONTROL_UNHOLD) ;;
      do creal <- rdc oreal;
      when (ast_state_eqb (chn._state creal) AST_STATE_RINGING)
           (ast_indicate br AST_CONTROL_RINGING) ;;
      do c3 <- rdc o3;
      do v <- rd p;
      when (ast_state_eqb (chn._state c3) AST_STATE_RING)
           (do _ <- tone_zone_play_tone K (sub.dfd (psub v SUB_THREEWAY))
                      (DAHDI_TONE_RINGTONE K); ret tt) ;;
      do r <- masquerade o3 br;
      if negb (r =? 0) then
        ast_log LOG_WARNING "Unable to masquerade" ;;
        ret (-1)
      else
        (* Orphan the channel after releasing the lock *)
        do _ <- unalloc_sub p SUB_THREEWAY;
        ret 0
  | None =>
      do o3 <- owner_of p SUB_THREEWAY;
      do b3 <- ast_bridged_channel o3;
      match b3 with
      | Some b =>
          ast_queue_control oreal AST_CONTROL_UNHOLD ;;
          do c3 <- rdc o3;
          when (ast_state_eqb (chn._state c3) AST_STATE_RINGING)
               (ast_indicate b AST_CONTROL_RINGING) ;;
          do creal <- rdc oreal;
          do v <- rd p;
          when (ast_state_eqb (chn._state creal) AST_STATE_RING)
               (do _ <- tone_zone_play_tone K (sub.dfd (psub v SUB_REAL))
                          (DAHDI_TONE_RINGTONE K); ret tt) ;;
          do r <- masquerade oreal b;
          if negb (r =? 0) then
            ast_log LOG_WARNING "Unable to masquerade" ;;
            ret (-1)
          else
            (* Three-way is now the REAL *)
            swap_subs p SUB_THREEWAY SUB_REAL ;;
            do _ <- unalloc_sub p SUB_THREEWAY;
            (* Tell the caller not to hangup *)
            ret 1
      | None =>
          softhangup_dev o3 ;;
          ret (-1)
      end
  end.

(** [unsigned int mssinceflash = ast_tvdiff_ms(ast_tvnow(), p->flashtime)] *)
Definition mssinceflash (now flashtime : timeval) : Z :=
  (ast_tvdiff_ms K now flashtime) mod 2 ^ 32.

(** How an arm of the event switch ends: [return NULL], or [break], after
    which the function returns [&p->subs[index].f]. *)
Inductive arm_end : Type := RETURN_NULL | BREAK.

(** The on-hook event with a three-way owner and no call-waiting owner:
    the [else if (p->subs[SUB_THREEWAY].owner)] block.  The source spins
    until it holds the lock of the three-way owner; the embedding is of
    the run in which it does at once. *)
Definition onhook_threeway (fuel : nat) (ast p : nat) : M arm_end :=
  do o3 <- owner_of p SUB_THREEWAY;
  do h <- history;
  do v <- rd p;
  if mssinceflash (ast_tvnow K h) (pvt.flashtime v) <? MIN_MS_SINCE_FLASH then
    (* It hasn't been long enough since the last flashook.  This is
       probably a bounce on hanging up.  Hangup both channels now *)
    ast_queue_hangup o3 ;;
    softhangup_dev o3 ;;
    ret RETURN_NULL
  else
    do c <- rdc ast;
    if chn.pbx c || ast_state_eqb (chn._state c) AST_STATE_UP then
      if pvt.transfer v then
        (* In any case this isn't a threeway call anymore *)
        wr p (upd_sub SUB_REAL (sub.set_inthreeway false)) ;;
        wr p (upd_sub SUB_THREEWAY (sub.set_inthreeway false)) ;;
        (* Only attempt transfer if the phone is ringing *)
        if negb (pvt.transfertobusy v) && ast_state_eqb (chn._state c) AST_STATE_BUSY then
          (* Swap subs and dis-own channel *)
          swap_subs p SUB_THREEWAY SUB_REAL ;;
          wr p (pvt.set_owner None) ;;
          (* Ring the phone *)
          do _ <- dahdi_ring_phone fuel p;
          ret RETURN_NULL
        else
          do res <- attempt_transfer p;
          if res <? 0 then
            do o3 <- owner_of p SUB_THREEWAY;
            softhangup_dev o3 ;;
            ret RETURN_NULL
          else if negb (res =? 0) then
            (* Don't actually hang up at this point *)
            ret BREAK
          else ret RETURN_NULL
      else
        softhangup_dev o3 ;;
        ret RETURN_NULL
    else
      (* Swap subs and dis-own channel *)
      swap_subs p SUB_THREEWAY SUB_REAL ;;
      wr p (pvt.set_owner None) ;;
      (* Ring the phone *)
      do _ <- dahdi_ring_phone fuel p;
      ret RETURN_NULL.

Definition sig_is_fxo (s : signalling) : bool :=
  match s with
  | SIG_FXOLS | SIG_FXOGS | SIG_FXOKS => true
  | _ => false
  end.

(** [case DAHDI_EVENT_ONHOOK:] of [dahdi_handle_event].  The result is
    the frame returned: [None] for NULL, which makes the reader hang up
    the leg [ast].  [time(NULL)] is the seconds of [ast_tvnow()];
    [fuel] is that of [dahdi_ring_phone]. *)
Definition handle_onhook (fuel : nat) (ast p : nat) (index : subidx)
  : M (option ast_frame) :=
  do v <- rd p;
  if negb (pvt.radio v =? 0) then
    ret (Some (mk_frame AST_FRAME_CONTROL (SC_CONTROL AST_CONTROL_RADIO_UNKEY)))
  else if pvt.oprmode v <? 0 then
    when (pvt.oprmode v =? -1) (onhook_oprmode p) ;;
    ret (Some null_frame)
  else if sig_is_fxo (pvt.sig v) then
    (do h <- history; wr p (pvt.set_onhooktime (tv_sec (ast_tvnow K h)))) ;;
    wr p (pvt.set_msgstate (-1)) ;;
    do e <-
      (* Check for some special conditions regarding call waiting *)
      match index with
      | SUB_REAL =>
          (* The normal line was hung up *)
          if is_some (sub.owner (psub v SUB_CALLWAIT)) then
            (* There's a call waiting call, so ring the phone, but make it
               unowned in the mean time *)
            swap_subs p SUB_CALLWAIT SUB_REAL ;;
            do _ <- unalloc_sub p SUB_CALLWAIT;
            wr p (pvt.set_callwaitingrepeat 0) ;;
            wr p (pvt.set_cidcwexpire 0) ;;
            wr p (pvt.set_owner None) ;;
            (* Don't start streaming audio yet if the incoming call isn't up yet *)
            do o <- owner_of p SUB_REAL;
            do c <- rdc o;
            when (negb (ast_state_eqb (chn._state c) AST_STATE_UP))
                 (wr p (pvt.set_dialing true)) ;;
            do _ <- dahdi_ring_phone fuel p;
            ret RETURN_NULL
          else if is_some (sub.owner (psub v SUB_THREEWAY)) then
            onhook_threeway fuel ast p
          else ret RETURN_NULL
      | _ =>
          ast_log LOG_WARNING "Got a hangup and my index is not real?" ;;
          ret RETURN_NULL
      end;
    match e with
    | BREAK => ret (Some null_frame)
    | RETURN_NULL =>
        (* Fall through *)
        dahdi_disable_ec K p ;;
        ret None
    end
  else
    dahdi_disable_ec K p ;;
    ret None.

(** The flash on an FXO-signalled line with a three-way owner and no
    call-waiting owner: the [else] block commented
    [Already have a 3 way call]. *)
Definition winkflash_threeway (ast p : nat) : M unit :=
  do v <- rd p;
  do c <- rdc ast;
  if sub.inthreeway (psub v SUB_THREEWAY) then
    (* Call is already up, drop the last person *)
    do oreal <- owner_of p SUB_REAL;
    do o3 <- owner_of p SUB_THREEWAY;
    do creal <- rdc oreal;
    do c3 <- rdc o3;
    (* If the primary call isn't answered yet, use it *)
    when (negb (ast_state_eqb (chn._state creal) AST_STATE_UP) &&
          ast_state_eqb (chn._state c3) AST_STATE_UP)
         (swap_subs p SUB_THREEWAY SUB_REAL ;;
          wr p (fun v => pvt.set_owner (sub.owner (psub v SUB_REAL)) v)) ;;
    (* Drop the last call and stop the conference *)
    do o3 <- owner_of p SUB_THREEWAY;
    softhangup_dev o3 ;;
    wr p (upd_sub SUB_REAL (sub.set_inthreeway false)) ;;
    wr p (upd_sub SUB_THREEWAY (sub.set_inthreeway false))
  else if (chn.pbx c || ast_state_eqb (chn._state c) AST_STATE_UP) &&
          (pvt.transfertobusy v || negb (ast_state_eqb (chn._state c) AST_STATE_BUSY)) then
    do o3 <- owner_of p SUB_THREEWAY;
    do _ <- ast_bridged_channel o3;
    (* Put them in the threeway, and flip *)
    wr p (upd_sub SUB_THREEWAY (sub.set_inthreeway true)) ;;
    wr p (upd_sub SUB_REAL (sub.set_inthreeway true)) ;;
    do otherindex <-
      (if ast_state_eqb (chn._state c) AST_STATE_UP then
         swap_subs p SUB_THREEWAY SUB_REAL ;;
         ret SUB_REAL
       else ret SUB_THREEWAY);
    do v <- rd p;
    match sub.owner (psub v otherindex) with
    | Some o =>
        do b <- ast_bridged_channel o;
        when (is_some b) (ast_queue_control o AST_CONTROL_UNHOLD)
    | None => ret tt
    end ;;
    wr p (upd_sub otherindex (sub.set_needunhold true)) ;;
    wr p (fun v => pvt.set_owner (sub.owner (psub v SUB_REAL)) v) ;;
    when (ast_state_eqb (chn._state c) AST_STATE_RINGING)
         (do _ <- tone_zone_play_tone K (sub.dfd (psub v SUB_REAL)) (DAHDI_TONE_RINGTONE K);
          do _ <- tone_zone_play_tone K (sub.dfd (psub v SUB_THREEWAY)) (DAHDI_TONE_RINGTONE K);
          ret tt)
  else
    (* Dumping incomplete call *)
    swap_subs p SUB_THREEWAY SUB_REAL ;;
    do o3 <- owner_of p SUB_THREEWAY;
    softhangup_dev o3 ;;
    wr p (fun v => pvt.set_owner (sub.owner (psub v SUB_REAL)) v) ;;
    do v <- rd p;
    match sub.owner (psub v SUB_REAL) with
    | Some o =>
        do b <- ast_bridged_channel o;
        when (is_some b) (ast_queue_control o AST_CONTROL_UNHOLD)
    | None => ret tt
    end ;;
    wr p (upd_sub SUB_REAL (sub.set_needunhold true)) ;;
    dahdi_enable_ec K p.

(** The flash with a call-waiting owner: [Swap to call-wait]. *)
Definition winkflash_callwait (p : nat) : M unit :=
  swap_subs p SUB_REAL SUB_CALLWAIT ;;
  do v <- rd p;
  do _ <- tone_zone_play_tone K (sub.dfd (psub v SUB_REAL)) (-1);
  wr p (fun v => pvt.set_owner (sub.owner (psub v SUB_REAL)) v) ;;
  do o <- owner_of p SUB_REAL;
  do c <- rdc o;
  when (ast_state_eqb (chn._state c) AST_STATE_RINGING)
       (ast_setstate o AST_STATE_UP ;;
        wr p (upd_sub SUB_REAL (sub.set_needanswer true))) ;;
  wr p (pvt.set_callwaitingrepeat 0) ;;
  wr p (pvt.set_cidcwexpire 0) ;;
  (* Start music on hold if appropriate *)
  do v <- rd p;
  (if negb (sub.inthreeway (psub v SUB_CALLWAIT)) then
     do ocw <- owner_of p SUB_CALLWAIT;
     do bcw <- ast_bridged_channel ocw;
     when (is_some bcw) (ast_queue_control ocw AST_CONTROL_HOLD)
   else ret tt) ;;
  wr p (upd_sub SUB_CALLWAIT (sub.set_needhold true)) ;;
  do b <- ast_bridged_channel o;
  when (is_some b) (ast_queue_control o AST_CONTROL_HOLD) ;;
  wr p (upd_sub SUB_REAL (sub.set_needunhold true)).

(** [case DAHDI_EVENT_WINKFLASH:] of [dahdi_handle_event]; [mysig] is
    [p->outsigmod] when set, [p->sig] otherwise. *)
Definition handle_winkflash (ast p : nat) (index : subidx) (mysig : signalling)
  : M (option ast_frame) :=
  do v <- rd p;
  if pvt.inalarm v then ret (Some null_frame)
  else if negb (pvt.radio v =? 0) then ret (Some null_frame)
  else if pvt.oprmode v <? 0 then ret (Some null_frame)
  else if 1 <? pvt.oprmode v then winkflash_other ast p mysig
  else
    (* Remember last time we got a flash-hook *)
    (do h <- history; wr p (pvt.set_flashtime (ast_tvnow K h))) ;;
    if sig_is_fxo mysig then
      wr p (pvt.set_callwaitcas 0) ;;
      match index with
      | SUB_REAL =>
          if is_some (sub.owner (psub v SUB_CALLWAIT)) then winkflash_callwait p
          else if negb (is_some (sub.owner (psub v SUB_THREEWAY))) then start_threeway ast p
          else winkflash_threeway ast p
      | _ => ast_log LOG_WARNING "Got flash hook with index not real?!?"
      end ;;
      (* winkflashdone: *)
      do _ <- update_conf K p;
      ret (Some null_frame)
    else winkflash_other ast p mysig.

(** [dahdi_handle_event(ast)], [res] being the event [dahdi_get_event]
    delivers (or the pending [fake_event]); [fuel] is that of
    [dahdi_ring_phone]. *)
Definition dahdi_handle_event (fuel : nat) (ast : nat) (res : dahdi_event)
  : M (option ast_frame) :=
  do p <- tech_pvt ast;
  do oi <- dahdi_get_index ast p false;
  do v <- rd p;
  let mysig := match pvt.outsigmod v with Some s => s | None => pvt.sig v end in
  match oi with
  | None => ret (Some null_frame)
  | Some index =>
      match res with
      | DAHDI_EVENT_ONHOOK => handle_onhook fuel ast p index
      | DAHDI_EVENT_WINKFLASH => handle_winkflash ast p index mysig
      | DAHDI_EVENT_OTHER r => other_event ast p index r
      end
  end.

End Events.

(** ** Native bridge engine: the polling loop of [dahdi_bridge] *)

Inductive ast_bridge_result : Type :=
| AST_BRIDGE_COMPLETE | AST_BRIDGE_FAILED | AST_BRIDGE_FAILED_NOWARN
| AST_BRIDGE_RETRY.

(** What [dahdi_bridge] remembers of both legs before it enters the
    loop; [os0], [os1] are [None] for -1. *)
Record bridge_saved : Type := mk_saved {
  c0 : nat; c1 : nat;
  op0 : nat; op1 : nat;
  ofd0 : Z; ofd1 : Z;
  oc0 : option nat; oc1 : option nat;
  os0 : option ast_state; os1 : option ast_state;
  t0 : bool; t1 : bool;
  oi0 : subidx; oi1 : subidx
}.

(** What changes from one turn of the loop to the next. *)
Record bridge_vars : Type := mk_vars {
  i0 : option subidx; i1 : option subidx;
  priority : bool;
  timeoutms : Z
}.

(** What the PBX core delivers in one turn: the leg [ast_waitfor_n]
    names (NULL for none) with the time left, and the frame [ast_read]
    then gives (NULL on hangup). *)
Record bridge_input : Type := mk_input {
  who : option nat;
  timeleft : Z;
  frame : option ast_frame
}.

(** [res], [*fo] and [*rc] at [return_from_bridge]. *)
Record bridge_return : Type := mk_return {
  res : ast_bridge_result;
  fo : option ast_frame;
  rc : option nat
}.

Inductive bridge_turn : Type :=
| CONTINUE (vars : bridge_vars)
| RETURN (r : bridge_return).

Definition opt_subidx_eqb (a : subidx) (b : option subidx) : bool :=
  match b with Some x => subidx_eqb a x | None => false end.

(** The re-validation at the head of the loop: [true] when something
    changed under the bridge.  [||] evaluates left to right and stops at
    the first true operand, so the lines are read only when both legs
    still run on them. *)
Definition something_changed (s : bridge_saved) (v : bridge_vars) : M bool :=
  do ch0 <- rdc (c0 s);
  do ch1 <- rdc (c1 s);
  if (timeoutms v =? 0)
     || negb (opt_nat_eqb (Some (op0 s)) (chn.tech_pvt ch0))
     || negb (opt_nat_eqb (Some (op1 s)) (chn.tech_pvt ch1))
     || negb (ofd0 s =? chn.fds0 ch0)
     || negb (ofd1 s =? chn.fds0 ch1) then ret true
  else
    do p0 <- rd (op0 s);
    do p1 <- rd (op1 s);
    do r0 <- match sub.owner (psub p0 SUB_REAL), os0 s with
             | Some o, Some st => do c <- rdc o; ret (negb (ast_state_eqb st (chn._state c)))
             | _, _ => ret false
             end;
    if r0 then ret true
    else
      do r1 <- match sub.owner (psub p1 SUB_REAL), os1 s with
               | Some o, Some st => do c <- rdc o; ret (negb (ast_state_eqb st (chn._state c)))
               | _, _ => ret false
               end;
      ret (r1
           || negb (opt_nat_eqb (oc0 s) (pvt.owner p0))
           || negb (opt_nat_eqb (oc1 s) (pvt.owner p1))
           || negb (Bool.eqb (t0 s) (sub.inthreeway (psub p0 SUB_REAL)))
           || negb (Bool.eqb (t1 s) (sub.inthreeway (psub p1 SUB_REAL)))
           || negb (opt_subidx_eqb (oi0 s) (i0 v))
           || negb (opt_subidx_eqb (oi1 s) (i1 v))).

(** The head of a turn: refresh [i0], [i1] and re-validate; [None] when
    something changed and the bridge is to be retried. *)
Definition bridge_validate (s : bridge_saved) (v : bridge_vars) : M (option bridge_vars) :=
  do ch0 <- rdc (c0 s);
  do ch1 <- rdc (c1 s);
  do i0' <- (if opt_nat_eqb (Some (op0 s)) (chn.tech_pvt ch0)
             then dahdi_get_index (c0 s) (op0 s) true else ret (i0 v));
  do i1' <- (if opt_nat_eqb (Some (op1 s)) (chn.tech_pvt ch1)
             then dahdi_get_index (c1 s) (op1 s) true else ret (i1 v));
  let v := mk_vars i0' i1' (priority v) (timeoutms v) in
  do changed <- something_changed s v;
  if changed then ret None else ret (Some v).

(** The rest of the turn, from [who = ast_waitfor_n(...)] on. *)
Definition bridge_deliver (s : bridge_saved) (v : bridge_vars) (inp : bridge_input)
  : M bridge_turn :=
  (* who = ast_waitfor_n(..., &timeoutms) *)
  let v := mk_vars (i0 v) (i1 v) (priority v) (timeleft inp) in
  let swapped_priority := mk_vars (i0 v) (i1 v) (negb (priority v)) (timeleft inp) in
  match who inp with
  | None => ret (CONTINUE v)      (* Ooh, empty read... *)
  | Some w =>
      (* f = ast_read(who) *)
      match frame inp with
      | None => ret (RETURN (mk_return AST_BRIDGE_COMPLETE None (Some w)))
      | Some f =>
          match frametype f with
          | AST_FRAME_CONTROL =>
              ret (RETURN (mk_return AST_BRIDGE_COMPLETE (Some f) (Some w)))
          | AST_FRAME_DTMF =>
              do p0 <- rd (op0 s);
              do p1 <- rd (op1 s);
              if Nat.eqb w (c0 s) && pvt.pulsedial p0 then
                emit (AstWrite (c1 s) f) ;;
                ret (CONTINUE swapped_priority)
              else if Nat.eqb w (c1 s) && pvt.pulsedial p1 then
                emit (AstWrite (c0 s) f) ;;
                ret (CONTINUE swapped_priority)
              else
                ret (RETURN (mk_return AST_BRIDGE_COMPLETE (Some f) (Some w)))
          | _ =>
              (* Swap who gets priority *)
              ret (CONTINUE swapped_priority)
          end
      end
  end.

(** One turn of [for (;;)] in [dahdi_bridge]. *)
Definition bridge_step (s : bridge_saved) (v : bridge_vars) (inp : bridge_input)
  : M bridge_turn :=
  do ov <- bridge_validate s v;
  match ov with
  | None => ret (RETURN (mk_return AST_BRIDGE_RETRY None None))
  | Some v' => bridge_deliver s v' inp
  end.

(** The loop, fed the turns the PBX core delivers; [None] when the turns
    run out with the bridge still up. *)
Fixpoint bridge_loop (s : bridge_saved) (v : bridge_vars) (inputs : list bridge_input)
  : M (option bridge_return) :=
  match inputs with
  | [] => ret None
  | inp :: rest =>
      do t <- bridge_step s v inp;
      match t with
      | RETURN r => ret (Some r)
      | CONTINUE v' => bridge_loop s v' rest
      end
  end.

(** ** More of the file: helpers on digits and numbers *)

Section Tones.

(** The tone numbers of [dahdi/tonezone.h], which is not part of the
    file. *)
Variable DAHDI_TONE_DTMF_BASE : Z.
Variable DAHDI_TONE_DTMF_A : Z.
Variable DAHDI_TONE_DTMF_s : Z.
Variable DAHDI_TONE_DTMF_p : Z.

(** [isdigit(c)] in the C locale. *)
Definition isdigit (c : Z) : bool := (48 <=? c) && (c <=? 57).

(** [digit_to_dtmfindex(digit)]; a [char] is its code. *)
Definition digit_to_dtmfindex (digit : Z) : Z :=
  if isdigit digit then DAHDI_TONE_DTMF_BASE + (digit - 48)
  else if (65 <=? digit) && (digit <=? 68) then DAHDI_TONE_DTMF_A + (digit - 65)
  else if (97 <=? digit) && (digit <=? 100) then DAHDI_TONE_DTMF_A + (digit - 97)
  else if digit =? 42 then DAHDI_TONE_DTMF_s
  else if digit =? 35 then DAHDI_TONE_DTMF_p
  else -1.

End Tones.

(** [cid_pres2ss7pres(cid_pres)] and [cid_pres2ss7screen(cid_pres)]; the
    result is an [unsigned char]. *)
Definition cid_pres2ss7pres (cid_pres : Z) : Z :=
  (Z.land (Z.shiftr cid_pres 5) 3) mod 256.

Definition cid_pres2ss7screen (cid_pres : Z) : Z :=
  (Z.land cid_pres 3) mod 256.

(** The nature-of-address indicators [SS7_NAI_*] of libss7. *)
Inductive ss7_nai : Type :=
| SS7_NAI_SUBSCRIBER | SS7_NAI_UNKNOWN | SS7_NAI_NATIONAL
| SS7_NAI_INTERNATIONAL | SS7_NAI_NETWORKROUTED.

(** The prefixes of [struct dahdi_ss7] that [ss7_parse_prefix] reads. *)
Record ss7_prefixes : Type := mk_ss7_prefixes {
  internationalprefix : string;
  nationalprefix : string;
  subscriberprefix : string;
  unknownprefix : string;
  networkroutedprefix : string
}.

(** [strncmp(number, pre, strlen(pre)) == 0] *)
Definition strncmp_prefix (number pre : string) : bool := String.prefix pre number.

(** [ss7_parse_prefix(p, number, &nai)]: the count to strip, and [*nai]. *)
Definition ss7_parse_prefix (ss7 : ss7_prefixes) (number : string) : Z * ss7_nai :=
  if strncmp_prefix number (internationalprefix ss7) then
    (Z.of_nat (String.length (internationalprefix ss7)), SS7_NAI_INTERNATIONAL)
  else if strncmp_prefix number (nationalprefix ss7) then
    (Z.of_nat (String.length (nationalprefix ss7)), SS7_NAI_NATIONAL)
  else if strncmp_prefix number (networkroutedprefix ss7) then
    (Z.of_nat (String.length (networkroutedprefix ss7)), SS7_NAI_NETWORKROUTED)
  else if strncmp_prefix number (unknownprefix ss7) then
    (Z.of_nat (String.length (unknownprefix ss7)), SS7_NAI_UNKNOWN)
  else if strncmp_prefix number (subscriberprefix ss7) then
    (Z.of_nat (String.length (subscriberprefix ss7)), SS7_NAI_SUBSCRIBER)
  else (0, SS7_NAI_SUBSCRIBER).
(** ** More of the file: taking a line out of a bridge *)

Section Unlink.

Variable K : env.

(** One turn of the first loop of [dahdi_unlink]: slot [x] of the
    master, then the [if (!hasslaves)] that sits inside the loop. *)
Definition unlink_slot (slave : option nat) (master : nat) (x : slaveidx)
    (hasslaves : bool) : M bool :=
  do vm <- rd master;
  do hasslaves <-
    match get_slave (pvt.slaves vm) x with
    | Some sx =>
        if negb (is_some slave) || opt_nat_eqb (Some sx) slave then
          (* Take slave out of the conference *)
          do _ <- conf_del K master (sx, SUB_REAL) SUB_REAL;
          do _ <- conf_del K sx (master, SUB_REAL) SUB_REAL;
          wr sx (pvt.set_master None) ;;
          wr master (fun v => pvt.set_slaves (put_slave x None (pvt.slaves v)) v) ;;
          ret hasslaves
        else ret true
    | None => ret hasslaves
    end;
  when (negb hasslaves) (wr master (pvt.set_inconference 0)) ;;
  ret hasslaves.

(** One turn of the second loop, over the slots of the master's own
    master [mm]. *)
Definition unlink_from_master_slot (mm master : nat) (x : slaveidx)
    (hasslaves : bool) : M bool :=
  do vmm <- rd mm;
  if opt_nat_eqb (get_slave (pvt.slaves vmm) x) (Some master) then
    wr mm (fun v => pvt.set_slaves (put_slave x None (pvt.slaves v)) v) ;;
    ret hasslaves
  else if is_some (get_slave (pvt.slaves vmm) x) then ret true
  else ret hasslaves.

(** [dahdi_unlink(slave, master, needlock)]; the locks that [needlock]
    asks for are outside the embedding. *)
Definition dahdi_unlink (slave master : option nat) (needlock : bool) : M unit :=
  match master with
  | None => ret tt
  | Some m =>
      do _ <- foldM (unlink_slot slave m) all_slaves false;
      match slave with
      | None =>
          do vm <- rd m;
          match pvt.master vm with
          | Some mm =>
              (* Take master out of the conference *)
              do _ <- conf_del K mm (m, SUB_REAL) SUB_REAL;
              do _ <- conf_del K m (mm, SUB_REAL) SUB_REAL;
              do hasslaves <- foldM (unlink_from_master_slot mm m) all_slaves false;
              when (negb hasslaves) (wr mm (pvt.set_inconference 0))
          | None => ret tt
          end ;;
          wr m (pvt.set_master None)
      | Some _ => ret tt
      end ;;
      do _ <- update_conf K m;
      ret tt
  end.

End Unlink.


(** ** A concrete outside and concrete lines

    Used to run the embedded code on explicit states. *)

(** The constants of [dahdi/user.h] and a kernel that accepts every
    request and hands out a fresh conference number when asked for
    conference -1. *)
Definition dahdi_linux : env :=
  mk_env
    4 8 9 256 512 1024 2048      (* CONF REALANDPSEUDO DIGITALMON LISTENER TALKER PSEUDO_LISTENER PSEUDO_TALKER *)
    0 1 5 2 1 2                  (* ONHOOK OFFHOOK RING TONE_RINGTONE FLUSH_READ FLUSH_WRITE *)
    115 16 4                     (* EINPROGRESS EBUSY EINTR *)
    (fun _ _ => 0)
    (fun _ _ => 0)
    (fun h _ zi =>
       if conf.confno zi =? -1
       then conf.mk (conf.chan zi) (Z.of_nat (length h) + 1) (conf.confmode zi)
       else zi)
    (fun s =>
       match s with
       | SIG_FXSLS | SIG_FXSGS | SIG_FXSKS | SIG_GR303FXSKS => true
       | _ => false
       end)
    (fun h => mk_timeval (Z.of_nat (length h)) 0)
    (fun e s => (tv_sec e - tv_sec s) * 1000 + (tv_usec e - tv_usec s) / 1000)
    (fun _ _ _ => 0).

Definition tv0 : timeval := mk_timeval 0 0.

(** A sub-channel that is not allocated, and one open on [dfd] for the
    leg [o]. *)
Definition sub_free : sub.t :=
  sub.mk (-1) None 0 false false false false false false false false false false conf_zero.

Definition sub_open (dfd : Z) (o : option nat) : sub.t :=
  sub.mk dfd o 0 false false false false false false false false false false conf_zero.

(** An idle line on channel [ch] with its Real sub-channel [real]. *)
Definition line (s : signalling) (ch law : Z) (real : sub.t) : pvt.t :=
  pvt.mk None (mk_subs real sub_free sub_free) (mk_slaves None None None None) None 0
    s 0 None 0 ch (-1) law None POLARITY_IDLE
    false false false false false false false false false false false 0 0
    0 0 0 0 0 0 tv0 tv0 ""%string.

(** A call leg in state [s] on line [p], reading from [fd]. *)
Definition leg (s : ast_state) (fd : Z) (p : nat) : chn.t :=
  chn.mk s fd 0 true (Some p) None [].

Definition with_threeway (s3 : sub.t) (v : pvt.t) : pvt.t :=
  pvt.set_subs (put_sub SUB_THREEWAY s3 (pvt.subs v)) v.

(** Line 1 (mu-law) is master of line 2 (A-law) and is to sit in its own
    conference; both Real sub-channels are open; nothing is programmed
    yet.  This is what [dahdi_bridge] sets up for two Real legs. *)
Definition world_bridged : world :=
  mk_world
    (<[1%nat := pvt.set_inconference 1
                  (pvt.set_slaves (mk_slaves (Some 2%nat) None None None)
                     (line SIG_FXOKS 1 1 (sub_open 10 (Some 100%nat))))]>
       (<[2%nat := pvt.set_master (Some 1%nat)
                     (line SIG_FXOKS 2 2 (sub_open 20 (Some 200%nat)))]> ∅))
    (<[100%nat := leg AST_STATE_UP 10 1]> (<[200%nat := leg AST_STATE_UP 20 2]> ∅))
    [].

(** A kewlstart line with a held call on its three-way sub-channel: leg
    100 is the active call on Real, leg 300 the party on ThreeWay; the
    last flash was at time 0. *)
Definition line_flash : pvt.t :=
  pvt.set_owner (Some 100%nat)
    (with_threeway (sub.set_chan 7 (sub_open 30 (Some 300%nat)))
       (line SIG_FXOKS 1 1 (sub_open 10 (Some 100%nat)))).

Definition world_flash : world :=
  mk_world
    (<[1%nat := line_flash]> ∅)
    (<[100%nat := leg AST_STATE_UP 10 1]> (<[300%nat := leg AST_STATE_UP 30 1]> ∅))
    [].

(** Leg 100 on line 1, the far end already known to be busy. *)
Definition world_busy : world :=
  mk_world
    (<[1%nat := pvt.set_owner (Some 100%nat)
                  (line SIG_FXSKS 1 1 (sub_open 10 (Some 100%nat)))]> ∅)
    (<[100%nat := leg AST_STATE_BUSY 10 1]> ∅)
    [].

(** The same leg, already up. *)
Definition world_up : world :=
  mk_world
    (<[1%nat := pvt.set_owner (Some 100%nat)
                  (line SIG_FXSKS 1 1 (sub_open 10 (Some 100%nat)))]> ∅)
    (<[100%nat := leg AST_STATE_UP 10 1]> ∅)
    [].

(** A stand-in for the dial routines: it dials, and says so. *)
Definition dial_stub (ast p : nat) : M Z :=
  bind (wr p (pvt.set_dialing true)) (fun _ => ret 0).

(** Line 1 with all four slave slots taken, by lines 2 to 5, and a free
    line 6. *)
Definition line_full : pvt.t :=
  pvt.set_slaves (mk_slaves (Some 2%nat) (Some 3%nat) (Some 4%nat) (Some 5%nat))
    (line SIG_FXOKS 1 1 (sub_open 10 None)).

Definition slave_of_1 (ch : Z) : pvt.t :=
  pvt.set_master (Some 1%nat) (line SIG_FXOKS ch 1 (sub_open (10 * ch) None)).

Definition world_full : world :=
  mk_world
    (<[1%nat := line_full]>
       (<[2%nat := slave_of_1 2]>
          (<[3%nat := slave_of_1 3]>
             (<[4%nat := slave_of_1 4]>
                (<[5%nat := slave_of_1 5]>
                   (<[6%nat := line SIG_FXOKS 6 1 (sub_open 60 None)]> ∅))))))
    ∅ [].

(** Line 2, mu-law, a slave of line 1. *)
Definition line_slave : pvt.t :=
  pvt.set_master (Some 1%nat) (line SIG_FXOKS 2 1 (sub_open 20 (Some 200%nat))).

(** Line 1 as master of line 2, same law, nothing in a three-way
    call. *)
Definition line_master : pvt.t :=
  pvt.set_slaves (mk_slaves (Some 2%nat) None None None)
    (line SIG_FXOKS 1 1 (sub_open 10 (Some 100%nat))).

Definition world_native : world :=
  mk_world (<[1%nat := line_master]> (<[2%nat := line_slave]> ∅)) ∅ [].

(** Two Real legs bridged: leg 100 on line 1, leg 200 on line 2, as
    [dahdi_bridge] has saved them on entry to its loop. *)
Definition world_talking : world :=
  mk_world
    (<[1%nat := pvt.set_owner (Some 100%nat) (line SIG_FXOKS 1 1 (sub_open 10 (Some 100%nat)))]>
       (<[2%nat := pvt.set_owner (Some 200%nat)
                     (line SIG_FXOKS 2 1 (sub_open 20 (Some 200%nat)))]> ∅))
    (<[100%nat := leg AST_STATE_UP 10 1]> (<[200%nat := leg AST_STATE_UP 20 2]> ∅))
    [].

Definition saved_talking : bridge_saved :=
  mk_saved 100 200 1 2 10 20 (Some 100%nat) (Some 200%nat) None None false false
    SUB_REAL SUB_REAL.

Definition vars_start : bridge_vars := mk_vars None None false 1000.

Definition dtmf_5 : ast_frame := mk_frame AST_FRAME_DTMF (SC_DIGIT 53).

(** A kewlstart line in a three-way call that is being set up: leg 100,
    still Ringing, owns Real; leg 300 owns ThreeWay; both sub-channels
    are flagged in-three-way. *)
Definition line_ringing : pvt.t :=
  pvt.set_owner (Some 100%nat)
    (with_threeway (sub.set_inthreeway true (sub.set_chan 7 (sub_open 30 (Some 300%nat))))
       (line SIG_FXOKS 1 1 (sub.set_inthreeway true (sub_open 10 (Some 100%nat))))).

Definition world_ringing : world :=
  mk_world
    (<[1%nat := line_ringing]> ∅)
    (<[100%nat := leg AST_STATE_RINGING 10 1]> (<[300%nat := leg AST_STATE_UP 30 1]> ∅))
    [].

(** Stand-ins for the arms of [dahdi_handle_event] that are not
    embedded; none of them is reached on the example states. *)
Definition arm_unit (p : nat) : M unit := ret tt.
Definition arm_threeway (ast p : nat) : M unit := ret tt.
Definition arm_winkflash (ast p : nat) (mysig : signalling) : M (option ast_frame) :=
  ret (Some null_frame).
Definition arm_other (ast p : nat) (index : subidx) (res : Z) : M (option ast_frame) :=
  ret (Some null_frame).

(** [dahdi_handle_event] on the concrete outside, which accepts a ring
    request at the first try. *)
Definition handle_event_linux : nat -> dahdi_event -> M (option ast_frame) :=
  dahdi_handle_event dahdi_linux arm_unit arm_threeway arm_winkflash arm_other 1.

(** ** Vocabulary of the statements *)

#[global] Instance slaveidx_eq_dec : EqDecision slaveidx.
Proof. solve_decision. Defined.

#[global] Instance subidx_eq_dec : EqDecision subidx.
Proof. solve_decision. Defined.

Ltac destruct_line v :=
  destruct v;
  repeat match goal with
         | x : subs_t |- _ => destruct x
         | x : sub.t |- _ => destruct x
         end.

(** What [swap_subs] leaves in the line: the six assignments. *)
Definition swapped (a b : subidx) (v : pvt.t) : pvt.t :=
  let tchan := sub.chan (psub v a) in
  let towner := sub.owner (psub v a) in
  let tinthreeway := sub.inthreeway (psub v a) in
  let v := upd_sub a (sub.set_chan (sub.chan (psub v b))) v in
  let v := upd_sub a (sub.set_owner (sub.owner (psub v b))) v in
  let v := upd_sub a (sub.set_inthreeway (sub.inthreeway (psub v b))) v in
  let v := upd_sub b (sub.set_chan tchan) v in
  let v := upd_sub b (sub.set_owner towner) v in
  upd_sub b (sub.set_inthreeway tinthreeway) v.

(** What it does for a leg that owns a role afterwards. *)
Definition on_leg (o : option nat) (f : chn.t -> chn.t) (cs : gmap nat chn.t)
  : gmap nat chn.t :=
  match o with Some c => alter f c cs | None => cs end.

Definition queue_null (ch : chn.t) : chn.t :=
  chn.set_readq (chn.readq ch ++ [Q_NULL_FRAME]) ch.

Definition legs_swapped (a b : subidx) (v : pvt.t) (cs : gmap nat chn.t)
  : gmap nat chn.t :=
  let oa := sub.owner (psub v b) in     (* the owner of a after the swap *)
  let ob := sub.owner (psub v a) in
  on_leg ob queue_null
    (on_leg oa queue_null
       (on_leg ob (chn.set_fds0 (sub.dfd (psub v b)))
          (on_leg oa (chn.set_fds0 (sub.dfd (psub v a))) cs))).

(** Every leg that owns a role of the line is a leg of the world. *)
Definition owners_known (v : pvt.t) (w : world) : Prop :=
  forall x o, sub.owner (psub v x) = Some o -> is_Some (chans w !! o).


(** A sub-channel with the three fields [swap_subs] exchanges blanked
    out: two sub-channels agree on every other field when these agree. *)
Definition sub_rest (s : sub.t) : sub.t :=
  sub.set_owner None (sub.set_chan 0 (sub.set_inthreeway false s)).

(** In how many slots of a slave array the line [s] sits. *)
Definition slots_of (s : nat) (sl : slaves_t) : nat :=
  length (filter (fun o => o = Some s) (slaves_list sl)).

(** The slot [dahdi_link] writes: the first free one, the last one when
    none is free. *)
Definition link_slot (sl : slaves_t) : slaveidx :=
  match first_free_slave sl with Some x => x | None => SLAVE3 end.


(** The line [s] is the one slave of a master: it sits in one slot and
    the other slots are empty. *)
Definition one_slave (sl : slaves_t) (s : nat) : Prop :=
  exists x, get_slave sl x = Some s /\ forall y, y <> x -> get_slave sl y = None.

(** Slave-native mode in the words of the specification: no sub-channel
    of the master [v] is flagged in-three-way, [s] is its one slave, and
    the companding laws agree. *)
Definition spec_slave_native (v vs : pvt.t) (s : nat) : Prop :=
  (forall x, sub.inthreeway (psub v x) = false) /\
  one_slave (pvt.slaves v) s /\
  pvt.law vs = pvt.law v.

(** The same with the guard of the code: only an allocated sub-channel
    ([dfd > -1]) counts as in-three-way. *)
Definition code_slave_native (v vs : pvt.t) (s : nat) : Prop :=
  (forall x, -1 < sub.dfd (psub v x) -> sub.inthreeway (psub v x) = false) /\
  one_slave (pvt.slaves v) s /\
  pvt.law vs = pvt.law v.

(** Whether the leg [wh] that delivered a frame runs on a line that
    dials by pulses, as the loop tests it. *)
Definition leg_pulsedial (s : bridge_saved) (p0 p1 : pvt.t) (wh : nat) : bool :=
  (Nat.eqb wh (c0 s) && pvt.pulsedial p0) || (Nat.eqb wh (c1 s) && pvt.pulsedial p1).

(** The leg on the other side of the bridge. *)
Definition other_leg (s : bridge_saved) (p0 : pvt.t) (wh : nat) : nat :=
  if Nat.eqb wh (c0 s) && pvt.pulsedial p0 then c1 s else c0 s.

(** A run of [m] from any world in [P] ends, in a world in [Q]. *)
Definition triple {A} (P : world -> Prop) (m : M A) (Q : A -> world -> Prop) : Prop :=
  forall w, P w -> exists a w', m w = Some (a, w') /\ Q a w'.

(** The call legs are [cs] and the line [p] satisfies [P]. *)
Definition inv (p : nat) (P : pvt.t -> Prop) (cs : gmap nat chn.t) (w : world) : Prop :=
  chans w = cs /\ exists v, pvts w !! p = Some v /\ P v.

(** What the steps of [dahdi_answer] before the swap keep of the line. *)
Definition answer_keeps (v v' : pvt.t) : Prop :=
  pvt.subs v' = pvt.subs v /\ pvt.sig v' = pvt.sig v /\
  pvt.radio v' = pvt.radio v /\ pvt.oprmode v' = pvt.oprmode v /\
  pvt.hanguponpolarityswitch v' = pvt.hanguponpolarityswitch v.

(** What holds of the line after the swap and the new owner. *)
Definition answer_swapped (v v' : pvt.t) : Prop :=
  pvt.subs v' = pvt.subs (swapped SUB_THREEWAY SUB_REAL v) /\
  pvt.owner v' = sub.owner (psub v' SUB_REAL).

(** The world [w] with the last flash of line [p] moved to the time
    [ft]. *)
Definition flashed_at (p : nat) (ft : timeval) (w : world) : world :=
  mk_world (alter (pvt.set_flashtime ft) p (pvts w)) (chans w) (trace w).

(** ** Vocabulary of the further statements *)

(** The line after [unalloc_sub] of a role other than Real: the seven
    assignments. *)
Definition released (x : subidx) (v : pvt.t) : pvt.t :=
  upd_sub x (sub.set_curconf conf_zero)
    (pvt.set_polarity POLARITY_IDLE
       (upd_sub x (sub.set_inthreeway false)
          (upd_sub x (sub.set_owner None)
             (upd_sub x (sub.set_chan 0)
                (upd_sub x (sub.set_linear false)
                   (upd_sub x (sub.set_dfd (-1)) v)))))).

(** The eight pending-notification flags of a sub-channel. *)
Definition need_flags (s : sub.t) : list bool :=
  [sub.needringing s; sub.needbusy s; sub.needcongestion s; sub.needcallerid s;
   sub.needanswer s; sub.needflash s; sub.needhold s; sub.needunhold s].

(** The world a run ends in; the world it started in when it fails. *)
Definition world_after {A} (m : M A) (w : world) : world :=
  match m w with Some (_, w') => w' | None => w end.

(** What [dahdi_answer] keeps of the line when it does not swap. *)
Definition answer_plain (v v' : pvt.t) : Prop :=
  answer_keeps v v' /\ pvt.owner v' = pvt.owner v.

(** A turn of the bridge loop that leaves the bridge up and time on the
    clock: nothing was ready, or the frame read is neither a control nor
    a DTMF frame. *)
Definition quiet_turn (inp : bridge_input) : bool :=
  negb (timeleft inp =? 0) &&
  match who inp with
  | None => true
  | Some _ =>
      match frame inp with
      | Some f =>
          match frametype f with
          | AST_FRAME_CONTROL | AST_FRAME_DTMF => false
          | _ => true
          end
      | None => false
      end
  end.

(** A turn that ends the bridge: a leg hung up (the read gives NULL) or
    delivered a control frame. *)
Definition final_turn (inp : bridge_input) : bool :=
  match who inp with
  | None => false
  | Some _ =>
      match frame inp with
      | Some f =>
          match frametype f with
          | AST_FRAME_CONTROL => true
          | _ => false
          end
      | None => true
      end
  end.

(** A line with its conference number and the conference records of its
    sub-channels blanked out: two lines agree on every other field when
    these agree. *)
Definition erase_conf (v : pvt.t) : pvt.t :=
  pvt.set_confno 0
    (pvt.set_subs
       (mk_subs (sub.set_curconf conf_zero (psub v SUB_REAL))
                (sub.set_curconf conf_zero (psub v SUB_CALLWAIT))
                (sub.set_curconf conf_zero (psub v SUB_THREEWAY))) v).

(** No line points to a line that is not there: every slave, master and
    bearer of a line of the world is a line of the world. *)
Definition lines_closed (ps : gmap nat pvt.t) : Prop :=
  forall q v, ps !! q = Some v ->
    (forall x s, get_slave (pvt.slaves v) x = Some s -> is_Some (ps !! s)) /\
    (forall m, pvt.master v = Some m -> is_Some (ps !! m)) /\
    (forall b, pvt.bearer v = Some b -> is_Some (ps !! b)).

(** What the conference manager may add to the trace: conference
    requests and warnings. *)
Definition conf_event (e : event) : Prop :=
  match e with
  | Hw (DAHDI_SETCONF _ _) => True
  | Log LOG_WARNING _ => True
  | _ => False
  end.

(** The world [w] differs from [w0] in conference numbers and conference
    records only, and what was added to the trace are conference
    requests and warnings. *)
Definition conf_only (w0 w : world) : Prop :=
  chans w = chans w0 /\
  erase_conf <$> pvts w = erase_conf <$> pvts w0 /\
  exists t, trace w = trace w0 ++ t /\ Forall conf_event t.

(** Two line stores that differ in conference numbers and conference
    records only. *)
Definition conf_equiv (ps ps' : gmap nat pvt.t) : Prop :=
  erase_conf <$> ps = erase_conf <$> ps'.

(** What one turn of the first loop of [dahdi_unlink] does to the
    links between the lines, the conference requests left out: the
    slot that holds [s] is emptied and [s] loses its master, a slot that
    holds another slave sets [hasslaves], and [inconference] is cleared
    while [hasslaves] is not set. *)
Definition links_slot (s m : nat) (x : slaveidx) (st : bool * gmap nat pvt.t)
  : bool * gmap nat pvt.t :=
  match st.2 !! m with
  | None => st
  | Some vm =>
      let '(hs, ps) :=
        match get_slave (pvt.slaves vm) x with
        | Some sx =>
            if Nat.eqb sx s then
              (st.1,
               alter (fun v => pvt.set_slaves (put_slave x None (pvt.slaves v)) v) m
                 (alter (pvt.set_master None) sx st.2))
            else (true, st.2)
        | None => st
        end in
      (hs, if hs then ps else alter (pvt.set_inconference 0) m ps)
  end.

(** The world [w] has the call legs of [w0], its lines are [ps] up to
    conference numbers and records, and its trace is that of [w0]
    followed by conference requests and warnings. *)
Definition follows (w0 : world) (ps : gmap nat pvt.t) (w : world) : Prop :=
  chans w = chans w0 /\
  conf_equiv (pvts w) ps /\
  exists t, trace w = trace w0 ++ t /\ Forall conf_event t.

(** The links after the whole first loop, for a given slave. *)
Definition links_unlinked (s m : nat) (ps : gmap nat pvt.t) : gmap nat pvt.t :=
  (fold_left (fun st x => links_slot s m x st) all_slaves (false, ps)).2.

(** Whether a slot holds the line [s], and whether it holds another
    line. *)
Definition holds (s : nat) (o : option nat) : bool :=
  match o with Some sx => Nat.eqb sx s | None => false end.

Definition holds_other (s : nat) (o : option nat) : bool :=
  match o with Some sx => negb (Nat.eqb sx s) | None => false end.

(** The same turn on the two lines it touches: the master [vm] and the
    slave [vs]. *)
Definition unlink_lines (s : nat) (x : slaveidx) (st : bool * pvt.t * pvt.t)
  : bool * pvt.t * pvt.t :=
  let '(hs, vm, vs) := st in
  let o := get_slave (pvt.slaves vm) x in
  let hs' := hs || holds_other s o in
  let vm1 := if holds s o then pvt.set_slaves (put_slave x None (pvt.slaves vm)) vm else vm in
  (hs',
   if hs' then vm1 else pvt.set_inconference 0 vm1,
   if holds s o then pvt.set_master None vs else vs).

(** And on the links alone: [hasslaves], the slots of the master, its
    [inconference], and the master of the slave. *)
Definition unlink_links (s : nat) (x : slaveidx)
    (st : bool * slaves_t * Z * option nat) : bool * slaves_t * Z * option nat :=
  let '(hs, sl, inc, ms) := st in
  let o := get_slave sl x in
  let hs' := hs || holds_other s o in
  (hs',
   if holds s o then put_slave x None sl else sl,
   if hs' then inc else 0,
   if holds s o then None else ms).

(** The ring request of [dahdi_ring_phone] on the descriptor [dfd]. *)
Definition ring_request (K : env) (dfd : Z) : hwcall := DAHDI_HOOK dfd (DAHDI_RING K).

(** After the history [h], the kernel answers the ring request with
    EBUSY or EINTR, so that [dahdi_ring_phone] tries again. *)
Definition ring_retry (K : env) (h : list event) (dfd : Z) : bool :=
  negb (ioctl K h (ring_request K dfd) =? 0) &&
  ((ioctl_errno K h (ring_request K dfd) =? EBUSY K) ||
   (ioctl_errno K h (ring_request K dfd) =? EINTR K)).

(** From whatever history, the kernel stops answering EBUSY or EINTR to
    the ring request after at most [n] tries in a row. *)
Definition ring_settles (K : env) (dfd : Z) (n : nat) : Prop :=
  forall h, exists k, (k <= n)%nat /\
    ring_retry K (h ++ repeat (Hw (ring_request K dfd)) k) dfd = false.

(** If a run of [m] from a world in [P] ends, it ends in a world in
    [Q]. *)
Definition ensures {A} (P : world -> Prop) (m : M A) (Q : A -> world -> Prop) : Prop :=
  forall w a w', P w -> m w = Some (a, w') -> Q a w'.

(** The world [w] differs from [w0] in conference numbers and conference
    records only, and [R] relates the conference record of the Real
    sub-channel of the line [s] to the conference number of the line
    [p]. *)
Definition programmed (w0 : world) (s p : nat) (R : conf.t -> Z -> Prop) (w : world) : Prop :=
  conf_equiv (pvts w) (pvts w0) /\
  exists vs vp,
    pvts w !! s = Some vs /\ pvts w !! p = Some vp /\
    R (sub.curconf (psub vs SUB_REAL)) (pvt.confno vp).

(** The record is still [c0]; the conference number is -1 or positive
    when [numbered] is set. *)
Definition record_untouched (c0 : conf.t) (numbered : bool) (c : conf.t) (n : Z) : Prop :=
  c = c0 /\ (numbered = true -> n = -1 \/ 0 < n).

(** The record is in the conference mode [mode].  When [numbered] is
    set, it names the channel [ch] if that is positive and the record
    was asked for in slave-native mode ([native]), and otherwise the
    conference number [n], which is positive. *)
Definition record_in_mode (mode : Z) (native : bool) (ch : Z) (numbered : bool)
    (c : conf.t) (n : Z) : Prop :=
  conf.confmode c = mode /\
  (numbered = true ->
   if native then 0 < ch -> conf.confno c = ch
   else conf.confno c = n /\ 0 < n).

(** The kernel accepts every conference request on the descriptor [fd]
    and answers with the mode it was asked for. *)
Definition setconf_accepted (K : env) (fd : Z) : Prop :=
  forall h zi,
    ioctl K h (DAHDI_SETCONF fd zi) = 0 /\
    conf.confmode (setconf_out K h fd zi) = conf.confmode zi.

(** The kernel answers a request for a positive conference number with
    that number, and a request for conference -1 with a positive
    number. *)
Definition setconf_numbered (K : env) : Prop :=
  forall h fd zi,
    (0 < conf.confno zi -> conf.confno (setconf_out K h fd zi) = conf.confno zi) /\
    (conf.confno zi = -1 -> 0 < conf.confno (setconf_out K h fd zi)).

(** A property of the lines of the world alone. *)
Definition lines_only (P : world -> Prop) : Prop :=
  forall w w', pvts w' = pvts w -> P w -> P w'.

(** A run that leaves the lines as they are. *)
Definition quiet {A} (m : M A) : Prop :=
  forall w a w', m w = Some (a, w') -> pvts w' = pvts w.

(** A relation that survives the master's conference number being
    replaced by the kernel's answer to a request for that number. *)
Definition stable (K : env) (R : conf.t -> Z -> Prop) : Prop :=
  forall c n h fd md,
    R c n -> R c (conf.confno (setconf_out K h fd (conf.mk 0 n md))).

(** What the turn that programs the slave needs of the relation it
    starts from: when [numbered] is set, the conference number is -1 or
    positive, and positive if the record carries it. *)
Definition numbered_from (numbered : bool) (R : conf.t -> Z -> Prop) : Prop :=
  forall c n, R c n -> numbered = true ->
    (n = -1 \/ 0 < n) /\ (conf.confno c = n -> 0 < n).

(** ** More concrete states *)

(** A radio line (its [radio] setting is 1) on channel 1, and a leg 100
    on it that has not been dialled yet. *)
Definition line_radio : pvt.t :=
  pvt.mk (Some 100%nat) (mk_subs (sub_open 10 (Some 100%nat)) sub_free sub_free)
    (mk_slaves None None None None) None 0
    SIG_EM 1 None 0 1 (-1) 1 None POLARITY_IDLE
    false false false false false false false false false false false 0 0
    0 0 0 0 0 0 tv0 tv0 ""%string.

Definition world_radio : world :=
  mk_world (<[1%nat := line_radio]> ∅) (<[100%nat := leg AST_STATE_DOWN 10 1]> ∅) [].

(** The line of [world_flash] with the party on ThreeWay (leg 300)
    bridged to a leg 400 of another channel driver, and the leg on Real
    (leg 100) bridged to nobody. *)
Definition world_held : world :=
  mk_world
    (<[1%nat := line_flash]> ∅)
    (<[100%nat := leg AST_STATE_UP 10 1]>
       (<[300%nat := chn.mk AST_STATE_UP 30 0 true (Some 1%nat) (Some 400%nat) []]>
          (<[400%nat := chn.mk AST_STATE_UP 0 0 true None (Some 300%nat) []]> ∅)))
    [].

(** A kewlstart line in a call (leg 100 on Real) with a second call
    waiting (leg 200, still Ringing, on CallWait). *)
Definition line_callwait : pvt.t :=
  pvt.set_owner (Some 100%nat)
    (pvt.set_subs
       (put_sub SUB_CALLWAIT (sub.set_chan 5 (sub_open 20 (Some 200%nat)))
          (pvt.subs (line SIG_FXOKS 1 1 (sub_open 10 (Some 100%nat)))))
       (line SIG_FXOKS 1 1 (sub_open 10 (Some 100%nat)))).

Definition world_callwait : world :=
  mk_world
    (<[1%nat := line_callwait]> ∅)
    (<[100%nat := leg AST_STATE_UP 10 1]> (<[200%nat := leg AST_STATE_RINGING 20 1]> ∅))
    [].


(** * Properties *)

(** ** Running the monad *)

Lemma rd_run (p : nat) (v : pvt.t) (w : world) :
  pvts w !! p = Some v -> rd p w = Some (v, w).
Proof. intros H. unfold rd. rewrite H. reflexivity. Qed.

Lemma wr_run (p : nat) (f : pvt.t -> pvt.t) (v : pvt.t) (w : world) :
  pvts w !! p = Some v ->
  wr p f w = Some (tt, mk_world (<[p := f v]> (pvts w)) (chans w) (trace w)).
Proof. intros H. unfold wr. rewrite H. reflexivity. Qed.

Lemma rdc_run (c : nat) (v : chn.t) (w : world) :
  chans w !! c = Some v -> rdc c w = Some (v, w).
Proof. intros H. unfold rdc. rewrite H. reflexivity. Qed.

Lemma wrc_run (c : nat) (f : chn.t -> chn.t) (v : chn.t) (w : world) :
  chans w !! c = Some v ->
  wrc c f w = Some (tt, mk_world (pvts w) (<[c := f v]> (chans w)) (trace w)).
Proof. intros H. unfold wrc. rewrite H. reflexivity. Qed.

Lemma bind_run {A B} (m : M A) (k : A -> M B) (w w' : world) (a : A) :
  m w = Some (a, w') -> bind m k w = k a w'.
Proof. intros H. unfold bind. rewrite H. reflexivity. Qed.

Lemma bind_assoc {A B C} (m : M A) (k : A -> M B) (k' : B -> M C) (w : world) :
  bind (bind m k) k' w = bind m (fun a => bind (k a) k') w.
Proof. unfold bind. destruct (m w) as [[a w']|]; reflexivity. Qed.

Lemma bind_ret {A B} (a : A) (k : A -> M B) (w : world) :
  bind (ret a) k w = k a w.
Proof. reflexivity. Qed.

(** Stepping through a run whose reads and writes hit known lines. *)
Ltac known_line :=
  cbn [pvts chans trace];
  first [ eassumption
        | apply lookup_insert_eq
        | rewrite lookup_insert_ne by congruence; known_line ].

Ltac mstep :=
  first
    [ rewrite bind_assoc
    | rewrite bind_ret
    | erewrite bind_run; [| apply rd_run; known_line ]
    | erewrite bind_run; [| apply wr_run; known_line ]
    | erewrite bind_run; [| apply rdc_run; known_line ]
    | erewrite bind_run; [| apply wrc_run; known_line ]
    | erewrite bind_run; [| reflexivity ] ].

(** ** C8: the Real sub-channel is never released *)

(** C8.  [unalloc_sub] on the Real sub-channel (index 0) of any line
    returns -1 and changes nothing: the lines and the call legs are as
    before, and the only thing added to the trace is the warning, so no
    descriptor is closed. *)
Theorem unalloc_real_is_refused (p : nat) (v : pvt.t) (w : world) :
  pvts w !! p = Some v ->
  unalloc_sub p SUB_REAL w =
    Some (-1, mk_world (pvts w) (chans w)
                (trace w ++ [Log LOG_WARNING "Trying to unalloc the real channel?!?"])).
Proof.
  intros H. unfold unalloc_sub.
  rewrite (bind_run _ _ _ _ _ (rd_run _ _ _ H)).
  reflexivity.
Qed.

Lemma unalloc_real_is_refused_witness :
  unalloc_sub 1%nat SUB_REAL world_bridged =
    Some (-1, mk_world (pvts world_bridged) (chans world_bridged)
                (trace world_bridged ++ [Log LOG_WARNING "Trying to unalloc the real channel?!?"])).
Proof.
  apply (unalloc_real_is_refused 1%nat
           (pvt.set_inconference 1
              (pvt.set_slaves (mk_slaves (Some 2%nat) None None None)
                 (line SIG_FXOKS 1 1 (sub_open 10 (Some 100%nat)))))).
  reflexivity.
Defined.

(** ** C2, C9: swapping two roles *)

Lemma swapped_involutive (a b : subidx) (v : pvt.t) :
  swapped a b (swapped a b v) = v.
Proof. destruct_line v; destruct a, b; reflexivity. Qed.

Lemma swapped_dfd (a b x : subidx) (v : pvt.t) :
  sub.dfd (psub (swapped a b v) x) = sub.dfd (psub v x).
Proof. destruct_line v; destruct a, b, x; reflexivity. Qed.

Lemma swapped_owner_a (a b : subidx) (v : pvt.t) :
  sub.owner (psub (swapped a b v) a) = sub.owner (psub v b).
Proof. destruct_line v; destruct a, b; reflexivity. Qed.

Lemma swapped_owner_b (a b : subidx) (v : pvt.t) :
  sub.owner (psub (swapped a b v) b) = sub.owner (psub v a).
Proof. destruct_line v; destruct a, b; reflexivity. Qed.

Lemma on_leg_known (o : option nat) (f : chn.t -> chn.t) (cs : gmap nat chn.t) (c : nat) :
  is_Some (on_leg o f cs !! c) <-> is_Some (cs !! c).
Proof.
  destruct o as [o|]; cbn; [|tauto].
  rewrite lookup_alter. destruct (decide (o = c)) as [->|]; [|tauto].
  destruct (cs !! c); cbn; split; intros [? ?]; eauto; discriminate.
Qed.

Lemma wrc_on_leg (o : nat) (f : chn.t -> chn.t) (w : world) :
  is_Some (chans w !! o) ->
  wrc o f w = Some (tt, mk_world (pvts w) (on_leg (Some o) f (chans w)) (trace w)).
Proof.
  intros [c Hc]. rewrite (wrc_run _ _ _ _ Hc). cbn.
  do 3 f_equal. apply map_eq. intros i.
  rewrite lookup_alter, lookup_insert.
  destruct (decide (o = i)) as [->|]; [rewrite Hc|]; reflexivity.
Qed.

Lemma leg_run (o : option nat) (f : chn.t -> chn.t) (w : world) :
  (forall c, o = Some c -> is_Some (chans w !! c)) ->
  match o with Some c => wrc c f | None => ret tt end w =
    Some (tt, mk_world (pvts w) (on_leg o f (chans w)) (trace w)).
Proof.
  intros H. destruct o as [c|].
  - apply wrc_on_leg. apply H. reflexivity.
  - destruct w; reflexivity.
Qed.

(** [swap_subs] on a line of the world whose owning legs are known: it
    runs to the end, the line holds the six assignments, each leg that
    now owns one of the two roles reads from that role's descriptor and
    has a null frame queued. *)
Lemma swap_subs_run (p : nat) (a b : subidx) (v : pvt.t) (w : world) :
  pvts w !! p = Some v ->
  owners_known v w ->
  swap_subs p a b w =
    Some (tt, mk_world (<[p := swapped a b v]> (pvts w))
                (legs_swapped a b v (chans w)) (trace w)).
Proof.
  intros Hp Hk. unfold swap_subs.
  rewrite (bind_run _ _ _ _ _ (rd_run _ _ _ Hp)).
  repeat (erewrite bind_run;
          [| apply wr_run; cbn [pvts]; first [exact Hp | apply lookup_insert_eq]];
          cbn [pvts chans trace]; rewrite ?insert_insert_eq).
  match goal with
  | |- context [<[p := ?v']> (pvts w)] =>
      replace v' with (swapped a b v) by reflexivity
  end.
  unfold legs_swapped, wakeup_sub, ast_channel_set_fd0, ast_queue.
  pose proof (Hk b) as Hb. pose proof (Hk a) as Ha.
  repeat first
    [ rewrite bind_assoc
    | erewrite bind_run; [| apply rd_run; cbn [pvts]; apply lookup_insert_eq ]
    | erewrite bind_run;
      [| apply leg_run; cbn [chans]; intros c Hc;
         rewrite ?on_leg_known; first [apply Hb; exact Hc | apply Ha; exact Hc] ]
    | rewrite swapped_owner_a | rewrite swapped_owner_b | rewrite swapped_dfd
    | progress cbn [pvts chans trace] ].
  rewrite leg_run; [reflexivity|].
  cbn [chans]. intros c Hc. rewrite !on_leg_known. apply Ha. exact Hc.
Qed.

Lemma legs_swapped_known (a b : subidx) (v : pvt.t) (cs : gmap nat chn.t) (c : nat) :
  is_Some (legs_swapped a b v cs !! c) <-> is_Some (cs !! c).
Proof. unfold legs_swapped. rewrite !on_leg_known. tauto. Qed.

Lemma swapped_owners_known (a b : subidx) (v : pvt.t) (w : world) (ps : gmap nat pvt.t)
    (tr : list event) :
  owners_known v w ->
  owners_known (swapped a b v) (mk_world ps (legs_swapped a b v (chans w)) tr).
Proof.
  intros Hk x o Ho. cbn [chans]. rewrite legs_swapped_known.
  destruct_line v; destruct a, b, x; cbn in Ho;
    first [ eapply (Hk SUB_REAL); exact Ho
          | eapply (Hk SUB_CALLWAIT); exact Ho
          | eapply (Hk SUB_THREEWAY); exact Ho ].
Qed.

(** C2.  Swapping two roles of a line twice in a row runs to the end and
    restores the bindings: in the line, the owner, the channel number
    and the three-way flag of every role are those before the first
    swap; indeed no field of any line of the world differs. *)
Theorem swap_subs_twice_restores (p : nat) (a b : subidx) (v : pvt.t) (w : world) :
  pvts w !! p = Some v ->
  owners_known v w ->
  exists (w2 : world) (v2 : pvt.t),
    bind (swap_subs p a b) (fun _ => swap_subs p a b) w = Some (tt, w2) /\
    pvts w2 !! p = Some v2 /\
    (forall x : subidx,
        sub.owner (psub v2 x) = sub.owner (psub v x) /\
        sub.chan (psub v2 x) = sub.chan (psub v x) /\
        sub.inthreeway (psub v2 x) = sub.inthreeway (psub v x)) /\
    pvts w2 = pvts w.
Proof.
  intros Hp Hk.
  set (w1 := mk_world (<[p := swapped a b v]> (pvts w))
                      (legs_swapped a b v (chans w)) (trace w)).
  assert (Hp1 : pvts w1 !! p = Some (swapped a b v)) by apply lookup_insert_eq.
  assert (Hk1 : owners_known (swapped a b v) w1)
    by (apply swapped_owners_known; exact Hk).
  eexists. exists v.
  rewrite (bind_run _ _ _ _ _ (swap_subs_run p a b v w Hp Hk)).
  fold w1. rewrite (swap_subs_run p a b (swapped a b v) w1 Hp1 Hk1).
  cbn [pvts chans trace w1].
  rewrite insert_insert_eq, swapped_involutive.
  repeat split.
  - apply lookup_insert_eq.
  - apply insert_id. exact Hp.
Qed.

Lemma swap_subs_twice_restores_witness :
  exists (w2 : world) (v2 : pvt.t),
    bind (swap_subs 1%nat SUB_THREEWAY SUB_REAL)
         (fun _ => swap_subs 1%nat SUB_THREEWAY SUB_REAL) world_flash = Some (tt, w2) /\
    pvts w2 !! 1%nat = Some v2 /\
    (forall x : subidx,
        sub.owner (psub v2 x) = sub.owner (psub line_flash x) /\
        sub.chan (psub v2 x) = sub.chan (psub line_flash x) /\
        sub.inthreeway (psub v2 x) = sub.inthreeway (psub line_flash x)) /\
    pvts w2 = pvts world_flash.
Proof.
  apply (swap_subs_twice_restores 1%nat SUB_THREEWAY SUB_REAL line_flash world_flash).
  - reflexivity.
  - intros x o Ho. destruct x; cbn in Ho; inversion Ho; subst; vm_compute; eauto.
Defined.

Lemma on_leg_lookup (o : option nat) (f : chn.t -> chn.t) (cs : gmap nat chn.t) (c : nat) :
  on_leg o f cs !! c = if decide (o = Some c) then f <$> (cs !! c) else cs !! c.
Proof.
  destruct o as [o|]; cbn.
  - rewrite lookup_alter.
    destruct (decide (o = c)) as [->|Hne].
    + rewrite decide_True by reflexivity. reflexivity.
    + rewrite decide_False by congruence. reflexivity.
  - rewrite decide_False by discriminate. reflexivity.
Qed.

Lemma swapped_rest (a b x : subidx) (v : pvt.t) :
  sub_rest (psub (swapped a b v) x) = sub_rest (psub v x).
Proof. destruct_line v; destruct a, b, x; reflexivity. Qed.

Lemma swapped_other (a b x : subidx) (v : pvt.t) :
  x <> a -> x <> b -> psub (swapped a b v) x = psub v x.
Proof. intros Ha Hb. destruct_line v; destruct a, b, x; try reflexivity; congruence. Qed.

Lemma swapped_fields (a b : subidx) (v : pvt.t) :
  pvt.set_subs (pvt.subs v) (swapped a b v) = v.
Proof. destruct_line v; destruct a, b; reflexivity. Qed.

Lemma swapped_bindings (a b : subidx) (v : pvt.t) :
  sub.chan (psub (swapped a b v) a) = sub.chan (psub v b) /\
  sub.inthreeway (psub (swapped a b v) a) = sub.inthreeway (psub v b) /\
  sub.chan (psub (swapped a b v) b) = sub.chan (psub v a) /\
  sub.inthreeway (psub (swapped a b v) b) = sub.inthreeway (psub v a).
Proof. destruct_line v; destruct a, b; repeat split; reflexivity. Qed.

(** C9.  [swap_subs] runs to the end and leaves every descriptor where
    it was: [dfd] of each role is unchanged, as is every field of the
    line and of its sub-channels other than owner, channel number and
    three-way flag, which the two roles exchange.  Every leg that owns
    one of the two roles afterwards reads from the descriptor of a role
    it now owns: the leg on [b] from the descriptor of [b], the leg on
    [a] from the descriptor of [a] (from that of [b], which is set last,
    should one leg own both). *)
Theorem swap_subs_keeps_descriptors (p : nat) (a b : subidx) (v : pvt.t) (w : world) :
  pvts w !! p = Some v ->
  owners_known v w ->
  exists (w1 : world) (v1 : pvt.t),
    swap_subs p a b w = Some (tt, w1) /\
    pvts w1 !! p = Some v1 /\
    (forall x : subidx, sub.dfd (psub v1 x) = sub.dfd (psub v x)) /\
    (forall x : subidx, sub_rest (psub v1 x) = sub_rest (psub v x)) /\
    (forall x : subidx, x <> a -> x <> b -> psub v1 x = psub v x) /\
    pvt.set_subs (pvt.subs v) v1 = v /\
    (sub.owner (psub v1 a) = sub.owner (psub v b) /\
     sub.chan (psub v1 a) = sub.chan (psub v b) /\
     sub.inthreeway (psub v1 a) = sub.inthreeway (psub v b)) /\
    (sub.owner (psub v1 b) = sub.owner (psub v a) /\
     sub.chan (psub v1 b) = sub.chan (psub v a) /\
     sub.inthreeway (psub v1 b) = sub.inthreeway (psub v a)) /\
    (forall o : nat,
        sub.owner (psub v1 b) = Some o ->
        exists c, chans w1 !! o = Some c /\ chn.fds0 c = sub.dfd (psub v1 b)) /\
    (forall o : nat,
        sub.owner (psub v1 a) = Some o ->
        sub.owner (psub v1 b) <> Some o ->
        exists c, chans w1 !! o = Some c /\ chn.fds0 c = sub.dfd (psub v1 a)) /\
    (forall (x : subidx) (o : nat),
        x = a \/ x = b ->
        sub.owner (psub v1 x) = Some o ->
        exists (c : chn.t) (y : subidx),
          (y = a \/ y = b) /\ sub.owner (psub v1 y) = Some o /\
          chans w1 !! o = Some c /\ chn.fds0 c = sub.dfd (psub v1 y)).
Proof.
  intros Hp Hk.
  exists (mk_world (<[p := swapped a b v]> (pvts w))
                   (legs_swapped a b v (chans w)) (trace w)), (swapped a b v).
  destruct (swapped_bindings a b v) as (Hca & Hta & Hcb & Htb).
  split; [apply swap_subs_run; assumption|].
  split; [apply lookup_insert_eq|].
  split; [intros x; apply swapped_dfd|].
  split; [intros x; apply swapped_rest|].
  split; [intros x; apply swapped_other|].
  split; [apply swapped_fields|].
  split; [rewrite swapped_owner_a; auto|].
  split; [rewrite swapped_owner_b; auto|].
  cbn [chans]. unfold legs_swapped.
  assert (Hb : forall o : nat,
             sub.owner (psub (swapped a b v) b) = Some o ->
             exists c, legs_swapped a b v (chans w) !! o = Some c /\
                       chn.fds0 c = sub.dfd (psub (swapped a b v) b)).
  { unfold legs_swapped. rewrite swapped_owner_b, !swapped_dfd.
    intros o Ho. destruct (Hk a o Ho) as [c Hc].
    rewrite !on_leg_lookup, Ho.
    repeat case_decide; try congruence; rewrite Hc; cbn;
      eexists; split; reflexivity. }
  assert (Ha : forall o : nat,
             sub.owner (psub (swapped a b v) a) = Some o ->
             sub.owner (psub (swapped a b v) b) <> Some o ->
             exists c, legs_swapped a b v (chans w) !! o = Some c /\
                       chn.fds0 c = sub.dfd (psub (swapped a b v) a)).
  { unfold legs_swapped. rewrite swapped_owner_a, swapped_owner_b, !swapped_dfd.
    intros o Ho Hne. destruct (Hk b o Ho) as [c Hc].
    rewrite !on_leg_lookup, Ho.
    repeat case_decide; try congruence; rewrite Hc; cbn;
      eexists; split; reflexivity. }
  fold (legs_swapped a b v (chans w)).
  split; [exact Hb|]. split; [exact Ha|].
  intros x o Hx Ho.
  destruct (decide (sub.owner (psub (swapped a b v) b) = Some o)) as [Hob|Hob].
  - destruct (Hb o Hob) as (c & Hc & Hfd). exists c, b. auto.
  - destruct Hx as [-> | ->]; [|contradiction].
    destruct (Ha o Ho Hob) as (c & Hc & Hfd). exists c, a. auto.
Qed.

Lemma swap_subs_keeps_descriptors_witness :
  exists (w1 : world) (v1 : pvt.t),
    swap_subs 1%nat SUB_THREEWAY SUB_REAL world_flash = Some (tt, w1) /\
    pvts w1 !! 1%nat = Some v1 /\
    (forall x : subidx, sub.dfd (psub v1 x) = sub.dfd (psub line_flash x)) /\
    (forall x : subidx, sub_rest (psub v1 x) = sub_rest (psub line_flash x)) /\
    (forall x : subidx, x <> SUB_THREEWAY -> x <> SUB_REAL -> psub v1 x = psub line_flash x) /\
    pvt.set_subs (pvt.subs line_flash) v1 = line_flash /\
    (sub.owner (psub v1 SUB_THREEWAY) = Some 100%nat /\
     sub.chan (psub v1 SUB_THREEWAY) = 0 /\
     sub.inthreeway (psub v1 SUB_THREEWAY) = false) /\
    (sub.owner (psub v1 SUB_REAL) = Some 300%nat /\
     sub.chan (psub v1 SUB_REAL) = 7 /\
     sub.inthreeway (psub v1 SUB_REAL) = false) /\
    (forall o : nat,
        sub.owner (psub v1 SUB_REAL) = Some o ->
        exists c, chans w1 !! o = Some c /\ chn.fds0 c = sub.dfd (psub v1 SUB_REAL)) /\
    (forall o : nat,
        sub.owner (psub v1 SUB_THREEWAY) = Some o ->
        sub.owner (psub v1 SUB_REAL) <> Some o ->
        exists c, chans w1 !! o = Some c /\ chn.fds0 c = sub.dfd (psub v1 SUB_THREEWAY)) /\
    (forall (x : subidx) (o : nat),
        x = SUB_THREEWAY \/ x = SUB_REAL ->
        sub.owner (psub v1 x) = Some o ->
        exists (c : chn.t) (y : subidx),
          (y = SUB_THREEWAY \/ y = SUB_REAL) /\ sub.owner (psub v1 y) = Some o /\
          chans w1 !! o = Some c /\ chn.fds0 c = sub.dfd (psub v1 y)).
Proof.
  apply (swap_subs_keeps_descriptors 1%nat SUB_THREEWAY SUB_REAL line_flash world_flash).
  - reflexivity.
  - intros x o Ho. destruct x; cbn in Ho; inversion Ho; subst; vm_compute; eauto.
Defined.

(** ** C5: placing a call in the wrong state *)

(** C5 as stated fails for a leg in state Busy: [dahdi_call] returns 0,
    which is success, having flagged [needbusy] on the Real
    sub-channel. *)
Lemma dahdi_call_on_busy_leg_succeeds :
  (chn._state <$> chans world_busy !! 100%nat) = Some AST_STATE_BUSY /\
  (fst <$> dahdi_call dahdi_linux dial_stub 100%nat "5551212" 0 world_busy) = Some 0.
Proof. split; vm_compute; reflexivity. Qed.

(** C5, amended.  On a leg whose state is neither Down nor Reserved,
    [dahdi_call] never reaches the dial routines and asks nothing of the
    hardware.  In state Busy it returns 0 after flagging [needbusy] on
    the Real sub-channel; in every other such state it returns -1 after
    logging a warning.  In both cases the only other change is the copy
    of the destination into [dialdest]. *)
Theorem dahdi_call_wrong_state (K : env) (dial : nat -> nat -> M Z)
    (ast p : nat) (rdest : string) (timeout : Z) (w : world) (c : chn.t) (v : pvt.t) :
  chans w !! ast = Some c ->
  chn.tech_pvt c = Some p ->
  pvts w !! p = Some v ->
  chn._state c <> AST_STATE_DOWN ->
  chn._state c <> AST_STATE_RESERVED ->
  dahdi_call K dial ast rdest timeout w =
    if ast_state_eqb (chn._state c) AST_STATE_BUSY then
      Some (0, mk_world
                 (<[p := upd_sub SUB_REAL (sub.set_needbusy true)
                           (pvt.set_dialdest (ast_copy_string_256 rdest) v)]> (pvts w))
                 (chans w) (trace w))
    else
      Some (-1, mk_world
                  (<[p := pvt.set_dialdest (ast_copy_string_256 rdest) v]> (pvts w))
                  (chans w)
                  (trace w ++ [Log LOG_WARNING
                     "dahdi_call called on channel, neither down nor reserved"])).
Proof.
  intros Hc Ht Hp Hd Hr. unfold dahdi_call, tech_pvt.
  rewrite (bind_assoc (rdc ast)).
  rewrite (bind_run _ _ _ _ _ (rdc_run _ _ _ Hc)). rewrite Ht. rewrite bind_ret.
  rewrite (bind_run _ _ _ _ _ (wr_run _ _ _ _ Hp)).
  erewrite bind_run; [| apply rdc_run; exact Hc].
  destruct (chn._state c) eqn:Hs; try congruence; cbn [ast_state_eqb negb andb];
    try reflexivity.
  erewrite bind_run; [| apply wr_run; apply lookup_insert_eq].
  cbn [pvts chans trace]. rewrite insert_insert_eq. reflexivity.
Qed.

Lemma dahdi_call_wrong_state_witness :
  dahdi_call dahdi_linux dial_stub 100%nat "5551212" 30 world_up =
    Some (-1, mk_world
                (<[1%nat := pvt.set_dialdest "5551212"
                              (pvt.set_owner (Some 100%nat)
                                 (line SIG_FXSKS 1 1 (sub_open 10 (Some 100%nat))))]>
                   (pvts world_up))
                (chans world_up)
                [Log LOG_WARNING "dahdi_call called on channel, neither down nor reserved"]).
Proof.
  apply (dahdi_call_wrong_state dahdi_linux dial_stub 100%nat 1%nat "5551212" 30
           world_up (leg AST_STATE_UP 10 1)
           (pvt.set_owner (Some 100%nat) (line SIG_FXSKS 1 1 (sub_open 10 (Some 100%nat)))));
    first [reflexivity | discriminate].
Defined.

(** ** C10: linking a slave to a master *)

(** C10 as stated fails twice.  When the slave is already linked it does
    not end in exactly one slot: on [world_bridged] line 2 sits in slot 0
    of line 1, and linking it again puts it in slot 1 as well.  And the
    replacement in a full array is not silent: on [world_full], where
    lines 2 to 5 fill the slots of line 1, linking line 6 puts it in
    the last slot and logs a warning. *)
Lemma dahdi_link_again_takes_a_second_slot :
  (exists (w' : world) (vm : pvt.t),
     dahdi_link (Some 2%nat) (Some 1%nat) world_bridged = Some (tt, w') /\
     pvts w' !! 1%nat = Some vm /\
     slaves_list (pvt.slaves vm) = [Some 2%nat; Some 2%nat; None; None] /\
     slots_of 2 (pvt.slaves vm) = 2%nat) /\
  (exists (w' : world) (vm : pvt.t),
     slaves_list (pvt.slaves line_full) =
       [Some 2%nat; Some 3%nat; Some 4%nat; Some 5%nat] /\
     dahdi_link (Some 6%nat) (Some 1%nat) world_full = Some (tt, w') /\
     pvts w' !! 1%nat = Some vm /\
     slaves_list (pvt.slaves vm) = [Some 2%nat; Some 3%nat; Some 4%nat; Some 6%nat] /\
     trace world_full = [] /\
     trace w' = [Log LOG_WARNING "Replacing slave with new slave"]).
Proof.
  split.
  - eexists. eexists. vm_compute. repeat split; reflexivity.
  - eexists. eexists. vm_compute. repeat split; reflexivity.
Qed.

Lemma slots_of_bounds (s : nat) (sl : slaves_t) : (slots_of s sl <= 4)%nat.
Proof.
  unfold slots_of. etransitivity; [apply length_filter|]. reflexivity.
Qed.

Lemma slots_of_link_slot (s : nat) (sl : slaves_t) :
  (1 <= slots_of s (put_slave (link_slot sl) (Some s) sl))%nat /\
  (slots_of s sl = 0%nat -> slots_of s (put_slave (link_slot sl) (Some s) sl) = 1%nat).
Proof.
  destruct sl as [[a|] [b|] [c|] [d|]]; unfold link_slot, slots_of; cbn;
    repeat (case_decide; cbn); split; intros; try lia; congruence.
Qed.

(** The slot the loop of [dahdi_link] stops at. *)
Lemma first_free_slave_spec (sl : slaves_t) :
  match first_free_slave sl with
  | Some x =>
      get_slave sl x = None /\
      forall y, slaveidx_to_Z y < slaveidx_to_Z x -> get_slave sl y <> None
  | None => forall y, get_slave sl y <> None
  end.
Proof.
  destruct sl as [[a|] [b|] [c|] [d|]]; cbn;
    try (split; [reflexivity|]); intros y; destruct y; cbn; intros; (lia || congruence).
Qed.

Lemma put_slave_spec (x : slaveidx) (o : option nat) (sl : slaves_t) :
  get_slave (put_slave x o sl) x = o /\
  forall y, y <> x -> get_slave (put_slave x o sl) y = get_slave sl y.
Proof.
  split; [destruct x; reflexivity|].
  intros y Hy. destruct x, y; try reflexivity; congruence.
Qed.

(** The run of [dahdi_link] on two lines of the world. *)
Lemma dahdi_link_run (s m : nat) (vs vm : pvt.t) (w : world) :
  pvts w !! m = Some vm ->
  pvts w !! s = Some vs ->
  (forall old, pvt.master vs = Some old -> is_Some (pvts w !! old)) ->
  (forall old, get_slave (pvt.slaves vm) SLAVE3 = Some old -> is_Some (pvts w !! old)) ->
  let sl' := put_slave (link_slot (pvt.slaves vm)) (Some s) (pvt.slaves vm) in
  let vm1 := pvt.set_slaves sl' vm in
  let vs1 := if decide (s = m) then vm1 else vs in
  dahdi_link (Some s) (Some m) w =
    Some (tt, mk_world (<[s := pvt.set_master (Some m) vs1]> (<[m := vm1]> (pvts w)))
                (chans w)
                ((trace w ++
                  match first_free_slave (pvt.slaves vm) with
                  | Some _ => []
                  | None => [Log LOG_WARNING "Replacing slave with new slave"]
                  end) ++
                 match pvt.master vs with
                 | Some _ => [Log LOG_WARNING "Replacing master with new master"]
                 | None => []
                 end)).
Proof.
  intros Hm Hs Hom Hos sl' vm1 vs1.
  assert (Hs1 : forall tr, pvts (mk_world (<[m := vm1]> (pvts w)) (chans w) tr) !! s = Some vs1).
  { intros tr. cbn [pvts]. unfold vs1. destruct (decide (s = m)) as [->|Hne].
    - apply lookup_insert_eq.
    - rewrite lookup_insert_ne by congruence. exact Hs. }
  assert (Hmaster : pvt.master vs1 = pvt.master vs).
  { unfold vs1. destruct (decide (s = m)) as [->|]; [|reflexivity].
    rewrite Hm in Hs. inversion Hs; subst. destruct vs; reflexivity. }
  assert (Hknown : forall q tr, is_Some (pvts w !! q) ->
            exists vq, pvts (mk_world (<[m := vm1]> (pvts w)) (chans w) tr) !! q = Some vq).
  { intros q tr [vq Hq]. cbn [pvts]. destruct (decide (m = q)) as [->|Hne].
    - eexists. apply lookup_insert_eq.
    - exists vq. rewrite lookup_insert_ne by congruence. exact Hq. }
  unfold dahdi_link. mstep.
  set (tr1 := trace w ++
                match first_free_slave (pvt.slaves vm) with
                | Some _ => []
                | None => [Log LOG_WARNING "Replacing slave with new slave"]
                end).
  assert (Hstep1 :
             match first_free_slave (pvt.slaves vm) with
             | Some x => wr m (fun v => pvt.set_slaves (put_slave x (Some s) (pvt.slaves v)) v)
             | None =>
                 bind (match get_slave (pvt.slaves vm) SLAVE3 with
                       | Some old => bind (rd old) (fun _ => bind (rd s) (fun _ => ret tt))
                       | None => ret tt
                       end)
                   (fun _ => bind (ast_log LOG_WARNING "Replacing slave with new slave")
                      (fun _ => wr m (fun v => pvt.set_slaves
                                                (put_slave SLAVE3 (Some s) (pvt.slaves v)) v)))
             end w = Some (tt, mk_world (<[m := vm1]> (pvts w)) (chans w) tr1)).
  { unfold tr1, vm1, sl', link_slot.
    destruct (first_free_slave (pvt.slaves vm)) as [x|] eqn:Hff.
    - rewrite app_nil_r. rewrite (wr_run _ _ _ _ Hm). reflexivity.
    - pose proof (Hos) as Hos'.
      destruct (get_slave (pvt.slaves vm) SLAVE3) as [old|].
      + destruct (Hos' old eq_refl) as [vo Ho].
        repeat mstep. unfold ast_log, emit. repeat mstep.
        cbn [pvts chans trace]. erewrite wr_run by (cbn [pvts]; exact Hm). reflexivity.
      + repeat mstep. unfold ast_log, emit. repeat mstep.
        cbn [pvts chans trace]. erewrite wr_run by (cbn [pvts]; exact Hm). reflexivity. }
  erewrite bind_run; [| exact Hstep1].
  erewrite bind_run; [| apply rd_run; apply Hs1].
  rewrite Hmaster.
  pose proof Hom as Hom'.
  destruct (pvt.master vs) as [old|].
  - destruct (Hknown old tr1 (Hom' old eq_refl)) as [vo Ho].
    repeat mstep. unfold ast_log, emit. repeat mstep.
    erewrite wr_run by apply Hs1. reflexivity.
  - repeat mstep. erewrite wr_run by apply Hs1. cbn [pvts chans trace].
    rewrite app_nil_r. reflexivity.
Qed.

(** C10, amended.  Linking a slave to a master, both lines of the world,
    runs to the end; the slave's master pointer is then the master; the
    slave is written into one slot of the master's array and no other
    slot changes: the first empty slot, or the last slot when all four
    are occupied.  So the slave sits in at least one and at most four
    slots, and in exactly one when it sat in none before.  The trace
    grows by the warning that a slave is replaced exactly when all four
    slots were occupied, followed by the warning that a master is
    replaced exactly when the slave had a master, and by nothing else.
    When all four slots were occupied, the line that sat in the last
    slot keeps its own master pointer. *)
Theorem dahdi_link_links (s m : nat) (vs vm : pvt.t) (w : world) :
  pvts w !! m = Some vm ->
  pvts w !! s = Some vs ->
  (forall old, pvt.master vs = Some old -> is_Some (pvts w !! old)) ->
  (forall old, get_slave (pvt.slaves vm) SLAVE3 = Some old -> is_Some (pvts w !! old)) ->
  exists (w' : world) (vs' vm' : pvt.t) (x : slaveidx) (t1 t2 : list event),
    dahdi_link (Some s) (Some m) w = Some (tt, w') /\
    pvts w' !! s = Some vs' /\
    pvts w' !! m = Some vm' /\
    pvt.master vs' = Some m /\
    get_slave (pvt.slaves vm') x = Some s /\
    (forall y, y <> x -> get_slave (pvt.slaves vm') y = get_slave (pvt.slaves vm) y) /\
    ((get_slave (pvt.slaves vm) x = None /\
      forall y, slaveidx_to_Z y < slaveidx_to_Z x -> get_slave (pvt.slaves vm) y <> None) \/
     (x = SLAVE3 /\ forall y, get_slave (pvt.slaves vm) y <> None)) /\
    (1 <= slots_of s (pvt.slaves vm') <= 4)%nat /\
    (slots_of s (pvt.slaves vm) = 0%nat -> slots_of s (pvt.slaves vm') = 1%nat) /\
    trace w' = trace w ++ t1 ++ t2 /\
    ((forall y, get_slave (pvt.slaves vm) y <> None) ->
     t1 = [Log LOG_WARNING "Replacing slave with new slave"]) /\
    ((exists y, get_slave (pvt.slaves vm) y = None) -> t1 = []) /\
    (pvt.master vs <> None -> t2 = [Log LOG_WARNING "Replacing master with new master"]) /\
    (pvt.master vs = None -> t2 = []) /\
    (forall e ve,
        (forall y, get_slave (pvt.slaves vm) y <> None) ->
        get_slave (pvt.slaves vm) SLAVE3 = Some e ->
        e <> s ->
        pvts w !! e = Some ve ->
        exists ve', pvts w' !! e = Some ve' /\ pvt.master ve' = pvt.master ve).
Proof.
  intros Hm Hs Hom Hos.
  pose proof (dahdi_link_run s m vs vm w Hm Hs Hom Hos) as Hrun. cbn zeta in Hrun.
  set (sl' := put_slave (link_slot (pvt.slaves vm)) (Some s) (pvt.slaves vm)) in *.
  set (vm1 := pvt.set_slaves sl' vm) in *.
  set (vs1 := if decide (s = m) then vm1 else vs) in *.
  destruct (slots_of_link_slot s (pvt.slaves vm)) as [Hge Hone].
  assert (Hm' : exists vm', (<[s := pvt.set_master (Some m) vs1]> (<[m := vm1]> (pvts w))) !! m
                            = Some vm' /\ pvt.slaves vm' = sl').
  { destruct (decide (s = m)) as [->|Hne].
    - eexists. split; [apply lookup_insert_eq|].
      unfold vs1; try rewrite decide_True by reflexivity.
      unfold vm1. destruct vm; reflexivity.
    - exists vm1. split.
      + rewrite lookup_insert_ne by congruence. apply lookup_insert_eq.
      + unfold vm1. destruct vm; reflexivity. }
  destruct Hm' as (vm' & Hvm' & Hsl').
  destruct (put_slave_spec (link_slot (pvt.slaves vm)) (Some s) (pvt.slaves vm))
    as [Hput Hrest].
  pose proof (first_free_slave_spec (pvt.slaves vm)) as Hff.
  eexists. exists (pvt.set_master (Some m) vs1), vm', (link_slot (pvt.slaves vm)).
  eexists. eexists.
  split; [exact Hrun|]. cbn [pvts trace].
  split; [apply lookup_insert_eq|].
  split; [exact Hvm'|].
  split; [destruct vs1; reflexivity|].
  rewrite Hsl'.
  split; [exact Hput|].
  split; [exact Hrest|].
  split.
  { unfold link_slot. destruct (first_free_slave (pvt.slaves vm)) as [x|].
    - left. exact Hff.
    - right. split; [reflexivity | exact Hff]. }
  split; [split; [exact Hge | apply slots_of_bounds]|].
  split; [exact Hone|].
  split; [symmetry; apply app_assoc|].
  split.
  { intros Hfull. destruct (first_free_slave (pvt.slaves vm)) as [x|]; [|reflexivity].
    destruct Hff as [Hx _]. destruct (Hfull x Hx). }
  split.
  { intros [y Hy]. destruct (first_free_slave (pvt.slaves vm)) as [x|]; [reflexivity|].
    destruct (Hff y Hy). }
  split; [destruct (pvt.master vs); [reflexivity | intros H; destruct (H eq_refl)]|].
  split; [intros ->; reflexivity|].
  intros e ve Hfull He Hne Hve.
  rewrite lookup_insert_ne by congruence.
  destruct (decide (m = e)) as [->|Hme].
  - rewrite lookup_insert_eq. eexists. split; [reflexivity|].
    rewrite Hm in Hve. inversion Hve; subst. unfold vm1. destruct ve; reflexivity.
  - rewrite lookup_insert_ne by congruence. exists ve. split; [exact Hve | reflexivity].
Qed.

Lemma dahdi_link_links_witness :
  exists (w' : world) (vs' vm' : pvt.t) (x : slaveidx) (t1 t2 : list event),
    dahdi_link (Some 6%nat) (Some 1%nat) world_full = Some (tt, w') /\
    pvts w' !! 6%nat = Some vs' /\
    pvts w' !! 1%nat = Some vm' /\
    pvt.master vs' = Some 1%nat /\
    get_slave (pvt.slaves vm') x = Some 6%nat /\
    (forall y, y <> x -> get_slave (pvt.slaves vm') y = get_slave (pvt.slaves line_full) y) /\
    ((get_slave (pvt.slaves line_full) x = None /\
      forall y, slaveidx_to_Z y < slaveidx_to_Z x ->
                get_slave (pvt.slaves line_full) y <> None) \/
     (x = SLAVE3 /\ forall y, get_slave (pvt.slaves line_full) y <> None)) /\
    (1 <= slots_of 6 (pvt.slaves vm') <= 4)%nat /\
    (slots_of 6 (pvt.slaves line_full) = 0%nat -> slots_of 6 (pvt.slaves vm') = 1%nat) /\
    trace w' = trace world_full ++ t1 ++ t2 /\
    ((forall y, get_slave (pvt.slaves line_full) y <> None) ->
     t1 = [Log LOG_WARNING "Replacing slave with new slave"]) /\
    ((exists y, get_slave (pvt.slaves line_full) y = None) -> t1 = []) /\
    (pvt.master (line SIG_FXOKS 6 1 (sub_open 60 None)) <> None ->
     t2 = [Log LOG_WARNING "Replacing master with new master"]) /\
    (pvt.master (line SIG_FXOKS 6 1 (sub_open 60 None)) = None -> t2 = []) /\
    (forall e ve,
        (forall y, get_slave (pvt.slaves line_full) y <> None) ->
        get_slave (pvt.slaves line_full) SLAVE3 = Some e ->
        e <> 6%nat ->
        pvts world_full !! e = Some ve ->
        exists ve', pvts w' !! e = Some ve' /\ pvt.master ve' = pvt.master ve).
Proof.
  apply (dahdi_link_links 6%nat 1%nat (line SIG_FXOKS 6 1 (sub_open 60 None))
           line_full world_full).
  - reflexivity.
  - reflexivity.
  - intros old H. discriminate H.
  - intros old H. inversion H; subst. vm_compute. eauto.
Defined.

(** ** Slave-native mode *)

Lemma no_threeway_spec (v : pvt.t) :
  no_threeway v = true <->
  forall x, -1 < sub.dfd (psub v x) -> sub.inthreeway (psub v x) = false.
Proof.
  unfold no_threeway, all_subs. cbn [fold_left].
  split.
  - intros H x Hx.
    destruct (sub.inthreeway (psub v x)) eqn:Hi; [|reflexivity].
    apply Z.ltb_lt in Hx.
    destruct x; rewrite Hx, Hi in H; cbn in H;
      repeat match type of H with
             | (if ?c then _ else _) = _ => destruct c
             end; congruence.
  - intros H.
    assert (Hx : forall x, (-1 <? sub.dfd (psub v x)) && sub.inthreeway (psub v x) = false).
    { intros x. destruct (-1 <? sub.dfd (psub v x)) eqn:Hd; [|reflexivity].
      apply Z.ltb_lt in Hd. rewrite (H x Hd). reflexivity. }
    rewrite (Hx SUB_REAL), (Hx SUB_CALLWAIT), (Hx SUB_THREEWAY). reflexivity.
Qed.

Lemma one_slave_unique (sl : slaves_t) (s s' : nat) (x : slaveidx) :
  one_slave sl s' -> get_slave sl x = Some s -> s' = s.
Proof.
  intros (y & Hy & Hothers) Hx.
  destruct (decide (x = y)) as [->|Hne]; [congruence|].
  rewrite (Hothers x Hne) in Hx. discriminate.
Qed.

Lemma scan_slaves_spec (sl : slaves_t) :
  match scan_slaves (slaves_list sl) None with
  | (Some s, true) => one_slave sl s
  | (Some _, false) => False
  | (None, _) => forall s, ~ one_slave sl s
  end.
Proof.
  destruct sl as [[a|] [b|] [c|] [d|]]; cbn;
    try (intros s (x & Hx & Ho);
         solve [ destruct x; cbn in Hx;
                 first [ discriminate
                       | pose proof (Ho SLAVE0) as H0; pose proof (Ho SLAVE1) as H1;
                         pose proof (Ho SLAVE2) as H2; pose proof (Ho SLAVE3) as H3;
                         cbn in H0, H1, H2, H3;
                         first [ specialize (H0 ltac:(discriminate)); discriminate
                               | specialize (H1 ltac:(discriminate)); discriminate
                               | specialize (H2 ltac:(discriminate)); discriminate
                               | specialize (H3 ltac:(discriminate)); discriminate ] ] ]).
  all: first
    [ exists SLAVE0; split; [reflexivity | intros y Hy; destruct y; cbn; congruence]
    | exists SLAVE1; split; [reflexivity | intros y Hy; destruct y; cbn; congruence]
    | exists SLAVE2; split; [reflexivity | intros y Hy; destruct y; cbn; congruence]
    | exists SLAVE3; split; [reflexivity | intros y Hy; destruct y; cbn; congruence] ].
Qed.

(** [isslavenative] on a master one of whose slots holds the line [s]:
    it reads, changes nothing, and answers yes exactly when no allocated
    sub-channel is in a three-way call, [s] is the one slave, and the
    laws agree. *)
Lemma isslavenative_run (p s : nat) (x : slaveidx) (v vs : pvt.t) (w : world) :
  pvts w !! p = Some v ->
  get_slave (pvt.slaves v) x = Some s ->
  pvts w !! s = Some vs ->
  exists (usn : bool) (sl : option nat),
    isslavenative p w = Some ((usn, sl), w) /\
    (usn = true <-> code_slave_native v vs s) /\
    (usn = true -> sl = Some s).
Proof.
  intros Hp Hx Hs. unfold isslavenative.
  rewrite (bind_run _ _ _ _ _ (rd_run _ _ _ Hp)).
  pose proof (no_threeway_spec v) as Hnt.
  pose proof (scan_slaves_spec (pvt.slaves v)) as Hscan.
  destruct (no_threeway v).
  - destruct (scan_slaves (slaves_list (pvt.slaves v)) None) as [[s'|] b].
    + destruct b; [|contradiction].
      assert (s' = s) by (eapply one_slave_unique; eassumption). subst s'.
      rewrite (bind_run _ _ _ _ _ (rd_run _ _ _ Hs)).
      destruct (pvt.law vs =? pvt.law v) eqn:Hlaw; cbn [negb].
      * apply Z.eqb_eq in Hlaw. exists true, (Some s).
        split; [reflexivity|]. split; [|reflexivity].
        split; [|reflexivity]. intros _. split; [apply Hnt; reflexivity|].
        split; assumption.
      * apply Z.eqb_neq in Hlaw. exists false, None.
        split; [reflexivity|]. split; [|discriminate].
        split; [discriminate|]. intros (_ & _ & Hl). contradiction.
    + exists false, None. split; [reflexivity|]. split; [|discriminate].
      split; [discriminate|]. intros (_ & Ho & _). exfalso. eapply Hscan. exact Ho.
  - exists false, None. split; [reflexivity|]. split; [|discriminate].
    split; [discriminate|]. intros (Hn & _ & _). apply Hnt in Hn. discriminate.
Qed.

(** ** C7: a DTMF frame in the native bridge loop *)

(** C7.  Take a turn of the bridge loop that passes the re-validation
    and in which the leg [wh] delivers a DTMF frame [f].  If the line of
    [wh] does not dial by pulses, the loop ends at this turn whatever
    would come next: it returns AST_BRIDGE_COMPLETE with [f] as the
    output frame and [wh] as the leg that produced it, and writes the
    frame to nobody.  If the line dials by pulses, [f] is written to the
    other leg and the loop goes on with the next turn, the priority
    swapped. *)
Theorem bridge_dtmf_frame (s : bridge_saved) (v v' : bridge_vars) (inp : bridge_input)
    (rest : list bridge_input) (w : world) (p0 p1 : pvt.t) (wh : nat) (f : ast_frame) :
  pvts w !! op0 s = Some p0 ->
  pvts w !! op1 s = Some p1 ->
  bridge_validate s v w = Some (Some v', w) ->
  who inp = Some wh ->
  frame inp = Some f ->
  frametype f = AST_FRAME_DTMF ->
  if leg_pulsedial s p0 p1 wh then
    bridge_loop s v (inp :: rest) w =
      bridge_loop s (mk_vars (i0 v') (i1 v') (negb (priority v')) (timeleft inp)) rest
        (mk_world (pvts w) (chans w) (trace w ++ [AstWrite (other_leg s p0 wh) f]))
  else
    bridge_loop s v (inp :: rest) w =
      Some (Some (mk_return AST_BRIDGE_COMPLETE (Some f) (Some wh)), w).
Proof.
  intros Hp0 Hp1 Hval Hwho Hframe Htype.
  cbn [bridge_loop]. unfold bridge_step.
  rewrite bind_assoc, (bind_run _ _ _ _ _ Hval).
  unfold bridge_deliver. rewrite Hwho, Hframe, Htype.
  cbn [i0 i1 priority timeoutms].
  rewrite !bind_assoc.
  rewrite (bind_run _ _ _ _ _ (rd_run _ _ _ Hp0)).
  rewrite bind_assoc, (bind_run _ _ _ _ _ (rd_run _ _ _ Hp1)).
  unfold leg_pulsedial, other_leg.
  destruct (Nat.eqb wh (c0 s) && pvt.pulsedial p0); cbn [orb].
  - unfold emit. repeat mstep. reflexivity.
  - destruct (Nat.eqb wh (c1 s) && pvt.pulsedial p1).
    + unfold emit. repeat mstep. reflexivity.
    + repeat mstep. reflexivity.
Qed.

Lemma bridge_dtmf_frame_witness :
  bridge_loop saved_talking vars_start
    (mk_input (Some 100%nat) 900 (Some dtmf_5) :: [mk_input None 800 None]) world_talking =
  Some (Some (mk_return AST_BRIDGE_COMPLETE (Some dtmf_5) (Some 100%nat)), world_talking).
Proof.
  apply (bridge_dtmf_frame saved_talking vars_start
           (mk_vars (Some SUB_REAL) (Some SUB_REAL) false 1000)
           (mk_input (Some 100%nat) 900 (Some dtmf_5)) [mk_input None 800 None]
           world_talking
           (pvt.set_owner (Some 100%nat) (line SIG_FXOKS 1 1 (sub_open 10 (Some 100%nat))))
           (pvt.set_owner (Some 200%nat) (line SIG_FXOKS 2 1 (sub_open 20 (Some 200%nat))))
           100%nat dtmf_5); reflexivity.
Defined.

(** ** Runs that keep an invariant of a line *)

Lemma triple_bind {A B} (P : world -> Prop) (Q : A -> world -> Prop)
    (R : B -> world -> Prop) (m : M A) (k : A -> M B) :
  triple P m Q -> (forall a, triple (Q a) (k a) R) -> triple P (bind m k) R.
Proof.
  intros Hm Hk w Hw. destruct (Hm w Hw) as (a & w1 & Hrun & Hq).
  rewrite (bind_run _ _ _ _ _ Hrun). apply (Hk a). exact Hq.
Qed.

Lemma triple_ret {A} (P : world -> Prop) (Q : A -> world -> Prop) (a : A) :
  (forall w, P w -> Q a w) -> triple P (ret a) Q.
Proof. intros H w Hw. exists a, w. split; [reflexivity | auto]. Qed.

Lemma triple_pre {A} (P P' : world -> Prop) (Q : A -> world -> Prop) (m : M A) :
  triple P m Q -> (forall w, P' w -> P w) -> triple P' m Q.
Proof. intros Hm Hp w Hw. apply Hm. auto. Qed.

Lemma triple_when (P : world -> Prop) (b : bool) (m : M unit) :
  triple P m (fun _ => P) -> triple P (when b m) (fun _ => P).
Proof. intros H. destruct b; [exact H | apply triple_ret; auto]. Qed.

Lemma triple_pure {A} (phi : Prop) (P : world -> Prop) (Q : A -> world -> Prop) (m : M A) :
  (phi -> triple P m Q) -> triple (fun w => phi /\ P w) m Q.
Proof. intros H w [Hphi Hw]. exact (H Hphi w Hw). Qed.

Ltac tstep lem := eapply triple_bind; [apply lem |]; intros ?.
Ltac tpure := apply triple_pure; intros ?.

Section Invariant.

Variable K : env.
Variable p : nat.
Variable P : pvt.t -> Prop.
Variable cs : gmap nat chn.t.

Lemma triple_emit (e : event) : triple (inv p P cs) (emit e) (fun _ => inv p P cs).
Proof. intros w Hw. eexists. eexists. split; [reflexivity|]. exact Hw. Qed.

Lemma triple_log (l : loglevel) (msg : string) :
  triple (inv p P cs) (ast_log l msg) (fun _ => inv p P cs).
Proof. apply triple_emit. Qed.

Lemma triple_history : triple (inv p P cs) history (fun _ => inv p P cs).
Proof. intros w Hw. eexists. eexists. split; [reflexivity|]. exact Hw. Qed.

Lemma triple_hw (c : hwcall) : triple (inv p P cs) (hw K c) (fun _ => inv p P cs).
Proof.
  unfold hw. eapply triple_bind; [apply triple_history|]. intros h.
  eapply triple_bind; [apply triple_emit|]. intros ?.
  apply triple_ret. auto.
Qed.

Lemma triple_rd : triple (inv p P cs) (rd p) (fun v w => P v /\ inv p P cs w).
Proof.
  intros w Hw. pose proof Hw as (Hc & v & Hv & HP).
  exists v, w. split; [apply rd_run; exact Hv|]. split; assumption.
Qed.

Lemma triple_wr (Q : pvt.t -> Prop) (f : pvt.t -> pvt.t) :
  (forall v, P v -> Q (f v)) ->
  triple (inv p P cs) (wr p f) (fun _ => inv p Q cs).
Proof.
  intros Hf w (Hc & v & Hv & HP).
  eexists. eexists. split; [apply wr_run; exact Hv|].
  split; [exact Hc|]. exists (f v). split; [apply lookup_insert_eq | auto].
Qed.

Lemma triple_rdc (c : nat) (ch : chn.t) :
  cs !! c = Some ch ->
  triple (inv p P cs) (rdc c) (fun r w => r = ch /\ inv p P cs w).
Proof.
  intros Hch w Hw. pose proof Hw as (Hc & _).
  exists ch, w. split; [apply rdc_run; rewrite Hc; exact Hch|]. split; [reflexivity | exact Hw].
Qed.

Lemma triple_wrc (c : nat) (ch : chn.t) (f : chn.t -> chn.t) :
  cs !! c = Some ch ->
  triple (inv p P cs) (wrc c f) (fun _ => inv p P (<[c := f ch]> cs)).
Proof.
  intros Hch w (Hc & Hv).
  eexists. eexists. split; [apply wrc_run; rewrite Hc; exact Hch|].
  split; [cbn; rewrite Hc; reflexivity | exact Hv].
Qed.

Lemma triple_tech_pvt (ast : nat) (ch : chn.t) :
  cs !! ast = Some ch ->
  chn.tech_pvt ch = Some p ->
  triple (inv p P cs) (tech_pvt ast) (fun r w => r = p /\ inv p P cs w).
Proof.
  intros Hch Ht. unfold tech_pvt.
  eapply triple_bind; [apply (triple_rdc _ _ Hch)|]. intros r.
  apply triple_pure. intros ->. rewrite Ht. apply triple_ret. auto.
Qed.

Lemma triple_tone (fd tone : Z) :
  triple (inv p P cs) (tone_zone_play_tone K fd tone) (fun _ => inv p P cs).
Proof. apply triple_hw. Qed.

Lemma triple_set_hook (fd hs : Z) :
  triple (inv p P cs) (dahdi_set_hook K fd hs) (fun _ => inv p P cs).
Proof.
  unfold dahdi_set_hook.
  eapply triple_bind; [apply triple_history|]. intros h.
  eapply triple_bind; [apply triple_hw|]. intros r.
  destruct (r <? 0); [|apply triple_ret; auto].
  destruct (_ =? _); [apply triple_ret; auto|].
  eapply triple_bind; [apply triple_log|]. intros ?. apply triple_ret. auto.
Qed.

Hypothesis P_echocanon : forall v b, P v -> P (pvt.set_echocanon b v).

Lemma triple_enable_ec :
  triple (inv p P cs) (dahdi_enable_ec K p) (fun _ => inv p P cs).
Proof.
  unfold dahdi_enable_ec.
  eapply triple_bind; [apply triple_rd|]. intros v.
  eapply triple_pre with (P := inv p P cs); [|intros w [_ H]; exact H].
  destruct (pvt.echocanon v); [apply triple_ret; auto|].
  destruct (pvt.digital v); [apply triple_ret; auto|].
  destruct (negb _); [|apply triple_ret; auto].
  eapply triple_bind with (Q := fun _ => inv p P cs).
  { destruct (sig_is_digital _); [|apply triple_ret; auto].
    eapply triple_bind; [apply triple_hw|]. intros r.
    apply triple_when. apply triple_log. }
  intros ?. eapply triple_bind; [apply triple_hw|]. intros r.
  destruct (negb _); [apply triple_log|].
  apply triple_wr. auto.
Qed.

Lemma triple_train_ec :
  triple (inv p P cs) (dahdi_train_ec K p) (fun _ => inv p P cs).
Proof.
  unfold dahdi_train_ec.
  eapply triple_bind; [apply triple_rd|]. intros v.
  eapply triple_pre with (P := inv p P cs); [|intros w [_ H]; exact H].
  destruct (_ && _); [|apply triple_ret; auto].
  eapply triple_bind; [apply triple_hw|]. intros r.
  apply triple_when. apply triple_log.
Qed.

Lemma triple_disable_ec :
  triple (inv p P cs) (dahdi_disable_ec K p) (fun _ => inv p P cs).
Proof.
  unfold dahdi_disable_ec.
  eapply triple_bind; [apply triple_rd|]. intros v.
  eapply triple_pre with (P := inv p P cs); [|intros w [_ H]; exact H].
  eapply triple_bind with (Q := fun _ => inv p P cs).
  { destruct (pvt.echocanon v); [|apply triple_ret; auto].
    eapply triple_bind; [apply triple_hw|]. intros r.
    apply triple_when. apply triple_log. }
  intros ?. apply triple_wr. auto.
Qed.

End Invariant.

Lemma swapped_same_subs (a b : subidx) (v v0 : pvt.t) :
  pvt.subs v = pvt.subs v0 ->
  pvt.subs (swapped a b v) = pvt.subs (swapped a b v0) /\
  (forall cs, legs_swapped a b v cs = legs_swapped a b v0 cs) /\
  (forall x, psub v x = psub v0 x).
Proof.
  intros H. destruct v, v0. cbn in H. subst.
  repeat split.
Qed.

Lemma triple_swap (p : nat) (a b : subidx) (v0 : pvt.t) (P : pvt.t -> Prop)
    (cs : gmap nat chn.t) :
  (forall v, P v -> pvt.subs v = pvt.subs v0) ->
  (forall x o, sub.owner (psub v0 x) = Some o -> is_Some (cs !! o)) ->
  triple (inv p P cs) (swap_subs p a b)
    (fun _ => inv p (fun v' => exists v, P v /\ v' = swapped a b v)
                (legs_swapped a b v0 cs)).
Proof.
  intros Hsubs Hknown w (Hc & v & Hv & HP).
  destruct (swapped_same_subs a b v v0 (Hsubs v HP)) as (_ & Hlegs & Hpsub).
  assert (Hk : owners_known v w).
  { intros x o Ho. rewrite Hc. apply (Hknown x). rewrite <- Hpsub. exact Ho. }
  eexists. eexists. split; [apply swap_subs_run; eassumption|].
  split.
  - cbn [chans]. rewrite Hc. apply Hlegs.
  - exists (swapped a b v). split; [apply lookup_insert_eq|]. eauto.
Qed.

Lemma triple_get_index_real (p ast : nat) (nullok : bool) (P : pvt.t -> Prop)
    (cs : gmap nat chn.t) :
  (forall v, P v -> sub.owner (psub v SUB_REAL) = Some ast) ->
  triple (inv p P cs) (dahdi_get_index ast p nullok)
    (fun r w => r = Some SUB_REAL /\ inv p P cs w).
Proof.
  intros Hreal w Hw. pose proof Hw as (Hc & v & Hv & HP).
  unfold dahdi_get_index. rewrite (bind_run _ _ _ _ _ (rd_run _ _ _ Hv)).
  rewrite (Hreal v HP). cbn [opt_nat_eqb]. rewrite Nat.eqb_refl.
  eexists. eexists. split; [reflexivity|]. split; [reflexivity | exact Hw].
Qed.

(** ** C6: answering with a three-way leg pending *)

Lemma answer_swapped_echocanon (v v' : pvt.t) (b : bool) :
  answer_swapped v v' -> answer_swapped v (pvt.set_echocanon b v').
Proof. intros [H1 H2]. destruct v'. split; assumption. Qed.

Lemma dahdi_answer_run (K : env) (answer_digital : nat -> nat -> M Z)
    (ast p : nat) (c : chn.t) (v : pvt.t) (w : world) :
  chans w !! ast = Some c ->
  chn.tech_pvt c = Some p ->
  pvts w !! p = Some v ->
  pvt.radio v = 0 ->
  0 <= pvt.oprmode v ->
  answer_analog_sig (pvt.sig v) = true ->
  sub.owner (psub v SUB_REAL) = Some ast ->
  sub.inthreeway (psub v SUB_THREEWAY) = true ->
  chn._state c = AST_STATE_RINGING ->
  owners_known v w ->
  exists (r : Z) (w' : world) (v' : pvt.t),
    dahdi_answer K answer_digital ast w = Some (r, w') /\
    pvts w' !! p = Some v' /\
    answer_swapped v v'.
Proof.
  intros Hc Ht Hp Hradio Hopr Hsig Hreal H3 Hring Hk.
  set (cs1 := <[ast := chn.set__state AST_STATE_UP c]> (chans w)).
  assert (Hstart : inv p (answer_keeps v) (chans w) w).
  { split; [reflexivity|]. exists v. split; [exact Hp|]. repeat split. }
  assert (Hkeep_psub : forall v1 x, answer_keeps v v1 -> psub v1 x = psub v x).
  { intros v1 x (Hs & _). unfold psub. rewrite Hs. reflexivity. }
  cut (triple (inv p (answer_keeps v) (chans w)) (dahdi_answer K answer_digital ast)
         (fun _ w' => exists v', pvts w' !! p = Some v' /\ answer_swapped v v')).
  { intros Htr. destruct (Htr w Hstart) as (r & w' & Hrun & v' & Hv' & Hpost).
    exists r, w', v'. auto. }
  unfold dahdi_answer.
  tstep (triple_tech_pvt p (answer_keeps v) (chans w) ast c Hc Ht). tpure. subst.
  tstep (triple_rdc p (answer_keeps v) (chans w) ast c Hc). tpure. subst.
  eapply triple_bind;
    [apply (triple_wrc p (answer_keeps v) (chans w) ast c _ Hc)|]. intros ?.
  fold cs1.
  eapply triple_bind.
  { apply triple_get_index_real. intros v1 Hv1.
    rewrite (Hkeep_psub v1 SUB_REAL Hv1). exact Hreal. }
  intros oi. tpure. subst oi.
  tstep triple_rd. apply triple_pure. intros Hv1.
  pose proof Hv1 as (Hs1 & Hsig1 & Hrad1 & Hopr1 & Hpol1).
  rewrite Hrad1, Hradio, Hopr1, Hsig1, Hsig.
  replace (pvt.oprmode v <? 0) with false by (symmetry; apply Z.ltb_ge; exact Hopr).
  cbn [Z.eqb negb orb].
  assert (Hset : forall (f : pvt.t -> pvt.t),
             (forall x, pvt.subs (f x) = pvt.subs x /\ pvt.sig (f x) = pvt.sig x /\
                        pvt.radio (f x) = pvt.radio x /\ pvt.oprmode (f x) = pvt.oprmode x /\
                        pvt.hanguponpolarityswitch (f x) = pvt.hanguponpolarityswitch x) ->
             triple (inv p (answer_keeps v) cs1) (wr p f)
                    (fun _ => inv p (answer_keeps v) cs1)).
  { intros f Hf. apply triple_wr. intros x (E1 & E2 & E3 & E4 & E5).
    destruct (Hf x) as (F1 & F2 & F3 & F4 & F5).
    repeat split; congruence. }
  eapply triple_bind.
  { apply triple_when. apply Hset. intros x. destruct x. repeat split. }
  intros ?.
  eapply triple_bind.
  { tstep triple_history. apply triple_when. apply Hset.
    intros x. destruct x. repeat split. }
  intros ?.
  tstep triple_set_hook.
  tstep (triple_tone K).
  eapply triple_bind; [apply Hset; intros x; destruct x; repeat split|]. intros ?.
  tstep triple_rd. apply triple_pure. intros Hv2.
  rewrite (Hkeep_psub _ SUB_THREEWAY Hv2), H3, Hring.
  cbn [subidx_eqb andb ast_state_eqb].
  eapply triple_bind with (Q := fun _ => inv p (answer_swapped v)
                                    (legs_swapped SUB_THREEWAY SUB_REAL v cs1)).
  { tstep (triple_tone K).
    eapply triple_bind.
    { apply (triple_swap p SUB_THREEWAY SUB_REAL v).
      - intros x (E & _). exact E.
      - intros x o Ho. unfold cs1. rewrite lookup_insert.
        case_decide; [eauto|]. exact (Hk x o Ho). }
    intros ?. apply triple_wr.
    intros x (x0 & Hx0 & ->).
    destruct (swapped_same_subs SUB_THREEWAY SUB_REAL x0 v (proj1 Hx0)) as (E & _ & _).
    split.
    - rewrite <- E. destruct (swapped SUB_THREEWAY SUB_REAL x0). reflexivity.
    - destruct (swapped SUB_THREEWAY SUB_REAL x0). reflexivity. }
  intros ?.
  eapply triple_bind with (Q := fun _ => inv p (answer_swapped v)
                                    (legs_swapped SUB_THREEWAY SUB_REAL v cs1)).
  { apply triple_when.
    tstep triple_enable_ec; [apply answer_swapped_echocanon|].
    apply triple_train_ec. }
  intros ?. apply triple_ret.
  intros w' (_ & v' & Hv' & Hpost). exists v'. auto.
Qed.

(** C6 as stated fails in its conclusion.  On [world_ringing] the line
    is kewlstart and not a radio, leg 100 owns Real and is Ringing,
    ThreeWay is flagged in-three-way and owned by leg 300.  Answering
    leg 100 swaps the two roles, and then the answered leg 100 is not
    the primary party: it owns ThreeWay, while Real and the line itself
    are owned by leg 300, the party that was on ThreeWay. *)
Lemma answered_leg_is_not_primary :
  pvt.radio line_ringing = 0 /\
  answer_analog_sig (pvt.sig line_ringing) = true /\
  sub.owner (psub line_ringing SUB_REAL) = Some 100%nat /\
  sub.inthreeway (psub line_ringing SUB_THREEWAY) = true /\
  chans world_ringing !! 100%nat = Some (leg AST_STATE_RINGING 10 1) /\
  exists (w' : world) (v' : pvt.t),
    dahdi_answer dahdi_linux (fun _ _ => ret 0) 100%nat world_ringing = Some (0, w') /\
    pvts w' !! 1%nat = Some v' /\
    pvt.owner v' = Some 300%nat /\
    sub.owner (psub v' SUB_REAL) = Some 300%nat /\
    sub.owner (psub v' SUB_THREEWAY) = Some 100%nat /\
    pvt.owner v' <> Some 100%nat.
Proof.
  split; [reflexivity|]. split; [reflexivity|]. split; [reflexivity|].
  split; [reflexivity|]. split; [vm_compute; reflexivity|].
  eexists. eexists.
  split; [vm_compute; reflexivity|].
  split; [vm_compute; reflexivity|].
  split; [reflexivity|]. split; [reflexivity|]. split; [reflexivity|].
  intros H; discriminate H.
Qed.

(** C6, amended.  A line that is not a radio line and has an analog
    signalling style (the FXS and FXO families among them) is answered
    on the leg that owns its Real sub-channel, while the ThreeWay
    sub-channel is flagged in-three-way and the leg was Ringing.  Then
    [dahdi_answer] runs to the end, Real and ThreeWay have exchanged
    owner, channel number and three-way flag, every descriptor stays
    with its role, and the owner of the line is the new owner of Real.
    That owner is the leg that was on ThreeWay; the answered leg now
    owns ThreeWay, so it is the primary party only if it owned ThreeWay
    as well. *)
Theorem answer_swaps_real_and_threeway (K : env) (answer_digital : nat -> nat -> M Z)
    (ast p : nat) (c : chn.t) (v : pvt.t) (w : world) :
  chans w !! ast = Some c ->
  chn.tech_pvt c = Some p ->
  pvts w !! p = Some v ->
  pvt.radio v = 0 ->
  0 <= pvt.oprmode v ->
  answer_analog_sig (pvt.sig v) = true ->
  sub.owner (psub v SUB_REAL) = Some ast ->
  sub.inthreeway (psub v SUB_THREEWAY) = true ->
  chn._state c = AST_STATE_RINGING ->
  owners_known v w ->
  exists (r : Z) (w' : world) (v' : pvt.t),
    dahdi_answer K answer_digital ast w = Some (r, w') /\
    pvts w' !! p = Some v' /\
    (sub.owner (psub v' SUB_REAL) = sub.owner (psub v SUB_THREEWAY) /\
     sub.chan (psub v' SUB_REAL) = sub.chan (psub v SUB_THREEWAY) /\
     sub.inthreeway (psub v' SUB_REAL) = sub.inthreeway (psub v SUB_THREEWAY)) /\
    (sub.owner (psub v' SUB_THREEWAY) = sub.owner (psub v SUB_REAL) /\
     sub.chan (psub v' SUB_THREEWAY) = sub.chan (psub v SUB_REAL) /\
     sub.inthreeway (psub v' SUB_THREEWAY) = sub.inthreeway (psub v SUB_REAL)) /\
    (forall x, sub.dfd (psub v' x) = sub.dfd (psub v x)) /\
    pvt.owner v' = sub.owner (psub v' SUB_REAL) /\
    pvt.owner v' = sub.owner (psub v SUB_THREEWAY) /\
    sub.owner (psub v' SUB_THREEWAY) = Some ast /\
    (pvt.owner v' = Some ast <-> sub.owner (psub v SUB_THREEWAY) = Some ast).
Proof.
  intros Hc Ht Hp Hradio Hopr Hsig Hreal H3 Hring Hk.
  destruct (dahdi_answer_run K answer_digital ast p c v w Hc Ht Hp Hradio Hopr Hsig
              Hreal H3 Hring Hk) as (r & w' & v' & Hrun & Hv' & Hsubs & Hown).
  exists r, w', v'.
  assert (Hpsub : forall x, psub v' x = psub (swapped SUB_THREEWAY SUB_REAL v) x).
  { intros x. unfold psub. rewrite Hsubs. reflexivity. }
  destruct (swapped_bindings SUB_THREEWAY SUB_REAL v) as (B1 & B2 & B3 & B4).
  split; [exact Hrun|]. split; [exact Hv'|].
  rewrite !Hpsub.
  rewrite (swapped_owner_a SUB_THREEWAY SUB_REAL), (swapped_owner_b SUB_THREEWAY SUB_REAL).
  assert (Howner : pvt.owner v' = sub.owner (psub v SUB_THREEWAY)).
  { rewrite Hown, Hpsub. apply (swapped_owner_b SUB_THREEWAY SUB_REAL). }
  split; [repeat split; assumption|]. split; [repeat split; assumption|].
  split; [intros x; rewrite Hpsub; apply swapped_dfd|].
  split; [exact Howner|]. split; [exact Howner|].
  split; [exact Hreal|].
  rewrite Howner. tauto.
Qed.

Lemma answer_swaps_real_and_threeway_witness :
  exists (r : Z) (w' : world) (v' : pvt.t),
    dahdi_answer dahdi_linux (fun _ _ => ret 0) 100%nat world_ringing = Some (r, w') /\
    pvts w' !! 1%nat = Some v' /\
    (sub.owner (psub v' SUB_REAL) = Some 300%nat /\
     sub.chan (psub v' SUB_REAL) = 7 /\
     sub.inthreeway (psub v' SUB_REAL) = true) /\
    (sub.owner (psub v' SUB_THREEWAY) = Some 100%nat /\
     sub.chan (psub v' SUB_THREEWAY) = 0 /\
     sub.inthreeway (psub v' SUB_THREEWAY) = true) /\
    (forall x, sub.dfd (psub v' x) = sub.dfd (psub line_ringing x)) /\
    pvt.owner v' = sub.owner (psub v' SUB_REAL) /\
    pvt.owner v' = Some 300%nat /\
    sub.owner (psub v' SUB_THREEWAY) = Some 100%nat /\
    (pvt.owner v' = Some 100%nat <-> Some 300%nat = Some 100%nat).
Proof.
  apply (answer_swaps_real_and_threeway dahdi_linux (fun _ _ => ret 0) 100%nat 1%nat
           (leg AST_STATE_RINGING 10 1) line_ringing world_ringing);
    try reflexivity.
  intros x o Ho. destruct x; cbn in Ho; inversion Ho; subst; vm_compute; eauto.
Defined.

(** ** C4: the bounce after a flash *)

(** C4 as stated fails.  On [world_flash] the line is kewlstart, leg 300
    holds the three-way sub-channel, and no time at all has passed since
    the last flash.  A flash event now is not treated as a bounce: the
    handler returns a frame (so the Real leg is not hung up), queues no
    hangup and sets no soft-hangup flag on leg 300, and flags both
    sub-channels in-three-way, which merges the legs into a
    conference. *)
Lemma flash_in_window_builds_conference :
  0 <= ast_tvdiff_ms dahdi_linux (ast_tvnow dahdi_linux (trace world_flash))
         (pvt.flashtime line_flash) < MIN_MS_SINCE_FLASH /\
  exists (f : ast_frame) (w' : world) (v' : pvt.t) (c3 : chn.t),
    handle_event_linux 100%nat DAHDI_EVENT_WINKFLASH world_flash = Some (Some f, w') /\
    pvts w' !! 1%nat = Some v' /\
    sub.inthreeway (psub v' SUB_REAL) = true /\
    sub.inthreeway (psub v' SUB_THREEWAY) = true /\
    chans w' !! 300%nat = Some c3 /\
    chn._softhangup c3 = 0 /\
    chn.readq c3 = [Q_NULL_FRAME].
Proof.
  split; [vm_compute; split; [intros H; discriminate H | reflexivity]|].
  eexists. eexists. eexists. eexists.
  split; [vm_compute; reflexivity|].
  split; [vm_compute; reflexivity|].
  split; [reflexivity|]. split; [reflexivity|].
  split; [vm_compute; reflexivity|].
  split; reflexivity.
Qed.

Lemma mssinceflash_in_window (K : env) (now flashtime : timeval) :
  0 <= ast_tvdiff_ms K now flashtime < MIN_MS_SINCE_FLASH ->
  (mssinceflash K now flashtime <? MIN_MS_SINCE_FLASH) = true.
Proof.
  intros H. unfold mssinceflash. apply Z.ltb_lt.
  unfold MIN_MS_SINCE_FLASH in *.
  rewrite Z.mod_small; lia.
Qed.

(** The flash arm overwrites [flashtime] before anything reads it: on a
    line that is not in alarm, not a radio and in operator mode 0 or 1,
    a flash on the Real leg is handled the same way whatever the time of
    the last flash. *)
Lemma winkflash_forgets_flashtime (K : env)
    (onhook_oprmode : nat -> M unit) (start_threeway : nat -> nat -> M unit)
    (winkflash_other : nat -> nat -> signalling -> M (option ast_frame))
    (other_event : nat -> nat -> subidx -> Z -> M (option ast_frame))
    (fuel : nat) (ast p : nat) (c : chn.t) (v : pvt.t) (w : world) (ft : timeval) :
  chans w !! ast = Some c ->
  chn.tech_pvt c = Some p ->
  pvts w !! p = Some v ->
  pvt.inalarm v = false ->
  pvt.radio v = 0 ->
  0 <= pvt.oprmode v <= 1 ->
  sub.owner (psub v SUB_REAL) = Some ast ->
  dahdi_handle_event K onhook_oprmode start_threeway winkflash_other other_event
    fuel ast DAHDI_EVENT_WINKFLASH (flashed_at p ft w) =
  dahdi_handle_event K onhook_oprmode start_threeway winkflash_other other_event
    fuel ast DAHDI_EVENT_WINKFLASH w.
Proof.
  intros Hc Ht Hp Halarm Hradio Hopr Hreal.
  assert (Hrun : forall w0 v0,
             chans w0 = chans w -> trace w0 = trace w ->
             pvts w0 = <[p := v0]> (pvts w) ->
             pvt.set_flashtime (ast_tvnow K (trace w)) v0 =
               pvt.set_flashtime (ast_tvnow K (trace w)) v ->
             pvt.subs v0 = pvt.subs v -> pvt.inalarm v0 = pvt.inalarm v ->
             pvt.radio v0 = pvt.radio v -> pvt.oprmode v0 = pvt.oprmode v ->
             pvt.outsigmod v0 = pvt.outsigmod v -> pvt.sig v0 = pvt.sig v ->
             dahdi_handle_event K onhook_oprmode start_threeway winkflash_other other_event
               fuel ast DAHDI_EVENT_WINKFLASH w0 =
             (let mysig := match pvt.outsigmod v with Some s => s | None => pvt.sig v end in
              if sig_is_fxo mysig then
                wr p (pvt.set_callwaitcas 0) ;;
                (if is_some (sub.owner (psub v SUB_CALLWAIT)) then winkflash_callwait K p
                 else if negb (is_some (sub.owner (psub v SUB_THREEWAY)))
                      then start_threeway ast p
                      else winkflash_threeway K ast p) ;;
                do _ <- update_conf K p;
                ret (Some null_frame)
              else winkflash_other ast p mysig)
               (mk_world (<[p := pvt.set_flashtime (ast_tvnow K (trace w)) v]> (pvts w))
                  (chans w) (trace w))).
  { intros w0 v0 Hcs Htr Hps Hft Hsubs Hal Hrd Hop Hos Hsg.
    assert (Hp0 : pvts w0 !! p = Some v0) by (rewrite Hps; apply lookup_insert_eq).
    assert (Hpsub : forall x, psub v0 x = psub v x).
    { intros x. unfold psub. rewrite Hsubs. reflexivity. }
    unfold dahdi_handle_event, tech_pvt.
    erewrite bind_run; [|erewrite bind_run; [|apply rdc_run; rewrite Hcs; exact Hc];
                         rewrite Ht; reflexivity].
    unfold dahdi_get_index. rewrite bind_assoc.
    rewrite (bind_run _ _ _ _ _ (rd_run _ _ _ Hp0)).
    rewrite Hpsub, Hreal. cbn [opt_nat_eqb]. rewrite Nat.eqb_refl. rewrite bind_ret.
    rewrite (bind_run _ _ _ _ _ (rd_run _ _ _ Hp0)).
    unfold handle_winkflash.
    rewrite (bind_run _ _ _ _ _ (rd_run _ _ _ Hp0)).
    rewrite Hal, Halarm, Hrd, Hradio, Hop. cbn [Z.eqb negb].
    replace (pvt.oprmode v <? 0) with false by (symmetry; apply Z.ltb_ge; lia).
    replace (1 <? pvt.oprmode v) with false by (symmetry; apply Z.ltb_ge; lia).
    rewrite Hos, Hsg, !Hpsub.
    erewrite bind_run.
    2:{ unfold history. erewrite bind_run; [|reflexivity].
        rewrite (wr_run _ _ _ _ Hp0). rewrite Htr, Hft, Hcs, Hps, insert_insert_eq.
        reflexivity. }
    cbn zeta.
    destruct (sig_is_fxo _); [|reflexivity].
    rewrite ?bind_assoc. reflexivity. }
  rewrite (Hrun w v eq_refl eq_refl); [| symmetry; apply insert_id; exact Hp | reflexivity..].
  rewrite (Hrun (flashed_at p ft w) (pvt.set_flashtime ft v) eq_refl eq_refl).
  - reflexivity.
  - unfold flashed_at. cbn [pvts]. apply map_eq. intros q.
    destruct (decide (p = q)) as [->|Hne].
    + rewrite lookup_alter_eq, lookup_insert_eq, Hp. reflexivity.
    + rewrite lookup_alter_ne, lookup_insert_ne by congruence. reflexivity.
  - destruct v; reflexivity.
  - destruct v; reflexivity.
  - destruct v; reflexivity.
  - destruct v; reflexivity.
  - destruct v; reflexivity.
  - destruct v; reflexivity.
  - destruct v; reflexivity.
Qed.

(** C4, amended.  The debounce is on the on-hook event, not on a second
    flash.  Take a line with FXO signalling (loop-, ground- or
    kewlstart) that is not a radio line and whose operator mode is not
    negative, a leg on Real, a leg on ThreeWay and none on CallWait.
    When the leg on Real goes on-hook less than 2000 ms after the last
    flash, the event is taken for a bounce: a hangup is queued on the
    three-way leg and its soft-hangup flag is set, and the handler
    returns NULL, which hangs up the leg on Real; no role is swapped and
    no sub-channel is put in a conference.  A flash on that leg is not
    debounced: if the line is not in alarm and its operator mode is at
    most 1, the flash is handled the same way, with the same result,
    whatever the time of the last flash. *)
Theorem onhook_after_flash_is_a_bounce (K : env)
    (onhook_oprmode : nat -> M unit) (start_threeway : nat -> nat -> M unit)
    (winkflash_other : nat -> nat -> signalling -> M (option ast_frame))
    (other_event : nat -> nat -> subidx -> Z -> M (option ast_frame))
    (fuel : nat) (ast p o3 : nat) (c c3 : chn.t) (v : pvt.t) (w : world) :
  chans w !! ast = Some c ->
  chn.tech_pvt c = Some p ->
  pvts w !! p = Some v ->
  pvt.radio v = 0 ->
  0 <= pvt.oprmode v ->
  sig_is_fxo (pvt.sig v) = true ->
  sub.owner (psub v SUB_REAL) = Some ast ->
  sub.owner (psub v SUB_CALLWAIT) = None ->
  sub.owner (psub v SUB_THREEWAY) = Some o3 ->
  chans w !! o3 = Some c3 ->
  0 <= ast_tvdiff_ms K (ast_tvnow K (trace w)) (pvt.flashtime v) < MIN_MS_SINCE_FLASH ->
  (exists (w' : world) (v' : pvt.t),
     dahdi_handle_event K onhook_oprmode start_threeway winkflash_other other_event
       fuel ast DAHDI_EVENT_ONHOOK w = Some (None, w') /\
     pvts w' !! p = Some v' /\
     pvt.subs v' = pvt.subs v /\
     pvt.owner v' = pvt.owner v /\
     chans w' =
       <[o3 := chn.set__softhangup (Z.lor (chn._softhangup c3) AST_SOFTHANGUP_DEV)
                 (chn.set_readq (chn.readq c3 ++ [Q_HANGUP]) c3)]> (chans w)) /\
  (pvt.inalarm v = false ->
   pvt.oprmode v <= 1 ->
   forall ft : timeval,
     dahdi_handle_event K onhook_oprmode start_threeway winkflash_other other_event
       fuel ast DAHDI_EVENT_WINKFLASH (flashed_at p ft w) =
     dahdi_handle_event K onhook_oprmode start_threeway winkflash_other other_event
       fuel ast DAHDI_EVENT_WINKFLASH w).
Proof.
  intros Hc Ht Hp Hradio Hopr Hsig Hreal Hcw H3 Hc3 Hwin.
  split.
  2:{ intros Halarm Hopr1 ft.
      apply (winkflash_forgets_flashtime K onhook_oprmode start_threeway winkflash_other
               other_event fuel ast p c v w ft Hc Ht Hp Halarm Hradio (conj Hopr Hopr1) Hreal). }
  unfold dahdi_handle_event, tech_pvt.
  repeat mstep. rewrite Ht. repeat mstep.
  unfold dahdi_get_index. repeat mstep.
  rewrite Hreal. cbn [opt_nat_eqb]. rewrite Nat.eqb_refl. repeat mstep.
  unfold handle_onhook. repeat mstep.
  rewrite Hradio. cbn [Z.eqb negb].
  replace (pvt.oprmode v <? 0) with false by (symmetry; apply Z.ltb_ge; exact Hopr).
  rewrite Hsig. unfold history. repeat mstep.
  rewrite Hcw, H3. cbn [is_some].
  unfold onhook_threeway, owner_of. repeat mstep.
  cbn [pvts chans trace]. rewrite !insert_insert_eq.
  change (psub (pvt.set_msgstate _ (pvt.set_onhooktime _ v)) SUB_THREEWAY)
    with (psub v SUB_THREEWAY).
  rewrite H3.
  repeat mstep. cbn [pvts chans trace].
  change (pvt.flashtime (pvt.set_msgstate _ (pvt.set_onhooktime _ v)))
    with (pvt.flashtime v).
  rewrite (mssinceflash_in_window K _ _ Hwin).
  unfold ast_queue_hangup, ast_queue, softhangup_dev. repeat mstep.
  cbn [pvts chans trace]. rewrite !insert_insert_eq.
  set (cs' := <[o3 := _]> (chans w)).
  set (w1 := mk_world _ cs' _).
  assert (Hinv : inv p (fun v' => pvt.subs v' = pvt.subs v /\ pvt.owner v' = pvt.owner v)
                   cs' w1).
  { split; [reflexivity|]. eexists. split; [apply lookup_insert_eq|].
    destruct v. split; reflexivity. }
  assert (Hstable : forall x b,
             pvt.subs x = pvt.subs v /\ pvt.owner x = pvt.owner v ->
             pvt.subs (pvt.set_echocanon b x) = pvt.subs v /\
             pvt.owner (pvt.set_echocanon b x) = pvt.owner v).
  { intros x b H. destruct x. exact H. }
  destruct (triple_disable_ec K p _ cs' Hstable w1 Hinv)
    as ([] & w' & Hrun & Hcs & v' & Hv' & Hsubs & Hown).
  exists w', v'. rewrite (bind_run _ _ _ _ _ Hrun).
  split; [reflexivity|]. split; [exact Hv'|]. split; [exact Hsubs|].
  split; [exact Hown|]. rewrite Hcs. unfold cs'. destruct c3. reflexivity.
Qed.

Lemma onhook_after_flash_is_a_bounce_witness :
  (exists (w' : world) (v' : pvt.t),
     handle_event_linux 100%nat DAHDI_EVENT_ONHOOK world_flash = Some (None, w') /\
     pvts w' !! 1%nat = Some v' /\
     pvt.subs v' = pvt.subs line_flash /\
     pvt.owner v' = pvt.owner line_flash /\
     chans w' =
       <[300%nat := chn.set__softhangup
                      (Z.lor (chn._softhangup (leg AST_STATE_UP 30 1)) AST_SOFTHANGUP_DEV)
                      (chn.set_readq (chn.readq (leg AST_STATE_UP 30 1) ++ [Q_HANGUP])
                         (leg AST_STATE_UP 30 1))]> (chans world_flash)) /\
  (forall ft : timeval,
     handle_event_linux 100%nat DAHDI_EVENT_WINKFLASH (flashed_at 1%nat ft world_flash) =
     handle_event_linux 100%nat DAHDI_EVENT_WINKFLASH world_flash).
Proof.
  destruct (onhook_after_flash_is_a_bounce dahdi_linux arm_unit arm_threeway arm_winkflash
              arm_other 1%nat 100%nat 1%nat 300%nat (leg AST_STATE_UP 10 1)
              (leg AST_STATE_UP 30 1) line_flash world_flash) as [Hbounce Hflash];
    try reflexivity.
  - vm_compute. split; [intros H; discriminate H | reflexivity].
  - split; [exact Hbounce|]. apply Hflash; [reflexivity|]. vm_compute. intros H; discriminate H.
Defined.

(** ** C1: reconciling twice *)

(** C1 fails on the code.  On [world_bridged] (a master that is to sit
    in its own conference, with a slave of another law) the first
    [update_conf] programs the slave and the master's Real sub-channel
    into conference 1.  A second [update_conf] right after it, with
    nothing changed in between, sends two more DAHDI_SETCONF requests
    for the master's Real descriptor: one that takes it out of the
    conference, one that puts it back.  The lines end as they were. *)
Theorem update_conf_twice_reprograms :
  exists (w1 w2 : world),
    update_conf dahdi_linux 1%nat world_bridged = Some (0, w1) /\
    trace w1 =
      [Hw (DAHDI_SETCONF 20 (conf.mk 0 (-1) (confmode_real dahdi_linux)));
       Hw (DAHDI_SETCONF 10 (conf.mk 0 1 (confmode_real dahdi_linux)))] /\
    update_conf dahdi_linux 1%nat w1 = Some (0, w2) /\
    trace w2 =
      trace w1 ++
      [Hw (DAHDI_SETCONF 10 conf_zero);
       Hw (DAHDI_SETCONF 10 (conf.mk 0 1 (confmode_real dahdi_linux)))] /\
    pvts w2 = pvts w1.
Proof.
  eexists. eexists.
  split; [vm_compute; reflexivity|].
  split; [reflexivity|].
  split; [vm_compute; reflexivity|].
  split; reflexivity.
Qed.

(** * Further properties of the embedded code *)

(** ** Digits and numbers *)

(** X1.  [digit_to_dtmfindex] knows exactly the sixteen DTMF symbols:
    with tone numbers that are not negative, it answers -1 for every
    other character and for none of the sixteen; and a lower-case letter
    gives the tone of its upper-case letter. *)
Theorem digit_to_dtmfindex_symbols (BASE A s p : Z) (digit : Z) :
  0 <= BASE -> 0 <= A -> 0 <= s -> 0 <= p ->
  (digit_to_dtmfindex BASE A s p digit = -1 <->
   ~ (48 <= digit <= 57 \/ 65 <= digit <= 68 \/ 97 <= digit <= 100 \/
      digit = 42 \/ digit = 35)) /\
  (65 <= digit <= 68 ->
   digit_to_dtmfindex BASE A s p (digit + 32) = digit_to_dtmfindex BASE A s p digit).
Proof.
  intros HB HA Hs Hp. unfold digit_to_dtmfindex, isdigit. split.
  - destruct (Z.leb_spec 48 digit), (Z.leb_spec digit 57),
             (Z.leb_spec 65 digit), (Z.leb_spec digit 68),
             (Z.leb_spec 97 digit), (Z.leb_spec digit 100),
             (Z.eqb_spec digit 42), (Z.eqb_spec digit 35); cbn [andb];
      (split; [intros ? ? | intros ?]; lia).
  - intros H.
    replace (48 <=? digit + 32) with true by (symmetry; apply Z.leb_le; lia).
    replace (digit + 32 <=? 57) with false by (symmetry; apply Z.leb_gt; lia).
    replace (48 <=? digit) with true by (symmetry; apply Z.leb_le; lia).
    replace (digit <=? 57) with false by (symmetry; apply Z.leb_gt; lia).
    replace (65 <=? digit + 32) with true by (symmetry; apply Z.leb_le; lia).
    replace (digit + 32 <=? 68) with false by (symmetry; apply Z.leb_gt; lia).
    replace (97 <=? digit + 32) with true by (symmetry; apply Z.leb_le; lia).
    replace (digit + 32 <=? 100) with true by (symmetry; apply Z.leb_le; lia).
    replace (65 <=? digit) with true by (symmetry; apply Z.leb_le; lia).
    replace (digit <=? 68) with true by (symmetry; apply Z.leb_le; lia).
    cbn [andb]. f_equal. lia.
Qed.

Lemma digit_to_dtmfindex_symbols_witness :
  (digit_to_dtmfindex 64 76 74 75 66 = -1 <->
   ~ (48 <= 66 <= 57 \/ 65 <= 66 <= 68 \/ 97 <= 66 <= 100 \/ 66 = 42 \/ 66 = 35)) /\
  (65 <= 66 <= 68 ->
   digit_to_dtmfindex 64 76 74 75 (66 + 32) = digit_to_dtmfindex 64 76 74 75 66).
Proof. apply (digit_to_dtmfindex_symbols 64 76 74 75 66); lia. Defined.

(** X2.  The presentation and the screening indicator taken from a
    caller-id presentation value are both between 0 and 3, and together
    they hold exactly its bits 0, 1, 5 and 6. *)
Theorem cid_pres_bits (cid_pres : Z) :
  0 <= cid_pres2ss7pres cid_pres <= 3 /\
  0 <= cid_pres2ss7screen cid_pres <= 3 /\
  Z.lor (Z.shiftl (cid_pres2ss7pres cid_pres) 5) (cid_pres2ss7screen cid_pres) =
    Z.land cid_pres 99.
Proof.
  unfold cid_pres2ss7pres, cid_pres2ss7screen.
  assert (H3 : forall x, 0 <= Z.land x 3 <= 3).
  { intros x. change (Z.land x 3) with (Z.land x (Z.ones 2)).
    rewrite Z.land_ones by lia. change (2 ^ 2) with 4.
    pose proof (Z.mod_pos_bound x 4 ltac:(lia)). lia. }
  pose proof (H3 (Z.shiftr cid_pres 5)) as Hp.
  pose proof (H3 cid_pres) as Hs.
  rewrite !Z.mod_small by lia.
  split; [exact Hp|]. split; [exact Hs|].
  apply Z.bits_inj'. intros n Hn.
  rewrite Z.lor_spec, !Z.land_spec.
  destruct (Z.ltb n 5) eqn:E.
  - apply Z.ltb_lt in E. rewrite Z.shiftl_spec_low by lia. cbn [orb].
    f_equal.
    assert (n = 0 \/ n = 1 \/ n = 2 \/ n = 3 \/ n = 4) as [->|[->|[->|[->| ->]]]] by lia;
      reflexivity.
  - apply Z.ltb_ge in E. rewrite Z.shiftl_spec by lia.
    rewrite Z.land_spec, Z.shiftr_spec by lia.
    replace (n - 5 + 5) with n by lia.
    assert (Hn3 : Z.testbit 3 n = false).
    { change 3 with (Z.ones 2). apply Z.ones_spec_high. lia. }
    rewrite Hn3, andb_false_r, orb_false_r. f_equal.
    destruct (Z.ltb n 7) eqn:E7.
    + apply Z.ltb_lt in E7. assert (n = 5 \/ n = 6) as [->| ->] by lia; reflexivity.
    + apply Z.ltb_ge in E7.
      replace (Z.testbit 3 (n - 5)) with false
        by (symmetry; change 3 with (Z.ones 2); apply Z.ones_spec_high; lia).
      symmetry. change 99 with (Z.lor (Z.shiftl 3 5) 3).
      rewrite Z.lor_spec, Hn3, Z.shiftl_spec by lia.
      change 3 with (Z.ones 2). rewrite Z.ones_spec_high by lia. reflexivity.
Qed.

Lemma prefix_length (pre s : string) :
  String.prefix pre s = true -> (String.length pre <= String.length s)%nat.
Proof.
  revert s. induction pre as [|c pre IH]; intros s H; cbn.
  - lia.
  - destruct s as [|d s]; cbn in H; [discriminate|].
    destruct (Ascii.ascii_dec c d); [|discriminate].
    specialize (IH s H). cbn. lia.
Qed.

(** X3.  [ss7_parse_prefix] never strips more characters than the number
    has; a number that starts with none of the five prefixes is taken
    for a subscriber number with nothing stripped; and an empty
    international prefix matches every number, which is then
    international with nothing stripped, whatever the other prefixes
    are. *)
Theorem ss7_parse_prefix_strip (ss7 : ss7_prefixes) (number : string) :
  0 <= (ss7_parse_prefix ss7 number).1 <= Z.of_nat (String.length number) /\
  (String.prefix (internationalprefix ss7) number = false ->
   String.prefix (nationalprefix ss7) number = false ->
   String.prefix (networkroutedprefix ss7) number = false ->
   String.prefix (unknownprefix ss7) number = false ->
   String.prefix (subscriberprefix ss7) number = false ->
   ss7_parse_prefix ss7 number = (0, SS7_NAI_SUBSCRIBER)) /\
  (internationalprefix ss7 = ""%string ->
   ss7_parse_prefix ss7 number = (0, SS7_NAI_INTERNATIONAL)).
Proof.
  unfold ss7_parse_prefix, strncmp_prefix. split; [|split].
  - repeat match goal with
           | |- context [String.prefix ?a ?b] =>
               let E := fresh "E" in
               destruct (String.prefix a b) eqn:E;
               [apply prefix_length in E; cbn [fst]; lia|]
           end.
    cbn [fst]. lia.
  - intros -> -> -> -> ->. reflexivity.
  - intros ->. destruct number; reflexivity.
Qed.

Lemma ss7_parse_prefix_strip_witness :
  0 <= (ss7_parse_prefix (mk_ss7_prefixes "00" "0" "" "" "") "0049301234").1
    <= Z.of_nat (String.length "0049301234") /\
  (String.prefix "00" "0049301234" = false ->
   String.prefix "0" "0049301234" = false ->
   String.prefix "" "0049301234" = false ->
   String.prefix "" "0049301234" = false ->
   String.prefix "" "0049301234" = false ->
   ss7_parse_prefix (mk_ss7_prefixes "00" "0" "" "" "") "0049301234" =
     (0, SS7_NAI_SUBSCRIBER)) /\
  ("00"%string = ""%string ->
   ss7_parse_prefix (mk_ss7_prefixes "00" "0" "" "" "") "0049301234" =
     (0, SS7_NAI_INTERNATIONAL)).
Proof.
  apply (ss7_parse_prefix_strip (mk_ss7_prefixes "00" "0" "" "" "") "0049301234").
Defined.

(** ** Sub-channel multiplexer *)

(** [dahdi_get_index] reads the line and nothing else: it answers the
    first role whose owner is the leg, and -1 (with a warning unless
    [nullok]) when the leg owns none. *)
Lemma dahdi_get_index_run (ast p : nat) (nullok : bool) (v : pvt.t) (w : world) :
  pvts w !! p = Some v ->
  exists (r : option subidx) (w' : world),
    dahdi_get_index ast p nullok w = Some (r, w') /\
    pvts w' = pvts w /\ chans w' = chans w /\
    (r <> None -> w' = w) /\
    (forall x, r = Some x ->
       sub.owner (psub v x) = Some ast /\
       forall y, subidx_to_Z y < subidx_to_Z x -> sub.owner (psub v y) <> Some ast) /\
    (r = None <-> forall x, sub.owner (psub v x) <> Some ast).
Proof.
  intros Hp. unfold dahdi_get_index.
  rewrite (bind_run _ _ _ _ _ (rd_run _ _ _ Hp)).
  assert (Heq : forall o, opt_nat_eqb o (Some ast) = true <-> o = Some ast).
  { intros [o|]; cbn; [|split; discriminate].
    rewrite Nat.eqb_eq. split; congruence. }
  destruct (opt_nat_eqb (sub.owner (psub v SUB_REAL)) (Some ast)) eqn:E0.
  { apply Heq in E0. exists (Some SUB_REAL), w.
    split; [reflexivity|]. split; [reflexivity|]. split; [reflexivity|].
    split; [reflexivity|]. split.
    - intros x Hx. inversion Hx; subst. split; [exact E0|].
      intros y Hy. destruct y; cbn in Hy; lia.
    - split; [discriminate|]. intros H. exfalso. exact (H SUB_REAL E0). }
  assert (N0 : sub.owner (psub v SUB_REAL) <> Some ast).
  { intros H. apply Heq in H. congruence. }
  destruct (opt_nat_eqb (sub.owner (psub v SUB_CALLWAIT)) (Some ast)) eqn:E1.
  { apply Heq in E1. exists (Some SUB_CALLWAIT), w.
    split; [reflexivity|]. split; [reflexivity|]. split; [reflexivity|].
    split; [reflexivity|]. split.
    - intros x Hx. inversion Hx; subst. split; [exact E1|].
      intros y Hy. destruct y; cbn in Hy; try lia. exact N0.
    - split; [discriminate|]. intros H. exfalso. exact (H SUB_CALLWAIT E1). }
  assert (N1 : sub.owner (psub v SUB_CALLWAIT) <> Some ast).
  { intros H. apply Heq in H. congruence. }
  destruct (opt_nat_eqb (sub.owner (psub v SUB_THREEWAY)) (Some ast)) eqn:E2.
  { apply Heq in E2. exists (Some SUB_THREEWAY), w.
    split; [reflexivity|]. split; [reflexivity|]. split; [reflexivity|].
    split; [reflexivity|]. split.
    - intros x Hx. inversion Hx; subst. split; [exact E2|].
      intros y Hy. destruct y; cbn in Hy; try lia; assumption.
    - split; [discriminate|]. intros H. exfalso. exact (H SUB_THREEWAY E2). }
  assert (N2 : sub.owner (psub v SUB_THREEWAY) <> Some ast).
  { intros H. apply Heq in H. congruence. }
  assert (Hnone : forall x, sub.owner (psub v x) <> Some ast)
    by (intros x; destruct x; assumption).
  destruct nullok; cbn [negb when]; unfold ast_log, emit; repeat mstep;
    eexists; eexists; (split; [reflexivity|]);
    (split; [reflexivity|]); (split; [reflexivity|]);
    (split; [congruence|]); (split; [discriminate|]);
    (split; [intros _; exact Hnone | reflexivity]).
Qed.

(** X4.  Where a leg is found follows the swap: a leg that owns role [a]
    and no other role of the line is found at role [b] once [a] and [b]
    have been swapped. *)
Theorem get_index_follows_swap (ast p : nat) (a b : subidx) (nullok : bool)
    (v : pvt.t) (w : world) :
  pvts w !! p = Some v ->
  owners_known v w ->
  sub.owner (psub v a) = Some ast ->
  (forall x, x <> a -> sub.owner (psub v x) <> Some ast) ->
  exists w' : world,
    bind (swap_subs p a b) (fun _ => dahdi_get_index ast p nullok) w = Some (Some b, w').
Proof.
  intros Hp Hk Ha Hothers.
  rewrite (bind_run _ _ _ _ _ (swap_subs_run p a b v w Hp Hk)).
  set (w1 := mk_world _ _ _).
  assert (Hp1 : pvts w1 !! p = Some (swapped a b v)) by apply lookup_insert_eq.
  destruct (dahdi_get_index_run ast p nullok (swapped a b v) w1 Hp1)
    as (r & w' & Hrun & _ & _ & _ & Hsome & Hnone).
  exists w'. rewrite Hrun. do 2 f_equal.
  assert (Hb : sub.owner (psub (swapped a b v) b) = Some ast)
    by (rewrite swapped_owner_b; exact Ha).
  assert (Hnot : forall y, y <> b -> sub.owner (psub (swapped a b v) y) <> Some ast).
  { intros y Hy. destruct (decide (y = a)) as [->|Hya].
    - rewrite swapped_owner_a. apply Hothers. congruence.
    - rewrite (swapped_other a b y v Hya Hy). apply Hothers. exact Hya. }
  destruct r as [x|].
  - destruct (Hsome x eq_refl) as [Hx _].
    destruct (decide (x = b)) as [->|Hne]; [reflexivity|].
    exfalso. exact (Hnot x Hne Hx).
  - exfalso. destruct Hnone as [Hn _]. exact (Hn eq_refl b Hb).
Qed.

Lemma get_index_follows_swap_witness :
  exists w' : world,
    bind (swap_subs 1%nat SUB_THREEWAY SUB_REAL)
         (fun _ => dahdi_get_index 300%nat 1%nat false) world_flash = Some (Some SUB_REAL, w').
Proof.
  apply (get_index_follows_swap 300%nat 1%nat SUB_THREEWAY SUB_REAL false
           line_flash world_flash).
  - reflexivity.
  - intros x o Ho. destruct x; cbn in Ho; inversion Ho; subst; vm_compute; eauto.
  - reflexivity.
  - intros x Hx. destruct x; cbn; congruence.
Defined.

Lemma unalloc_sub_run (p : nat) (x : subidx) (v : pvt.t) (w : world) :
  x <> SUB_REAL ->
  pvts w !! p = Some v ->
  unalloc_sub p x w =
    Some (0, mk_world (<[p := released x v]> (pvts w)) (chans w)
               (trace w ++ (if 0 <? sub.dfd (psub v x)
                            then [Hw (CLOSE (sub.dfd (psub v x)))] else []))).
Proof.
  intros Hx Hp.
  assert (Hrun : forall tr,
             bind (wr p (upd_sub x (sub.set_dfd (-1))))
               (fun _ => bind (wr p (upd_sub x (sub.set_linear false)))
               (fun _ => bind (wr p (upd_sub x (sub.set_chan 0)))
               (fun _ => bind (wr p (upd_sub x (sub.set_owner None)))
               (fun _ => bind (wr p (upd_sub x (sub.set_inthreeway false)))
               (fun _ => bind (wr p (pvt.set_polarity POLARITY_IDLE))
               (fun _ => bind (wr p (upd_sub x (sub.set_curconf conf_zero)))
               (fun _ => ret 0)))))))
               (mk_world (pvts w) (chans w) tr) =
             Some (0, mk_world (<[p := released x v]> (pvts w)) (chans w) tr)).
  { intros tr.
    repeat (erewrite bind_run;
            [| apply wr_run; cbn [pvts]; first [exact Hp | apply lookup_insert_eq]];
            cbn [pvts chans trace]; rewrite ?insert_insert_eq).
    reflexivity. }
  unfold unalloc_sub, dahdi_close, emit.
  destruct x; [congruence| |];
    rewrite (bind_run _ _ _ _ _ (rd_run _ _ _ Hp));
    (destruct (-1 <? sub.dfd (psub v _)) eqn:E1;
     [ destruct (0 <? sub.dfd (psub v _)) eqn:E2
     | replace (0 <? sub.dfd (psub v _)) with false
         by (symmetry; apply Z.ltb_ge; apply Z.ltb_ge in E1; lia) ];
     cbn [when]; repeat mstep; cbn [pvts chans trace];
     rewrite ?insert_insert_eq, ?app_nil_r; try reflexivity;
     first [apply Hrun | destruct w; apply Hrun]).
Qed.

(** X5.  [unalloc_sub] on a role other than Real returns 0 and leaves
    the role unallocated: [dfd] -1, no owner, channel number 0, linear
    and three-way flag off, conference state zero; the polarity of the
    line is idle.  The eight pending-notification flags of the role stay
    as they were, and so do the other roles, the other lines and the call
    legs.  The descriptor is closed exactly when it was greater than 0:
    descriptor 0 is given up without a close. *)
Theorem unalloc_sub_releases (p : nat) (x : subidx) (v : pvt.t) (w : world) :
  x <> SUB_REAL ->
  pvts w !! p = Some v ->
  exists (w' : world) (v' : pvt.t),
    unalloc_sub p x w = Some (0, w') /\
    pvts w' !! p = Some v' /\
    psub v' x = sub.mk (-1) None 0
                  (sub.needringing (psub v x)) (sub.needbusy (psub v x))
                  (sub.needcongestion (psub v x)) (sub.needcallerid (psub v x))
                  (sub.needanswer (psub v x)) (sub.needflash (psub v x))
                  (sub.needhold (psub v x)) (sub.needunhold (psub v x))
                  false false conf_zero /\
    pvt.polarity v' = POLARITY_IDLE /\
    (forall y, y <> x -> psub v' y = psub v y) /\
    (forall q, q <> p -> pvts w' !! q = pvts w !! q) /\
    chans w' = chans w /\
    trace w' = trace w ++ (if 0 <? sub.dfd (psub v x)
                           then [Hw (CLOSE (sub.dfd (psub v x)))] else []).
Proof.
  intros Hx Hp. eexists. exists (released x v).
  split; [exact (unalloc_sub_run p x v w Hx Hp)|]. cbn [pvts chans trace].
  split; [apply lookup_insert_eq|].
  split; [destruct_line v; destruct x; reflexivity|].
  split; [destruct_line v; destruct x; reflexivity|].
  split; [intros y Hy; destruct_line v; destruct x, y; try reflexivity; congruence|].
  split; [intros q Hq; apply lookup_insert_ne; congruence|].
  split; reflexivity.
Qed.

Lemma unalloc_sub_releases_witness :
  exists (w' : world) (v' : pvt.t),
    unalloc_sub 1%nat SUB_THREEWAY world_flash = Some (0, w') /\
    pvts w' !! 1%nat = Some v' /\
    psub v' SUB_THREEWAY = sub.mk (-1) None 0
                  (sub.needringing (psub line_flash SUB_THREEWAY))
                  (sub.needbusy (psub line_flash SUB_THREEWAY))
                  (sub.needcongestion (psub line_flash SUB_THREEWAY))
                  (sub.needcallerid (psub line_flash SUB_THREEWAY))
                  (sub.needanswer (psub line_flash SUB_THREEWAY))
                  (sub.needflash (psub line_flash SUB_THREEWAY))
                  (sub.needhold (psub line_flash SUB_THREEWAY))
                  (sub.needunhold (psub line_flash SUB_THREEWAY))
                  false false conf_zero /\
    pvt.polarity v' = POLARITY_IDLE /\
    (forall y, y <> SUB_THREEWAY -> psub v' y = psub line_flash y) /\
    (forall q, q <> 1%nat -> pvts w' !! q = pvts world_flash !! q) /\
    chans w' = chans world_flash /\
    trace w' = trace world_flash ++
               (if 0 <? sub.dfd (psub line_flash SUB_THREEWAY)
                then [Hw (CLOSE (sub.dfd (psub line_flash SUB_THREEWAY)))] else []).
Proof.
  apply (unalloc_sub_releases 1%nat SUB_THREEWAY line_flash world_flash).
  - discriminate.
  - reflexivity.
Defined.

Lemma released_dfd (x : subidx) (v : pvt.t) :
  sub.dfd (psub (released x v) x) = -1.
Proof. destruct x; destruct_line v; reflexivity. Qed.

Lemma released_idem (x : subidx) (v : pvt.t) :
  released x (released x v) = released x v.
Proof. destruct x; destruct_line v; vm_compute; reflexivity. Qed.

(** X6.  Releasing a role twice is releasing it once: the second
    [unalloc_sub] closes nothing and changes nothing. *)
Theorem unalloc_sub_twice (p : nat) (x : subidx) (v : pvt.t) (w : world) :
  x <> SUB_REAL ->
  pvts w !! p = Some v ->
  bind (unalloc_sub p x) (fun _ => unalloc_sub p x) w = unalloc_sub p x w.
Proof.
  intros Hx Hp.
  rewrite (bind_run _ _ _ _ _ (unalloc_sub_run p x v w Hx Hp)).
  rewrite (unalloc_sub_run p x v w Hx Hp).
  erewrite unalloc_sub_run; [| exact Hx | cbn [pvts]; apply lookup_insert_eq].
  cbn [pvts chans trace]. rewrite insert_insert_eq.
  rewrite released_dfd, released_idem. cbn. rewrite app_nil_r. reflexivity.
Qed.

Lemma unalloc_sub_twice_witness :
  bind (unalloc_sub 1%nat SUB_THREEWAY) (fun _ => unalloc_sub 1%nat SUB_THREEWAY) world_flash =
  unalloc_sub 1%nat SUB_THREEWAY world_flash.
Proof.
  apply (unalloc_sub_twice 1%nat SUB_THREEWAY line_flash world_flash).
  - discriminate.
  - reflexivity.
Defined.

Lemma bind_rd_inv {A} (p : nat) (k : pvt.t -> M A) (w : world) (r : A * world) :
  bind (rd p) k w = Some r -> exists v, pvts w !! p = Some v /\ k v w = Some r.
Proof.
  unfold bind, rd. destruct (pvts w !! p) as [v|]; [|discriminate].
  intros H. exists v. split; [reflexivity | exact H].
Qed.

Ltac mstep_in H :=
  first [ rewrite bind_assoc in H
        | rewrite bind_ret in H
        | erewrite bind_run in H; [| reflexivity ] ].

Lemma psub_upd_sub (x y : subidx) (f : sub.t -> sub.t) (v : pvt.t) :
  psub (upd_sub x f v) y = if decide (y = x) then f (psub v x) else psub v y.
Proof. destruct_line v; destruct x, y; reflexivity. Qed.

Lemma conf_add_zi_confno (K : env) (vp : pvt.t) (index : subidx) (slavechannel : Z) :
  conf.confno (conf_add_zi K vp index slavechannel) =
    if 0 <? slavechannel then slavechannel else pvt.confno vp.
Proof. unfold conf_add_zi. destruct (0 <? slavechannel); reflexivity. Qed.

Lemma conf_add_zi_confmode (K : env) (vp vp' : pvt.t) (index : subidx) (slavechannel : Z) :
  conf.confmode (conf_add_zi K vp index slavechannel) =
  conf.confmode (conf_add_zi K vp' index slavechannel).
Proof. unfold conf_add_zi. destruct (0 <? slavechannel); reflexivity. Qed.

(** [conf_add] is silent on a sub-channel that is programmed as asked. *)
Lemma conf_add_silent (K : env) (p : nat) (c : subref) (index : subidx)
    (slavechannel : Z) (vp vc : pvt.t) (w : world) :
  pvts w !! p = Some vp ->
  pvts w !! c.1 = Some vc ->
  conf.confno (conf_add_zi K vp index slavechannel) =
    conf.confno (sub.curconf (psub vc c.2)) ->
  conf.confmode (conf_add_zi K vp index slavechannel) =
    conf.confmode (sub.curconf (psub vc c.2)) ->
  conf_add K p c index slavechannel w = Some (0, w).
Proof.
  intros Hp Hc Hno Hmode. unfold conf_add, rdsub.
  rewrite (bind_run _ _ _ _ _ (rd_run _ _ _ Hp)).
  rewrite bind_assoc, (bind_run _ _ _ _ _ (rd_run _ _ _ Hc)), bind_ret.
  rewrite Hno, Hmode, !Z.eqb_refl. reflexivity.
Qed.

(** ** Conference membership

    The kernel is taken to answer DAHDI_SETCONF the way DAHDI does: it
    keeps the mode asked for, and it keeps a conference number that is
    positive. *)

(** X7.  [conf_add] settles: after a [conf_add] that returned 0, the
    same [conf_add] again returns 0 without asking the kernel and without
    changing anything.  This holds for a sub-channel of the line itself
    and for one of another line, in conference mode and in digital
    monitor mode. *)
Theorem conf_add_settles (K : env) (p : nat) (c : subref) (index : subidx)
    (slavechannel : Z) (w w1 : world) :
  (forall h fd zi, conf.confmode (setconf_out K h fd zi) = conf.confmode zi) ->
  (forall h fd zi, 0 < conf.confno zi ->
     conf.confno (setconf_out K h fd zi) = conf.confno zi) ->
  conf_add K p c index slavechannel w = Some (0, w1) ->
  conf_add K p c index slavechannel w1 = Some (0, w1).
Proof.
  intros Hmode Hno H. unfold conf_add in H.
  apply bind_rd_inv in H as (vp & Hp & H).
  unfold rdsub in H. rewrite bind_assoc in H.
  apply bind_rd_inv in H as (vc & Hc & H). rewrite bind_ret in H.
  cbn [fst snd] in *.
  set (zi := conf_add_zi K vp index slavechannel) in *.
  set (cs := psub vc c.2) in *.
  destruct ((conf.confno zi =? conf.confno (sub.curconf cs)) &&
            (conf.confmode zi =? conf.confmode (sub.curconf cs))) eqn:E1.
  { inversion H; subst w1. apply andb_prop in E1 as [Ea Eb].
    apply Z.eqb_eq in Ea, Eb. eapply conf_add_silent; eassumption. }
  destruct (sub.dfd cs <? 0) eqn:E2.
  { inversion H; subst w1. unfold conf_add, rdsub.
    rewrite (bind_run _ _ _ _ _ (rd_run _ _ _ Hp)).
    rewrite bind_assoc, (bind_run _ _ _ _ _ (rd_run _ _ _ Hc)), bind_ret.
    fold zi. fold cs. rewrite E1, E2. reflexivity. }
  unfold hw, history, emit, ast_log in H.
  repeat mstep_in H.
  destruct (ioctl K (trace w) (DAHDI_SETCONF (sub.dfd cs) zi) =? 0); cbn [negb] in H;
    [| repeat mstep_in H; discriminate H].
  set (zi' := setconf_out K (trace w) (sub.dfd cs) zi) in *.
  assert (Hzi' : conf.confmode zi' = conf.confmode zi) by apply Hmode.
  assert (Hzn : 0 < slavechannel -> conf.confno zi' = slavechannel).
  { intros Hs. unfold zi'. rewrite Hno; unfold zi; rewrite conf_add_zi_confno;
      replace (0 <? slavechannel) with true by (symmetry; apply Z.ltb_lt; lia);
      [reflexivity | exact Hs]. }
  destruct (slavechannel <? 1) eqn:E3; cbn [when] in H.
  - apply Z.ltb_lt in E3.
    erewrite bind_run in H by (apply wr_run; exact Hp). cbn [pvts chans trace] in H.
    destruct (decide (c.1 = p)) as [Hcp|Hcp].
    + rewrite Hcp in *. assert (vc = vp) by congruence. subst vc.
      erewrite bind_run in H by (apply wr_run; apply lookup_insert_eq).
      cbn [pvts chans trace] in H. rewrite insert_insert_eq in H.
      inversion H; subst w1; clear H.
      eapply conf_add_silent.
      * apply lookup_insert_eq.
      * rewrite Hcp. apply lookup_insert_eq.
      * rewrite conf_add_zi_confno, psub_upd_sub, decide_True by reflexivity.
        replace (0 <? slavechannel) with false by (symmetry; apply Z.ltb_ge; lia).
        destruct_line vp; reflexivity.
      * rewrite psub_upd_sub, decide_True by reflexivity.
        cbn. rewrite Hzi'. apply conf_add_zi_confmode.
    + erewrite bind_run in H
        by (apply wr_run; cbn [pvts]; rewrite lookup_insert_ne by congruence; exact Hc).
      cbn [pvts chans trace] in H.
      inversion H; subst w1; clear H.
      eapply conf_add_silent.
      * cbn [pvts]. rewrite lookup_insert_ne by congruence. apply lookup_insert_eq.
      * apply lookup_insert_eq.
      * rewrite conf_add_zi_confno, psub_upd_sub, decide_True by reflexivity.
        replace (0 <? slavechannel) with false by (symmetry; apply Z.ltb_ge; lia).
        destruct_line vp; reflexivity.
      * rewrite psub_upd_sub, decide_True by reflexivity.
        cbn. rewrite Hzi'. apply conf_add_zi_confmode.
  - apply Z.ltb_ge in E3. rewrite bind_ret in H.
    erewrite bind_run in H by (apply wr_run; exact Hc).
    inversion H; subst w1; clear H.
    assert (Hq : exists vp', pvts (mk_world (<[c.1:=upd_sub c.2 (sub.set_curconf zi') vc]> (pvts w))
                    (chans w) (trace w ++ [Hw (DAHDI_SETCONF (sub.dfd cs) zi)])) !! p = Some vp').
    { cbn [pvts]. rewrite lookup_insert. case_decide; eauto. }
    destruct Hq as [vp' Hp'].
    eapply conf_add_silent.
    * exact Hp'.
    * apply lookup_insert_eq.
    * rewrite conf_add_zi_confno, psub_upd_sub, decide_True by reflexivity.
      replace (0 <? slavechannel) with true by (symmetry; apply Z.ltb_lt; lia).
      cbn. symmetry. apply Hzn. lia.
    * rewrite psub_upd_sub, decide_True by reflexivity.
      cbn. rewrite Hzi'. apply conf_add_zi_confmode.
Qed.

Lemma conf_add_settles_witness :
  conf_add dahdi_linux 1%nat (1%nat, SUB_REAL) SUB_REAL 0
    (world_after (conf_add dahdi_linux 1%nat (1%nat, SUB_REAL) SUB_REAL 0) world_flash) =
  Some (0, world_after (conf_add dahdi_linux 1%nat (1%nat, SUB_REAL) SUB_REAL 0) world_flash).
Proof.
  apply (conf_add_settles dahdi_linux 1%nat (1%nat, SUB_REAL) SUB_REAL 0 world_flash).
  - intros h fd zi. cbn. destruct (conf.confno zi =? -1); reflexivity.
  - intros h fd zi Hpos. cbn.
    destruct (conf.confno zi =? -1) eqn:E; [apply Z.eqb_eq in E; lia | reflexivity].
  - vm_compute. reflexivity.
Defined.
Lemma talker_in_confmode (K : env) (vp : pvt.t) (x : subidx) :
  DAHDI_CONF_TALKER K <> 0 ->
  Z.land (conf.confmode (conf_add_zi K vp x 0)) (DAHDI_CONF_TALKER K) <> 0.
Proof.
  intros HT. unfold conf_add_zi. cbn [Z.ltb Z.compare conf.confmode].
  assert (H : forall m, Z.land (Z.lor m (DAHDI_CONF_TALKER K)) (DAHDI_CONF_TALKER K) <> 0).
  { intros m. rewrite Z.land_lor_distr_l, Z.land_diag, Z.lor_eq_0_iff. tauto. }
  destruct x; unfold confmode_real, confmode_pseudo;
    rewrite !Z.land_lor_distr_l, !Z.lor_eq_0_iff, Z.land_diag; tauto.
Qed.

(** X8.  What [conf_add] installs, [conf_del] recognises and removes.  A
    sub-channel with a descriptor and nothing programmed is added to the
    line's conference; the kernel accepts and answers with a positive
    conference number.  Then [conf_add] asked the kernel exactly once,
    and [conf_del] on the same sub-channel asks it for the zero
    conference on the same descriptor: when that is accepted the
    sub-channel holds what the kernel answered, when it is refused
    [conf_del] returns -1 with a warning and the lines stay as they
    were. *)
Theorem conf_del_undoes_conf_add (K : env) (p : nat) (x : subidx) (vp : pvt.t)
    (w w1 : world) :
  DAHDI_CONF_TALKER K <> 0 ->
  (forall h fd zi, conf.confmode (setconf_out K h fd zi) = conf.confmode zi) ->
  pvts w !! p = Some vp ->
  0 <= sub.dfd (psub vp x) ->
  sub.curconf (psub vp x) = conf_zero ->
  0 < conf.confno (setconf_out K (trace w) (sub.dfd (psub vp x)) (conf_add_zi K vp x 0)) ->
  conf_add K p (p, x) x 0 w = Some (0, w1) ->
  exists (r : Z) (w2 : world) (rest : list event),
    conf_del K p (p, x) x w1 = Some (r, w2) /\
    trace w1 = trace w ++ [Hw (DAHDI_SETCONF (sub.dfd (psub vp x)) (conf_add_zi K vp x 0))] /\
    trace w2 = trace w1 ++ Hw (DAHDI_SETCONF (sub.dfd (psub vp x)) conf_zero) :: rest /\
    chans w2 = chans w /\
    ((r = 0 /\ rest = [] /\
      exists v2, pvts w2 !! p = Some v2 /\
        sub.curconf (psub v2 x) =
          setconf_out K (trace w1) (sub.dfd (psub vp x)) conf_zero) \/
     (r = -1 /\ rest = [Log LOG_WARNING "Failed to drop from conference"] /\
      pvts w2 = pvts w1)).
Proof.
  intros HT Hmode Hp Hfd Hfresh Hno H.
  pose proof (talker_in_confmode K vp x HT) as Htalk.
  unfold conf_add, rdsub in H. cbn [fst snd] in H.
  rewrite (bind_run _ _ _ _ _ (rd_run _ _ _ Hp)) in H.
  rewrite bind_assoc, (bind_run _ _ _ _ _ (rd_run _ _ _ Hp)), bind_ret in H.
  set (zi := conf_add_zi K vp x 0) in *.
  set (fd := sub.dfd (psub vp x)) in *.
  rewrite Hfresh in H.
  assert (Hm0 : conf.confmode zi <> 0).
  { intros E. apply Htalk. rewrite E. reflexivity. }
  replace (conf.confmode zi =? conf.confmode conf_zero) with false in H
    by (symmetry; apply Z.eqb_neq; exact Hm0).
  rewrite andb_false_r in H.
  replace (fd <? 0) with false in H by (symmetry; apply Z.ltb_ge; lia).
  unfold hw, history, emit, ast_log in H. repeat mstep_in H.
  destruct (ioctl K (trace w) (DAHDI_SETCONF fd zi) =? 0); cbn [negb] in H;
    [| repeat mstep_in H; discriminate H].
  set (zi' := setconf_out K (trace w) fd zi) in *.
  cbn [Z.ltb Z.compare when] in H.
  erewrite bind_run in H by (apply wr_run; exact Hp). cbn [pvts chans trace] in H.
  erewrite bind_run in H by (apply wr_run; apply lookup_insert_eq).
  cbn [pvts chans trace] in H. rewrite insert_insert_eq in H.
  inversion H; subst w1; clear H.
  set (v1 := upd_sub x (sub.set_curconf zi') (pvt.set_confno (conf.confno zi') vp)).
  assert (Hs1 : psub v1 x = sub.set_curconf zi' (psub vp x)).
  { unfold v1. rewrite psub_upd_sub, decide_True by reflexivity.
    destruct_line vp; destruct x; reflexivity. }
  assert (Hc1 : pvt.confno v1 = conf.confno zi')
    by (unfold v1; destruct_line vp; destruct x; reflexivity).
  assert (Hours : isourconf K v1 (psub v1 x) = true).
  { unfold isourconf. rewrite Hs1, Hc1.
    destruct (_ && _); [reflexivity|].
    change (sub.curconf (sub.set_curconf zi' (psub vp x))) with zi'.
    replace (0 <? conf.confno zi') with true by (symmetry; apply Z.ltb_lt; exact Hno).
    rewrite Z.eqb_refl. unfold zi'. rewrite Hmode.
    replace (Z.land (conf.confmode zi) (DAHDI_CONF_TALKER K) =? 0) with false
      by (symmetry; apply Z.eqb_neq; exact Htalk).
    reflexivity. }
  assert (Hfd1 : sub.dfd (psub v1 x) = fd) by (rewrite Hs1; reflexivity).
  unfold conf_del, rdsub. cbn [fst snd].
  erewrite bind_run by (apply rd_run; apply lookup_insert_eq).
  rewrite bind_assoc.
  erewrite bind_run by (apply rd_run; apply lookup_insert_eq).
  rewrite bind_ret, Hours, Hfd1.
  replace (fd <? 0) with false by (symmetry; apply Z.ltb_ge; lia).
  cbn [orb negb]. unfold hw, history, emit, ast_log. repeat mstep.
  cbn [trace pvts chans].
  destruct (ioctl K _ (DAHDI_SETCONF fd conf_zero) =? 0); cbn [negb].
  - erewrite bind_run by (apply wr_run; apply lookup_insert_eq).
    try rewrite bind_ret. eexists. eexists. exists [].
    split; [reflexivity|]. cbn [trace pvts chans].
    split; [reflexivity|]. split; [reflexivity|]. split; [reflexivity|].
    left. split; [reflexivity|]. split; [reflexivity|].
    eexists. split; [apply lookup_insert_eq|].
    rewrite psub_upd_sub, decide_True by reflexivity. reflexivity.
  - repeat mstep. eexists. eexists. eexists.
    split; [reflexivity|]. cbn [trace pvts chans].
    split; [reflexivity|]. split; [rewrite <- app_assoc; reflexivity|].
    split; [reflexivity|].
    right. split; [reflexivity|]. split; reflexivity.
Qed.

Lemma conf_del_undoes_conf_add_witness :
  exists (r : Z) (w2 : world) (rest : list event),
    conf_del dahdi_linux 1%nat (1%nat, SUB_REAL) SUB_REAL
      (world_after (conf_add dahdi_linux 1%nat (1%nat, SUB_REAL) SUB_REAL 0) world_flash) =
      Some (r, w2) /\
    trace (world_after (conf_add dahdi_linux 1%nat (1%nat, SUB_REAL) SUB_REAL 0) world_flash) =
      trace world_flash ++
      [Hw (DAHDI_SETCONF (sub.dfd (psub line_flash SUB_REAL))
             (conf_add_zi dahdi_linux line_flash SUB_REAL 0))] /\
    trace w2 =
      trace (world_after (conf_add dahdi_linux 1%nat (1%nat, SUB_REAL) SUB_REAL 0) world_flash) ++
      Hw (DAHDI_SETCONF (sub.dfd (psub line_flash SUB_REAL)) conf_zero) :: rest /\
    chans w2 = chans world_flash /\
    ((r = 0 /\ rest = [] /\
      exists v2, pvts w2 !! 1%nat = Some v2 /\
        sub.curconf (psub v2 SUB_REAL) =
          setconf_out dahdi_linux
            (trace (world_after (conf_add dahdi_linux 1%nat (1%nat, SUB_REAL) SUB_REAL 0)
                      world_flash))
            (sub.dfd (psub line_flash SUB_REAL)) conf_zero) \/
     (r = -1 /\ rest = [Log LOG_WARNING "Failed to drop from conference"] /\
      pvts w2 =
        pvts (world_after (conf_add dahdi_linux 1%nat (1%nat, SUB_REAL) SUB_REAL 0)
                world_flash))).
Proof.
  apply (conf_del_undoes_conf_add dahdi_linux 1%nat SUB_REAL line_flash world_flash).
  - discriminate.
  - intros h fd zi. cbn. destruct (conf.confno zi =? -1); reflexivity.
  - reflexivity.
  - vm_compute. discriminate.
  - reflexivity.
  - reflexivity.
  - vm_compute. reflexivity.
Defined.
(** ** Call lifecycle *)

(** X9.  A call placed on a radio line (its [radio] setting is not 0, or
    its operator mode is negative) from a leg that is Down or Reserved is
    up at once: [dahdi_call] returns 0, the leg is Up, the line has the
    destination stored and [dialednone] cleared, nothing is asked of the
    hardware and the dial routine is not run. *)
Theorem dahdi_call_radio_is_up (K : env) (dial : nat -> nat -> M Z)
    (ast p : nat) (rdest : string) (timeout : Z) (w : world) (c : chn.t) (v : pvt.t) :
  chans w !! ast = Some c ->
  chn.tech_pvt c = Some p ->
  pvts w !! p = Some v ->
  chn._state c = AST_STATE_DOWN \/ chn._state c = AST_STATE_RESERVED ->
  pvt.radio v <> 0 \/ pvt.oprmode v < 0 ->
  dahdi_call K dial ast rdest timeout w =
    Some (0, mk_world
               (<[p := pvt.set_dialednone false
                         (pvt.set_dialdest (ast_copy_string_256 rdest) v)]> (pvts w))
               (<[ast := chn.set__state AST_STATE_UP c]> (chans w))
               (trace w)).
Proof.
  intros Hc Ht Hp Hs Hr. unfold dahdi_call, tech_pvt, ast_setstate.
  rewrite (bind_assoc (rdc ast)).
  rewrite (bind_run _ _ _ _ _ (rdc_run _ _ _ Hc)). rewrite Ht. rewrite bind_ret.
  rewrite (bind_run _ _ _ _ _ (wr_run _ _ _ _ Hp)).
  erewrite bind_run; [| apply rdc_run; exact Hc].
  assert (Hgo : ast_state_eqb (chn._state c) AST_STATE_BUSY = false /\
                negb (ast_state_eqb (chn._state c) AST_STATE_DOWN) &&
                negb (ast_state_eqb (chn._state c) AST_STATE_RESERVED) = false)
    by (destruct Hs as [-> | ->]; split; reflexivity).
  destruct Hgo as [-> ->].
  erewrite bind_run; [| apply wr_run; apply lookup_insert_eq].
  cbn [pvts chans trace]. rewrite insert_insert_eq.
  erewrite bind_run; [| apply rd_run; apply lookup_insert_eq].
  assert (Hradio : negb (pvt.radio (pvt.set_dialednone false
                     (pvt.set_dialdest (ast_copy_string_256 rdest) v)) =? 0) ||
                   (pvt.oprmode (pvt.set_dialednone false
                     (pvt.set_dialdest (ast_copy_string_256 rdest) v)) <? 0) = true).
  { change (pvt.radio (pvt.set_dialednone false
             (pvt.set_dialdest (ast_copy_string_256 rdest) v))) with (pvt.radio v).
    change (pvt.oprmode (pvt.set_dialednone false
             (pvt.set_dialdest (ast_copy_string_256 rdest) v))) with (pvt.oprmode v).
    destruct Hr as [Hr|Hr].
    - apply Z.eqb_neq in Hr. rewrite Hr. reflexivity.
    - apply Z.ltb_lt in Hr. rewrite Hr. apply orb_true_r. }
  rewrite Hradio.
  erewrite bind_run; [| apply wrc_run; exact Hc]. reflexivity.
Qed.

Lemma dahdi_call_radio_is_up_witness :
  dahdi_call dahdi_linux dial_stub 100%nat "5551212" 30 world_radio =
    Some (0, mk_world
               (<[1%nat := pvt.set_dialednone false
                         (pvt.set_dialdest (ast_copy_string_256 "5551212") line_radio)]>
                  (pvts world_radio))
               (<[100%nat := chn.set__state AST_STATE_UP (leg AST_STATE_DOWN 10 1)]>
                  (chans world_radio))
               (trace world_radio)).
Proof.
  apply (dahdi_call_radio_is_up dahdi_linux dial_stub 100%nat 1%nat "5551212" 30
           world_radio (leg AST_STATE_DOWN 10 1) line_radio).
  - reflexivity.
  - reflexivity.
  - reflexivity.
  - left. reflexivity.
  - left. discriminate.
Defined.
(** X10.  [dahdi_answer] swaps only for a pending three-way call.  On a
    line that is not a radio line and has an analog signalling style,
    answered on the leg that owns Real: if ThreeWay is not flagged
    in-three-way, or the leg was not Ringing, the answer runs to the end,
    every sub-channel and the owner of the line are what they were,
    [dialing] is cleared, and of the call legs only the answered one
    changed: it is Up. *)
Theorem answer_without_swap (K : env) (answer_digital : nat -> nat -> M Z)
    (ast p : nat) (c : chn.t) (v : pvt.t) (w : world) :
  chans w !! ast = Some c ->
  chn.tech_pvt c = Some p ->
  pvts w !! p = Some v ->
  pvt.radio v = 0 ->
  0 <= pvt.oprmode v ->
  answer_analog_sig (pvt.sig v) = true ->
  sub.owner (psub v SUB_REAL) = Some ast ->
  sub.inthreeway (psub v SUB_THREEWAY) = false \/ chn._state c <> AST_STATE_RINGING ->
  exists (r : Z) (w' : world) (v' : pvt.t),
    dahdi_answer K answer_digital ast w = Some (r, w') /\
    pvts w' !! p = Some v' /\
    pvt.subs v' = pvt.subs v /\
    pvt.owner v' = pvt.owner v /\
    pvt.dialing v' = false /\
    chans w' = <[ast := chn.set__state AST_STATE_UP c]> (chans w).
Proof.
  intros Hc Ht Hp Hradio Hopr Hsig Hreal Hno.
  set (cs1 := <[ast := chn.set__state AST_STATE_UP c]> (chans w)).
  assert (Hstart : inv p (answer_plain v) (chans w) w).
  { split; [reflexivity|]. exists v. split; [exact Hp|]. repeat split. }
  assert (Hkeep_psub : forall v1 x, answer_plain v v1 -> psub v1 x = psub v x).
  { intros v1 x ((Hs & _) & _). unfold psub. rewrite Hs. reflexivity. }
  cut (triple (inv p (answer_plain v) (chans w)) (dahdi_answer K answer_digital ast)
         (fun _ => inv p (fun v' => answer_plain v v' /\ pvt.dialing v' = false) cs1)).
  { intros Htr. destruct (Htr w Hstart) as (r & w' & Hrun & Hcs & v' & Hv' & Hpost & Hd).
    exists r, w', v'. destruct Hpost as ((Hs & _) & Ho). auto 10. }
  unfold dahdi_answer.
  tstep (triple_tech_pvt p (answer_plain v) (chans w) ast c Hc Ht). tpure. subst.
  tstep (triple_rdc p (answer_plain v) (chans w) ast c Hc). tpure. subst.
  eapply triple_bind;
    [apply (triple_wrc p (answer_plain v) (chans w) ast c _ Hc)|]. intros ?.
  fold cs1.
  eapply triple_bind.
  { apply triple_get_index_real. intros v1 Hv1.
    rewrite (Hkeep_psub v1 SUB_REAL Hv1). exact Hreal. }
  intros oi. tpure. subst oi.
  tstep triple_rd. apply triple_pure. intros Hv1.
  pose proof Hv1 as ((Hs1 & Hsig1 & Hrad1 & Hopr1 & Hpol1) & Ho1).
  rewrite Hrad1, Hradio, Hopr1, Hsig1, Hsig.
  replace (pvt.oprmode v <? 0) with false by (symmetry; apply Z.ltb_ge; exact Hopr).
  cbn [Z.eqb negb orb].
  assert (Hset : forall (f : pvt.t -> pvt.t),
             (forall x, pvt.subs (f x) = pvt.subs x /\ pvt.sig (f x) = pvt.sig x /\
                        pvt.radio (f x) = pvt.radio x /\ pvt.oprmode (f x) = pvt.oprmode x /\
                        pvt.hanguponpolarityswitch (f x) = pvt.hanguponpolarityswitch x /\
                        pvt.owner (f x) = pvt.owner x) ->
             triple (inv p (answer_plain v) cs1) (wr p f)
                    (fun _ => inv p (answer_plain v) cs1)).
  { intros f Hf. apply triple_wr. intros x ((E1 & E2 & E3 & E4 & E5) & E6).
    destruct (Hf x) as (F1 & F2 & F3 & F4 & F5 & F6).
    repeat split; congruence. }
  eapply triple_bind.
  { apply triple_when. apply Hset. intros x. destruct x. repeat split. }
  intros ?.
  eapply triple_bind.
  { tstep triple_history. apply triple_when. apply Hset.
    intros x. destruct x. repeat split. }
  intros ?.
  tstep triple_set_hook.
  tstep (triple_tone K).
  eapply triple_bind with
    (Q := fun _ => inv p (fun v' => answer_plain v v' /\ pvt.dialing v' = false) cs1).
  { apply triple_wr. intros x ((E1 & E2 & E3 & E4 & E5) & E6).
    destruct x. repeat split; assumption. }
  intros ?.
  tstep triple_rd. apply triple_pure. intros [Hv2 Hd2].
  rewrite (Hkeep_psub _ SUB_THREEWAY Hv2).
  cbn [subidx_eqb andb].
  eapply triple_bind with
    (Q := fun _ => inv p (fun v' => answer_plain v v' /\ pvt.dialing v' = false) cs1).
  { destruct Hno as [H3|Hring].
    - rewrite H3. apply triple_ret. auto.
    - destruct (sub.inthreeway (psub v SUB_THREEWAY)); [|apply triple_ret; auto].
      destruct (chn._state c); try congruence; apply triple_ret; auto. }
  intros ?.
  eapply triple_bind with
    (Q := fun _ => inv p (fun v' => answer_plain v v' /\ pvt.dialing v' = false) cs1).
  { assert (Hec : forall x b, answer_plain v x /\ pvt.dialing x = false ->
               answer_plain v (pvt.set_echocanon b x) /\
               pvt.dialing (pvt.set_echocanon b x) = false).
    { intros x b (((E1 & E2 & E3 & E4 & E5) & E6) & E7). destruct x.
      repeat split; assumption. }
    apply triple_when.
    tstep triple_enable_ec; [apply Hec|].
    apply triple_train_ec. }
  intros ?. apply triple_ret. auto.
Qed.

Lemma answer_without_swap_witness :
  exists (r : Z) (w' : world) (v' : pvt.t),
    dahdi_answer dahdi_linux (fun _ _ => ret 0) 100%nat world_flash = Some (r, w') /\
    pvts w' !! 1%nat = Some v' /\
    pvt.subs v' = pvt.subs line_flash /\
    pvt.owner v' = pvt.owner line_flash /\
    pvt.dialing v' = false /\
    chans w' = <[100%nat := chn.set__state AST_STATE_UP (leg AST_STATE_UP 10 1)]>
                 (chans world_flash).
Proof.
  apply (answer_without_swap dahdi_linux (fun _ _ => ret 0) 100%nat 1%nat
           (leg AST_STATE_UP 10 1) line_flash world_flash); try reflexivity.
  left. reflexivity.
Defined.
Lemma bind_rdc_inv {A} (c : nat) (k : chn.t -> M A) (w : world) (r : A * world) :
  bind (rdc c) k w = Some r -> exists ch, chans w !! c = Some ch /\ k ch w = Some r.
Proof.
  unfold bind, rdc. destruct (chans w !! c) as [ch|]; [|discriminate].
  intros H. exists ch. split; [reflexivity | exact H].
Qed.

Lemma bind_inv {A B} (m : M A) (k : A -> M B) (w : world) (r : B * world) :
  bind m k w = Some r -> exists a w1, m w = Some (a, w1) /\ k a w1 = Some r.
Proof.
  unfold bind. destruct (m w) as [[a w1]|]; [|discriminate].
  intros H. exists a, w1. split; [reflexivity | exact H].
Qed.

(** With [nullok] set, [dahdi_get_index] only reads. *)
Lemma get_index_nullok_reads (ast p : nat) (w w' : world) (r : option subidx) :
  dahdi_get_index ast p true w = Some (r, w') -> w' = w.
Proof.
  unfold dahdi_get_index. intros H.
  apply bind_rd_inv in H as (v & _ & H).
  repeat match type of H with
         | (if ?b then _ else _) _ = _ => destruct b
         end; inversion H; reflexivity.
Qed.

Lemma something_changed_again (s : bridge_saved) (va vb : bridge_vars) (w w' : world) :
  something_changed s va w = Some (false, w') ->
  i0 vb = i0 va -> i1 vb = i1 va -> timeoutms vb <> 0 ->
  something_changed s vb w = Some (false, w').
Proof.
  destruct va as [a b pr t], vb as [a' b' pr' t']. cbn [i0 i1 timeoutms].
  intros H -> -> Ht. apply Z.eqb_neq in Ht.
  unfold something_changed in *. cbn [i0 i1 timeoutms] in *.
  apply bind_rdc_inv in H as (ch0 & Hc0 & H).
  apply bind_rdc_inv in H as (ch1 & Hc1 & H).
  rewrite (bind_run _ _ _ _ _ (rdc_run _ _ _ Hc0)).
  rewrite (bind_run _ _ _ _ _ (rdc_run _ _ _ Hc1)).
  rewrite Ht. destruct (t =? 0); [|exact H].
  cbn [orb] in H. discriminate H.
Qed.

Lemma bridge_validate_again (s : bridge_saved) (v v' v2 : bridge_vars) (w : world) :
  bridge_validate s v w = Some (Some v', w) ->
  timeoutms v2 <> 0 ->
  bridge_validate s v2 w =
    Some (Some (mk_vars (i0 v') (i1 v') (priority v2) (timeoutms v2)), w).
Proof.
  intros H Ht. unfold bridge_validate in *.
  apply bind_rdc_inv in H as (ch0 & Hc0 & H).
  apply bind_rdc_inv in H as (ch1 & Hc1 & H).
  apply bind_inv in H as (a & wa & Ha & H).
  apply bind_inv in H as (b & wb & Hb & H).
  apply bind_inv in H as (ch & wc & Hch & H).
  destruct ch; [discriminate H|]. inversion H; subst wc v'; clear H.
  cbn [i0 i1].
  assert (Hwa : wa = w).
  { destruct (opt_nat_eqb _ _); [eapply get_index_nullok_reads; exact Ha|].
    inversion Ha; reflexivity. }
  subst wa.
  assert (Hwb : wb = w).
  { destruct (opt_nat_eqb (Some (op1 s)) _); [eapply get_index_nullok_reads; exact Hb|].
    inversion Hb; reflexivity. }
  subst wb.
  (* both legs still run on their lines, or something changed *)
  assert (Hsame : opt_nat_eqb (Some (op0 s)) (chn.tech_pvt ch0) = true /\
                  opt_nat_eqb (Some (op1 s)) (chn.tech_pvt ch1) = true).
  { unfold something_changed in Hch.
    rewrite (bind_run _ _ _ _ _ (rdc_run _ _ _ Hc0)) in Hch.
    rewrite (bind_run _ _ _ _ _ (rdc_run _ _ _ Hc1)) in Hch.
    destruct (opt_nat_eqb (Some (op0 s)) (chn.tech_pvt ch0));
      [|rewrite orb_true_r in Hch; discriminate Hch].
    destruct (opt_nat_eqb (Some (op1 s)) (chn.tech_pvt ch1));
      [|rewrite ?orb_true_r in Hch; discriminate Hch].
    split; reflexivity. }
  destruct Hsame as [E0 E1]. rewrite E0 in Ha. rewrite E1 in Hb.
  rewrite (bind_run _ _ _ _ _ (rdc_run _ _ _ Hc0)).
  rewrite (bind_run _ _ _ _ _ (rdc_run _ _ _ Hc1)).
  rewrite E0, E1.
  rewrite (bind_run _ _ _ _ _ Ha), (bind_run _ _ _ _ _ Hb).
  erewrite bind_run;
    [| eapply something_changed_again; [exact Hch | reflexivity | reflexivity | exact Ht]].
  reflexivity.
Qed.

Lemma bridge_quiet_prefix (s : bridge_saved) (w : world) (quiet rest : list bridge_input) :
  forall v v',
    bridge_validate s v w = Some (Some v', w) ->
    forallb quiet_turn quiet = true ->
    exists v2 v2',
      bridge_loop s v (quiet ++ rest) w = bridge_loop s v2 rest w /\
      bridge_validate s v2 w = Some (Some v2', w).
Proof.
  induction quiet as [|inp quiet IH]; intros v v' Hval Hq.
  - exists v, v'. split; [reflexivity | exact Hval].
  - cbn [forallb] in Hq. apply andb_prop in Hq as [Hinp Hq].
    unfold quiet_turn in Hinp. apply andb_prop in Hinp as [Ht Hinp].
    apply negb_true_iff, Z.eqb_neq in Ht.
    cbn [app bridge_loop]. unfold bridge_step.
    rewrite bind_assoc, (bind_run _ _ _ _ _ Hval).
    unfold bridge_deliver. cbn [i0 i1 priority timeoutms].
    destruct (who inp) as [wh|].
    + destruct (frame inp) as [f|]; [|discriminate Hinp].
      destruct (frametype f); try discriminate Hinp; rewrite bind_ret;
        (eapply IH; [|exact Hq]);
        (apply (bridge_validate_again s v v'); [exact Hval | exact Ht]).
    + rewrite bind_ret. eapply IH; [|exact Hq].
      apply (bridge_validate_again s v v'); [exact Hval | exact Ht].
Qed.

(** ** Native bridge engine *)

(** X11.  The loop of [dahdi_bridge] leaves voice to the hardware.  Once
    a turn has passed the re-validation, any number of further turns in
    which nothing was ready, or the frame read was neither control nor
    DTMF, with time left on the clock, keep the bridge up and change
    nothing: no frame is written to either leg.  The first turn after
    them in which a leg hangs up or delivers a control frame ends the
    bridge with AST_BRIDGE_COMPLETE, that frame and that leg. *)
Theorem bridge_carries_voice (s : bridge_saved) (v v' : bridge_vars) (w : world)
    (quiet : list bridge_input) :
  bridge_validate s v w = Some (Some v', w) ->
  forallb quiet_turn quiet = true ->
  bridge_loop s v quiet w = Some (None, w) /\
  forall (final : bridge_input) (rest : list bridge_input),
    final_turn final = true ->
    bridge_loop s v (quiet ++ final :: rest) w =
      Some (Some (mk_return AST_BRIDGE_COMPLETE (frame final) (who final)), w).
Proof.
  intros Hval Hq. split.
  - destruct (bridge_quiet_prefix s w quiet [] v v' Hval Hq) as (v2 & v2' & Hrun & _).
    rewrite app_nil_r in Hrun. rewrite Hrun. reflexivity.
  - intros final rest Hfinal.
    destruct (bridge_quiet_prefix s w quiet (final :: rest) v v' Hval Hq)
      as (v2 & v2' & Hrun & Hval2).
    rewrite Hrun. cbn [bridge_loop]. unfold bridge_step.
    rewrite bind_assoc, (bind_run _ _ _ _ _ Hval2).
    unfold bridge_deliver, final_turn in *.
    destruct (who final) as [wh|]; [|discriminate Hfinal].
    destruct (frame final) as [f|]; [|reflexivity].
    destruct (frametype f); try discriminate Hfinal. reflexivity.
Qed.

Lemma bridge_carries_voice_witness :
  bridge_loop saved_talking vars_start
    [mk_input (Some 100%nat) 900 (Some (mk_frame AST_FRAME_VOICE SC_NONE));
     mk_input None 800 None] world_talking = Some (None, world_talking) /\
  forall (final : bridge_input) (rest : list bridge_input),
    final_turn final = true ->
    bridge_loop saved_talking vars_start
      ([mk_input (Some 100%nat) 900 (Some (mk_frame AST_FRAME_VOICE SC_NONE));
        mk_input None 800 None] ++ final :: rest) world_talking =
      Some (Some (mk_return AST_BRIDGE_COMPLETE (frame final) (who final)), world_talking).
Proof.
  apply (bridge_carries_voice saved_talking vars_start
           (mk_vars (Some SUB_REAL) (Some SUB_REAL) false 1000) world_talking).
  - reflexivity.
  - reflexivity.
Defined.
Lemma opt_nat_eqb_false (a : nat) (o : option nat) :
  o <> Some a -> opt_nat_eqb (Some a) o = false.
Proof.
  intros H. destruct o as [b|]; [|reflexivity]. cbn.
  apply Nat.eqb_neq. congruence.
Qed.

(** X12.  When the time is used up, or a leg no longer runs on the line
    or reads from the descriptor it was bridged with, the next turn of
    the loop ends the bridge with AST_BRIDGE_RETRY, no frame and no leg,
    without looking at what the PBX core delivers and without changing
    anything. *)
Theorem bridge_retries_on_change (s : bridge_saved) (v : bridge_vars)
    (inp : bridge_input) (rest : list bridge_input) (w : world)
    (ch0 ch1 : chn.t) (p0 p1 : pvt.t) :
  chans w !! c0 s = Some ch0 ->
  chans w !! c1 s = Some ch1 ->
  pvts w !! op0 s = Some p0 ->
  pvts w !! op1 s = Some p1 ->
  timeoutms v = 0 \/
  chn.tech_pvt ch0 <> Some (op0 s) \/ chn.tech_pvt ch1 <> Some (op1 s) \/
  chn.fds0 ch0 <> ofd0 s \/ chn.fds0 ch1 <> ofd1 s ->
  bridge_loop s v (inp :: rest) w =
    Some (Some (mk_return AST_BRIDGE_RETRY None None), w).
Proof.
  intros Hc0 Hc1 Hp0 Hp1 Hchg.
  assert (Hidx : forall ast p pv (d : option subidx) (b : bool),
            pvts w !! p = Some pv ->
            exists a, (if b then dahdi_get_index ast p true else ret d) w = Some (a, w)).
  { intros ast p pv d b Hp. destruct b; [|exists d; reflexivity].
    destruct (dahdi_get_index_run ast p true pv w Hp) as (r & w' & Hrun & _).
    pose proof (get_index_nullok_reads _ _ _ _ _ Hrun). subst w'.
    exists r. exact Hrun. }
  cbn [bridge_loop]. unfold bridge_step, bridge_validate.
  rewrite !bind_assoc.
  rewrite (bind_run _ _ _ _ _ (rdc_run _ _ _ Hc0)). rewrite !bind_assoc.
  rewrite (bind_run _ _ _ _ _ (rdc_run _ _ _ Hc1)). rewrite !bind_assoc.
  destruct (Hidx (c0 s) (op0 s) p0 (i0 v)
              (opt_nat_eqb (Some (op0 s)) (chn.tech_pvt ch0)) Hp0) as [a Ha].
  destruct (Hidx (c1 s) (op1 s) p1 (i1 v)
              (opt_nat_eqb (Some (op1 s)) (chn.tech_pvt ch1)) Hp1) as [b Hb].
  rewrite (bind_run _ _ _ _ _ Ha). rewrite !bind_assoc.
  rewrite (bind_run _ _ _ _ _ Hb). rewrite !bind_assoc.
  unfold something_changed. cbn [timeoutms].
  rewrite !bind_assoc.
  rewrite (bind_run _ _ _ _ _ (rdc_run _ _ _ Hc0)). rewrite !bind_assoc.
  rewrite (bind_run _ _ _ _ _ (rdc_run _ _ _ Hc1)).
  assert (Hcond : (timeoutms v =? 0)
                  || negb (opt_nat_eqb (Some (op0 s)) (chn.tech_pvt ch0))
                  || negb (opt_nat_eqb (Some (op1 s)) (chn.tech_pvt ch1))
                  || negb (ofd0 s =? chn.fds0 ch0)
                  || negb (ofd1 s =? chn.fds0 ch1) = true).
  { destruct Hchg as [H|[H|[H|[H|H]]]].
    - rewrite H. reflexivity.
    - rewrite (opt_nat_eqb_false _ _ H). cbn [negb]. rewrite ?orb_true_r. reflexivity.
    - rewrite (opt_nat_eqb_false _ _ H). cbn [negb]. rewrite ?orb_true_r. reflexivity.
    - replace (ofd0 s =? chn.fds0 ch0) with false
        by (symmetry; apply Z.eqb_neq; congruence).
      cbn [negb]. rewrite ?orb_true_r. reflexivity.
    - replace (ofd1 s =? chn.fds0 ch1) with false
        by (symmetry; apply Z.eqb_neq; congruence).
      cbn [negb]. rewrite ?orb_true_r. reflexivity. }
  rewrite Hcond. repeat mstep. reflexivity.
Qed.

Lemma bridge_retries_on_change_witness :
  bridge_loop saved_talking (mk_vars None None false 0)
    (mk_input (Some 100%nat) 900 (Some dtmf_5) :: []) world_talking =
  Some (Some (mk_return AST_BRIDGE_RETRY None None), world_talking).
Proof.
  apply (bridge_retries_on_change saved_talking (mk_vars None None false 0)
           (mk_input (Some 100%nat) 900 (Some dtmf_5)) [] world_talking
           (leg AST_STATE_UP 10 1) (leg AST_STATE_UP 20 2)
           (pvt.set_owner (Some 100%nat) (line SIG_FXOKS 1 1 (sub_open 10 (Some 100%nat))))
           (pvt.set_owner (Some 200%nat) (line SIG_FXOKS 2 1 (sub_open 20 (Some 200%nat))))).
  - reflexivity.
  - reflexivity.
  - reflexivity.
  - reflexivity.
  - left. reflexivity.
Defined.

(** ** Transfer and hook events *)

(** X13.  There is no transfer without a bridge.  When neither the leg on
    Real nor the leg on ThreeWay is bridged to another leg,
    [attempt_transfer] returns -1 and its only effect is the soft-hangup
    flag on the leg on ThreeWay: no line changes, nothing is asked of the
    hardware, no masquerade is requested. *)
Theorem transfer_needs_a_bridge (K : env) (p : nat) (v : pvt.t) (w : world)
    (oreal o3 : nat) (creal c3 : chn.t) :
  pvts w !! p = Some v ->
  sub.owner (psub v SUB_REAL) = Some oreal ->
  sub.owner (psub v SUB_THREEWAY) = Some o3 ->
  chans w !! oreal = Some creal ->
  chans w !! o3 = Some c3 ->
  chn.bridged creal = None ->
  chn.bridged c3 = None ->
  attempt_transfer K p w =
    Some (-1, mk_world (pvts w)
                (<[o3 := chn.set__softhangup
                           (Z.lor (chn._softhangup c3) AST_SOFTHANGUP_DEV) c3]> (chans w))
                (trace w)).
Proof.
  intros Hp Hreal H3 Hcr Hc3 Hbr Hb3.
  unfold attempt_transfer, owner_of, ast_bridged_channel, softhangup_dev.
  repeat mstep. rewrite Hreal. repeat mstep. rewrite Hbr.
  repeat mstep. rewrite H3. repeat mstep. rewrite Hb3.
  repeat mstep. reflexivity.
Qed.
Lemma hw_run (K : env) (c : hwcall) (w : world) :
  hw K c w = Some (ioctl K (trace w) c, mk_world (pvts w) (chans w) (trace w ++ [Hw c])).
Proof. reflexivity. Qed.

Lemma emit_run (e : event) (w : world) :
  emit e w = Some (tt, mk_world (pvts w) (chans w) (trace w ++ [e])).
Proof. reflexivity. Qed.

Lemma masquerade_run (K : env) (original clone : nat) (w : world) :
  masquerade K original clone w =
    Some (ast_channel_masquerade K (trace w) original clone,
          mk_world (pvts w) (chans w) (trace w ++ [AstMasquerade original clone])).
Proof. reflexivity. Qed.

Lemma transfer_needs_a_bridge_witness :
  attempt_transfer dahdi_linux 1%nat world_flash =
    Some (-1, mk_world (pvts world_flash)
                (<[300%nat := chn.set__softhangup
                                (Z.lor (chn._softhangup (leg AST_STATE_UP 30 1))
                                   AST_SOFTHANGUP_DEV) (leg AST_STATE_UP 30 1)]>
                   (chans world_flash))
                (trace world_flash)).
Proof.
  apply (transfer_needs_a_bridge dahdi_linux 1%nat line_flash world_flash
           100%nat 300%nat (leg AST_STATE_UP 10 1) (leg AST_STATE_UP 30 1));
    reflexivity.
Defined.

(** X14.  The transfer when only the party on ThreeWay is bridged.  The
    leg on Real is not bridged, the leg on ThreeWay is bridged to [b],
    there is no call-waiting call, and the PBX core accepts the
    masquerade.  Then [attempt_transfer] returns 1 (the caller must not
    hang up), the masquerade of the leg on Real into [b] was requested,
    and the line holds what [swap_subs] followed by [unalloc_sub] leave:
    the leg that was on ThreeWay now owns Real and reads from Real's
    descriptor, and ThreeWay is released. *)
Theorem transfer_to_held_party (K : env) (p : nat) (v : pvt.t) (w : world)
    (oreal o3 b : nat) (creal c3 : chn.t) :
  pvts w !! p = Some v ->
  sub.owner (psub v SUB_REAL) = Some oreal ->
  sub.owner (psub v SUB_THREEWAY) = Some o3 ->
  sub.owner (psub v SUB_CALLWAIT) = None ->
  chans w !! oreal = Some creal ->
  chans w !! o3 = Some c3 ->
  chn.bridged creal = None ->
  chn.bridged c3 = Some b ->
  is_Some (chans w !! b) ->
  (forall h, ast_channel_masquerade K h oreal b = 0) ->
  exists (w' : world) (c3' : chn.t),
    attempt_transfer K p w = Some (1, w') /\
    pvts w' = <[p := released SUB_THREEWAY (swapped SUB_THREEWAY SUB_REAL v)]> (pvts w) /\
    In (AstMasquerade oreal b) (trace w') /\
    chans w' !! o3 = Some c3' /\
    chn.fds0 c3' = sub.dfd (psub v SUB_REAL).
Proof.
  intros Hp Hreal H3 Hcw Hcr Hc3 Hbr Hb3 Hb Hmasq.
  assert (Hne : oreal <> o3) by (intros ->; congruence).
  unfold attempt_transfer, owner_of, ast_bridged_channel, ast_queue_control, ast_queue.
  repeat mstep. rewrite Hreal. repeat mstep. rewrite Hbr.
  repeat mstep. rewrite H3. repeat mstep. rewrite Hb3.
  repeat mstep.
  set (cs1 := <[oreal := _]> (chans w)).
  assert (Hcs1 : forall c, is_Some (chans w !! c) -> is_Some (cs1 !! c)).
  { intros c [ch Hch]. unfold cs1. rewrite lookup_insert. case_decide; eauto. }
  assert (H1 : exists t1,
             when (ast_state_eqb (chn._state c3) AST_STATE_RINGING)
                  (ast_indicate b AST_CONTROL_RINGING)
                  (mk_world (pvts w) cs1 (trace w)) =
               Some (tt, mk_world (pvts w) cs1 (trace w ++ t1))).
  { destruct (ast_state_eqb _ _); cbn [when].
    - destruct (Hcs1 b Hb) as [cb Hcb]. unfold ast_indicate.
      erewrite bind_run by (apply rdc_run; exact Hcb).
      eexists. reflexivity.
    - exists []. rewrite app_nil_r. reflexivity. }
  destruct H1 as [t1 H1]. rewrite (bind_run _ _ _ _ _ H1).
  erewrite bind_run by (apply rdc_run; apply lookup_insert_eq).
  erewrite bind_run by (apply rd_run; exact Hp).
  assert (H2 : exists t2, forall (ps : gmap nat pvt.t) (cs : gmap nat chn.t) (t : list event)
                                 (st : ast_state),
             when (ast_state_eqb st AST_STATE_RING)
                  (bind (tone_zone_play_tone K (sub.dfd (psub v SUB_REAL))
                           (DAHDI_TONE_RINGTONE K)) (fun _ => ret tt))
                  (mk_world ps cs t) = Some (tt, mk_world ps cs (t ++ t2 st))).
  { exists (fun st => if ast_state_eqb st AST_STATE_RING
                      then [Hw (TONE_ZONE_PLAY_TONE (sub.dfd (psub v SUB_REAL))
                                  (DAHDI_TONE_RINGTONE K))] else []).
    intros ps cs t st. destruct (ast_state_eqb st AST_STATE_RING); cbn [when].
    - reflexivity.
    - rewrite app_nil_r. reflexivity. }
  destruct H2 as [t2 H2]. rewrite (bind_run _ _ _ _ _ (H2 _ _ _ _)).
  rewrite (bind_run _ _ _ _ _ (masquerade_run _ _ _ _)). rewrite Hmasq.
  cbn [Z.eqb negb pvts chans trace].
  erewrite bind_run.
  2:{ apply (swap_subs_run p SUB_THREEWAY SUB_REAL v); [exact Hp|].
      intros x o Ho. cbn [chans]. apply Hcs1.
      destruct x; rewrite ?Hreal, ?H3, ?Hcw in Ho; inversion Ho; subst; eauto. }
  erewrite bind_run.
  2:{ apply (unalloc_sub_run p SUB_THREEWAY (swapped SUB_THREEWAY SUB_REAL v));
        [discriminate | apply lookup_insert_eq]. }
  cbn [pvts chans trace]. rewrite insert_insert_eq.
  assert (Hleg : exists c3', legs_swapped SUB_THREEWAY SUB_REAL v cs1 !! o3 = Some c3' /\
                             chn.fds0 c3' = sub.dfd (psub v SUB_REAL)).
  { unfold legs_swapped. rewrite Hreal, H3. rewrite !on_leg_lookup.
    unfold cs1. rewrite lookup_insert_ne by exact Hne. rewrite Hc3.
    repeat case_decide; try congruence.
    cbn. eexists. split; reflexivity. }
  destruct Hleg as (c3' & Hl & Hfd).
  eexists. exists c3'. split; [reflexivity|]. cbn [pvts chans trace].
  split; [reflexivity|]. split; [|split; assumption].
  rewrite !in_app_iff. left. right. left. reflexivity.
Qed.

Lemma transfer_to_held_party_witness :
  exists (w' : world) (c3' : chn.t),
    attempt_transfer dahdi_linux 1%nat world_held = Some (1, w') /\
    pvts w' = <[1%nat := released SUB_THREEWAY (swapped SUB_THREEWAY SUB_REAL line_flash)]>
                (pvts world_held) /\
    In (AstMasquerade 100%nat 400%nat) (trace w') /\
    chans w' !! 300%nat = Some c3' /\
    chn.fds0 c3' = sub.dfd (psub line_flash SUB_REAL).
Proof.
  apply (transfer_to_held_party dahdi_linux 1%nat line_flash world_held
           100%nat 300%nat 400%nat (leg AST_STATE_UP 10 1)
           (chn.mk AST_STATE_UP 30 0 true (Some 1%nat) (Some 400%nat) [])).
  - reflexivity.
  - reflexivity.
  - reflexivity.
  - reflexivity.
  - reflexivity.
  - reflexivity.
  - reflexivity.
  - reflexivity.
  - vm_compute. eauto.
  - intros h. reflexivity.
Defined.
(** What [swap_subs] changes of a leg: the descriptor it reads from and
    its read queue. *)
Lemma legs_swapped_lookup (a b : subidx) (v : pvt.t) (cs : gmap nat chn.t)
    (c : nat) (ch : chn.t) :
  cs !! c = Some ch ->
  exists ch', legs_swapped a b v cs !! c = Some ch' /\
    chn._state ch' = chn._state ch /\ chn.bridged ch' = chn.bridged ch /\
    chn.tech_pvt ch' = chn.tech_pvt ch /\ chn.pbx ch' = chn.pbx ch /\
    chn._softhangup ch' = chn._softhangup ch.
Proof.
  intros Hc. unfold legs_swapped. rewrite !on_leg_lookup, Hc.
  repeat case_decide; cbn; eexists; (split; [reflexivity|]);
    destruct ch; repeat split.
Qed.

Lemma disable_ec_run (K : env) (p : nat) (v : pvt.t) (w : world) :
  pvts w !! p = Some v ->
  exists t, dahdi_disable_ec K p w =
    Some (tt, mk_world (<[p := pvt.set_echocanon false v]> (pvts w)) (chans w)
                (trace w ++ t)).
Proof.
  intros Hp. unfold dahdi_disable_ec.
  rewrite (bind_run _ _ _ _ _ (rd_run _ _ _ Hp)).
  destruct (pvt.echocanon v).
  - rewrite !bind_assoc, (bind_run _ _ _ _ _ (hw_run _ _ _)).
    destruct (negb _); cbn [when]; unfold ast_log.
    + rewrite (bind_run _ _ _ _ _ (emit_run _ _)).
      erewrite wr_run by exact Hp. cbn [pvts chans trace].
      rewrite <- app_assoc. eexists. reflexivity.
    + rewrite bind_ret. erewrite wr_run by exact Hp. eexists. reflexivity.
  - rewrite bind_ret. erewrite wr_run by exact Hp.
    exists []. rewrite app_nil_r. reflexivity.
Qed.

(** The line after the on-hook event has promoted the call-waiting call:
    field by field. *)
Lemma promoted_line (t : Z) (d : bool) (v : pvt.t) :
  let v1 := pvt.set_msgstate (-1) (pvt.set_onhooktime t v) in
  let v4 := pvt.set_owner None
              (pvt.set_cidcwexpire 0
                 (pvt.set_callwaitingrepeat 0
                    (released SUB_CALLWAIT (swapped SUB_CALLWAIT SUB_REAL v1)))) in
  let v5 := if d then pvt.set_dialing true v4 else v4 in
  let v6 := pvt.set_echocanon false v5 in
  sub.owner (psub v4 SUB_REAL) = sub.owner (psub v SUB_CALLWAIT) /\
  pvt.channel v5 = pvt.channel v /\
  sub.owner (psub v6 SUB_REAL) = sub.owner (psub v SUB_CALLWAIT) /\
  sub.dfd (psub v6 SUB_REAL) = sub.dfd (psub v SUB_REAL) /\
  sub.owner (psub v6 SUB_CALLWAIT) = None /\
  sub.dfd (psub v6 SUB_CALLWAIT) = -1 /\
  psub v6 SUB_THREEWAY = psub v SUB_THREEWAY /\
  pvt.owner v6 = None /\
  pvt.dialing v6 = (if d then true else pvt.dialing v) /\
  pvt.echocanon v6 = false.
Proof.
  destruct_line v; destruct d; vm_compute; repeat split.
Qed.

(** With enough fuel the ring loop ends once the kernel stops asking for
    another try: it returns 0, and what it adds to the trace are ring
    requests, the first of them at once, and at most a warning. *)
Lemma ring_loop_ends (K : env) (dfd : Z) (fuel : nat) :
  forall (n : nat) (w : world),
    (n < fuel)%nat ->
    (exists k, (k <= n)%nat /\
       ring_retry K (trace w ++ repeat (Hw (ring_request K dfd)) k) dfd = false) ->
    exists t, ring_loop K fuel dfd w =
      Some (0, mk_world (pvts w) (chans w) (trace w ++ Hw (ring_request K dfd) :: t)).
Proof.
  induction fuel as [|fuel IH]; intros n w Hn (k & Hk & Hstop); [lia|].
  cbn [ring_loop]. unfold history.
  rewrite (bind_run _ _ _ _ _ eq_refl).
  rewrite (bind_run _ _ _ _ _ (hw_run _ _ _)).
  fold (ring_request K dfd).
  destruct (negb (ioctl K (trace w) (ring_request K dfd) =? 0)) eqn:Eres.
  - destruct ((ioctl_errno K (trace w) (ring_request K dfd) =? EBUSY K)
              || (ioctl_errno K (trace w) (ring_request K dfd) =? EINTR K)) eqn:Eretry.
    + (* another try *)
      destruct k as [|k].
      { cbn [repeat] in Hstop. rewrite app_nil_r in Hstop.
        unfold ring_retry in Hstop. rewrite Eres, Eretry in Hstop. discriminate Hstop. }
      destruct n as [|n]; [lia|].
      destruct (IH n (mk_world (pvts w) (chans w) (trace w ++ [Hw (ring_request K dfd)])))
        as [t Ht]; [lia| |].
      { exists k. split; [lia|]. cbn [trace].
        rewrite <- app_assoc. exact Hstop. }
      rewrite Ht. cbn [pvts chans trace]. rewrite <- app_assoc.
      eexists. reflexivity.
    + destruct (_ =? EINPROGRESS K).
      * exists []. reflexivity.
      * unfold ast_log. rewrite (bind_run _ _ _ _ _ (emit_run _ _)).
        cbn [pvts chans trace]. rewrite <- app_assoc. eexists. reflexivity.
  - apply negb_false_iff, Z.eqb_eq in Eres. rewrite Eres. exists []. reflexivity.
Qed.

Lemma dahdi_ring_phone_run (K : env) (fuel n : nat) (p : nat) (v : pvt.t) (w : world) :
  pvts w !! p = Some v ->
  (n < fuel)%nat ->
  ring_settles K (sub.dfd (psub v SUB_REAL)) n ->
  exists t, dahdi_ring_phone K fuel p w =
    Some (0, mk_world (pvts w) (chans w)
               (trace w ++ Hw (DAHDI_HOOK (sub.dfd (psub v SUB_REAL)) (DAHDI_ONHOOK K))
                        :: Hw (ring_request K (sub.dfd (psub v SUB_REAL))) :: t)).
Proof.
  intros Hp Hn Hs. unfold dahdi_ring_phone.
  rewrite (bind_run _ _ _ _ _ (rd_run _ _ _ Hp)).
  rewrite (bind_run _ _ _ _ _ (hw_run _ _ _)).
  destruct (ring_loop_ends K (sub.dfd (psub v SUB_REAL)) fuel n
              (mk_world (pvts w) (chans w)
                 (trace w ++ [Hw (DAHDI_HOOK (sub.dfd (psub v SUB_REAL)) (DAHDI_ONHOOK K))]))
              Hn (Hs _)) as [t Ht].
  rewrite Ht. cbn [pvts chans trace]. rewrite <- app_assoc. eexists. reflexivity.
Qed.

(** The descriptor the phone is rung on is the one Real had. *)
Lemma promoted_line_dfd (t : Z) (d : bool) (v : pvt.t) :
  let v1 := pvt.set_msgstate (-1) (pvt.set_onhooktime t v) in
  let v4 := pvt.set_owner None
              (pvt.set_cidcwexpire 0
                 (pvt.set_callwaitingrepeat 0
                    (released SUB_CALLWAIT (swapped SUB_CALLWAIT SUB_REAL v1)))) in
  let v5 := if d then pvt.set_dialing true v4 else v4 in
  sub.dfd (psub v5 SUB_REAL) = sub.dfd (psub v SUB_REAL).
Proof.
  destruct_line v; destruct d; vm_compute; reflexivity.
Qed.

(** X15.  Hanging up with a call waiting.  On a line with FXO
    signalling that is neither a radio nor an operator-mode line, an
    on-hook event on the Real leg while a leg owns CallWait, when the
    kernel stops answering EBUSY or EINTR to the ring request after at
    most [n] tries in a row and the retry loop is given more than [n]
    rounds: the handler returns NULL (the leg that hung up is to be hung
    up), the waiting leg owns Real, on the descriptor Real had; CallWait
    is released; the line has no owner; [dialing] is set unless the
    waiting leg is already Up; echo cancellation is off; and the
    descriptor of Real was sent the on-hook request and then the ring
    request. *)
Theorem onhook_promotes_call_waiting (K : env) (onhook_oprmode : nat -> M unit)
    (fuel n : nat) (ast p : nat) (v : pvt.t) (w : world) (ocw : nat) (ccw : chn.t) :
  pvts w !! p = Some v ->
  pvt.radio v = 0 ->
  0 <= pvt.oprmode v ->
  sig_is_fxo (pvt.sig v) = true ->
  sub.owner (psub v SUB_CALLWAIT) = Some ocw ->
  chans w !! ocw = Some ccw ->
  owners_known v w ->
  ring_settles K (sub.dfd (psub v SUB_REAL)) n ->
  (n < fuel)%nat ->
  exists (w' : world) (v' : pvt.t) (t1 t2 t3 : list event),
    handle_onhook K onhook_oprmode fuel ast p SUB_REAL w = Some (None, w') /\
    pvts w' !! p = Some v' /\
    sub.owner (psub v' SUB_REAL) = Some ocw /\
    sub.dfd (psub v' SUB_REAL) = sub.dfd (psub v SUB_REAL) /\
    sub.owner (psub v' SUB_CALLWAIT) = None /\
    sub.dfd (psub v' SUB_CALLWAIT) = -1 /\
    psub v' SUB_THREEWAY = psub v SUB_THREEWAY /\
    pvt.owner v' = None /\
    pvt.dialing v' =
      (if ast_state_eqb (chn._state ccw) AST_STATE_UP then pvt.dialing v else true) /\
    pvt.echocanon v' = false /\
    trace w' =
      trace w ++ t1 ++
      Hw (DAHDI_HOOK (sub.dfd (psub v SUB_REAL)) (DAHDI_ONHOOK K)) ::
      Hw (DAHDI_HOOK (sub.dfd (psub v SUB_REAL)) (DAHDI_RING K)) :: t2 ++ t3 /\
    chans w' = legs_swapped SUB_CALLWAIT SUB_REAL v (chans w).
Proof.
  intros Hp Hradio Hopr Hsig Hcw Hccw Hk Hring Hfuel.
  unfold handle_onhook.
  rewrite (bind_run _ _ _ _ _ (rd_run _ _ _ Hp)).
  rewrite Hradio, Hsig, Hcw. cbn [Z.eqb negb is_some].
  replace (pvt.oprmode v <? 0) with false by (symmetry; apply Z.ltb_ge; exact Hopr).
  unfold history. repeat mstep. cbn [pvts chans trace]. rewrite ?insert_insert_eq.
  set (t := tv_sec (ast_tvnow K (trace w))).
  set (v1 := pvt.set_msgstate (-1) (pvt.set_onhooktime t v)).
  destruct (swapped_same_subs SUB_CALLWAIT SUB_REAL v1 v eq_refl) as (_ & Hlegs & Hpsub).
  erewrite bind_run.
  2:{ apply (swap_subs_run p SUB_CALLWAIT SUB_REAL v1); [apply lookup_insert_eq|].
      intros x o Ho. apply (Hk x o). rewrite <- Hpsub. exact Ho. }
  cbn [pvts chans trace]. rewrite insert_insert_eq, Hlegs.
  rewrite !bind_assoc.
  erewrite bind_run.
  2:{ apply (unalloc_sub_run p SUB_CALLWAIT (swapped SUB_CALLWAIT SUB_REAL v1));
        [discriminate | apply lookup_insert_eq]. }
  cbn [pvts chans trace]. rewrite insert_insert_eq.
  repeat (rewrite ?bind_assoc;
          erewrite bind_run by (apply wr_run; apply lookup_insert_eq);
          cbn [pvts chans trace]; rewrite insert_insert_eq).
  set (v4 := pvt.set_owner None _).
  destruct (legs_swapped_lookup SUB_CALLWAIT SUB_REAL v (chans w) ocw ccw Hccw)
    as (ccw' & Hccw' & Hstate & _).
  pose proof (promoted_line t (negb (ast_state_eqb (chn._state ccw) AST_STATE_UP)) v)
    as Hfacts. cbn zeta in Hfacts. fold v1 in Hfacts. fold v4 in Hfacts.
  destruct Hfacts as (F0 & Fch & F1 & F2 & F3 & F4 & F5 & F6 & F7 & F8).
  pose proof (promoted_line_dfd t (negb (ast_state_eqb (chn._state ccw) AST_STATE_UP)) v)
    as Fdfd. cbn zeta in Fdfd. fold v1 in Fdfd. fold v4 in Fdfd.
  unfold owner_of. rewrite !bind_assoc.
  erewrite bind_run by (apply rd_run; apply lookup_insert_eq).
  rewrite F0, Hcw. repeat mstep. rewrite Hstate.
  set (d := negb (ast_state_eqb (chn._state ccw) AST_STATE_UP)) in *.
  set (v5 := if d then pvt.set_dialing true v4 else v4) in *.
  set (tr1 := trace w ++ _).
  assert (Hd : when d (wr p (pvt.set_dialing true))
                 (mk_world (<[p:=v4]> (pvts w))
                    (legs_swapped SUB_CALLWAIT SUB_REAL v (chans w)) tr1) =
               Some (tt, mk_world (<[p:=v5]> (pvts w))
                           (legs_swapped SUB_CALLWAIT SUB_REAL v (chans w)) tr1)).
  { unfold v5. destruct d; cbn [when].
    - erewrite wr_run by apply lookup_insert_eq. cbn [pvts chans trace].
      rewrite insert_insert_eq. reflexivity.
    - reflexivity. }
  rewrite (bind_run _ _ _ _ _ Hd).
  assert (Hring5 : ring_settles K (sub.dfd (psub v5 SUB_REAL)) n)
    by (rewrite Fdfd; exact Hring).
  destruct (dahdi_ring_phone_run K fuel n p v5
              (mk_world (<[p:=v5]> (pvts w))
                 (legs_swapped SUB_CALLWAIT SUB_REAL v (chans w)) tr1)
              (lookup_insert_eq _ _ _) Hfuel Hring5) as [tr2 Hrg].
  rewrite !bind_assoc.
  rewrite (bind_run _ _ _ _ _ Hrg). cbn [pvts chans trace].
  rewrite Fdfd. repeat mstep.
  match goal with
  | |- context [mk_world ?ps ?cs ?tr] =>
      destruct (disable_ec_run K p v5 (mk_world ps cs tr) (lookup_insert_eq _ _ _))
        as [t3 Hec]
  end.
  rewrite (bind_run _ _ _ _ _ Hec). cbn [pvts chans trace]. rewrite insert_insert_eq.
  eexists. eexists.
  match eval unfold tr1 in tr1 with _ ++ ?x => exists x end. exists tr2, t3.
  split; [reflexivity|]. cbn [pvts chans trace].
  split; [apply lookup_insert_eq|].
  split; [rewrite F1; exact Hcw|].
  split; [exact F2|]. split; [exact F3|]. split; [exact F4|]. split; [exact F5|].
  split; [exact F6|].
  split; [rewrite F7; unfold d; destruct (ast_state_eqb _ _); reflexivity|].
  split; [exact F8|].
  split; [|reflexivity].
  unfold tr1, ring_request. rewrite <- !app_assoc. cbn [app]. reflexivity.
Qed.

Lemma onhook_promotes_call_waiting_witness :
  exists (w' : world) (v' : pvt.t) (t1 t2 t3 : list event),
    handle_onhook dahdi_linux arm_unit 1%nat 100%nat 1%nat SUB_REAL world_callwait =
      Some (None, w') /\
    pvts w' !! 1%nat = Some v' /\
    sub.owner (psub v' SUB_REAL) = Some 200%nat /\
    sub.dfd (psub v' SUB_REAL) = sub.dfd (psub line_callwait SUB_REAL) /\
    sub.owner (psub v' SUB_CALLWAIT) = None /\
    sub.dfd (psub v' SUB_CALLWAIT) = -1 /\
    psub v' SUB_THREEWAY = psub line_callwait SUB_THREEWAY /\
    pvt.owner v' = None /\
    pvt.dialing v' =
      (if ast_state_eqb (chn._state (leg AST_STATE_RINGING 20 1)) AST_STATE_UP
       then pvt.dialing line_callwait else true) /\
    pvt.echocanon v' = false /\
    trace w' =
      trace world_callwait ++ t1 ++
      Hw (DAHDI_HOOK (sub.dfd (psub line_callwait SUB_REAL)) (DAHDI_ONHOOK dahdi_linux)) ::
      Hw (DAHDI_HOOK (sub.dfd (psub line_callwait SUB_REAL)) (DAHDI_RING dahdi_linux)) ::
      t2 ++ t3 /\
    chans w' = legs_swapped SUB_CALLWAIT SUB_REAL line_callwait (chans world_callwait).
Proof.
  apply (onhook_promotes_call_waiting dahdi_linux arm_unit 1%nat 0%nat 100%nat 1%nat
           line_callwait world_callwait 200%nat (leg AST_STATE_RINGING 20 1));
    try reflexivity.
  - intros x o Ho. destruct x; cbn in Ho; inversion Ho; subst; vm_compute; eauto.
  - intros h. exists 0%nat. split; [lia | reflexivity].
  - lia.
Defined.

(** ** Runs of the conference manager *)

Lemma erase_conf_keeps (v v0 : pvt.t) :
  erase_conf v = erase_conf v0 ->
  pvt.slaves v = pvt.slaves v0 /\ pvt.master v = pvt.master v0 /\
  pvt.bearer v = pvt.bearer v0 /\ pvt.law v = pvt.law v0 /\
  pvt.channel v = pvt.channel v0 /\ pvt.inconference v = pvt.inconference v0 /\
  pvt.owner v = pvt.owner v0 /\
  (forall x, sub.set_curconf conf_zero (psub v x) = sub.set_curconf conf_zero (psub v0 x)).
Proof.
  intros H.
  pose proof (f_equal pvt.slaves H) as H1.
  pose proof (f_equal pvt.master H) as H2.
  pose proof (f_equal pvt.bearer H) as H3.
  pose proof (f_equal pvt.law H) as H4.
  pose proof (f_equal pvt.channel H) as H5.
  pose proof (f_equal pvt.inconference H) as H6.
  pose proof (f_equal pvt.owner H) as H7.
  pose proof (f_equal pvt.subs H) as H8.
  assert (H9 : forall x, get_sub (pvt.subs (erase_conf v)) x =
                         get_sub (pvt.subs (erase_conf v0)) x)
    by (intros x; rewrite H8; reflexivity).
  clear H8. destruct v, v0. cbn in H1, H2, H3, H4, H5, H6, H7.
  repeat (split; [assumption|]).
  intros x. specialize (H9 x). destruct x; exact H9.
Qed.

Lemma erase_conf_sub (v v0 : pvt.t) (x : subidx) :
  erase_conf v = erase_conf v0 ->
  sub.dfd (psub v x) = sub.dfd (psub v0 x) /\
  sub.owner (psub v x) = sub.owner (psub v0 x) /\
  sub.chan (psub v x) = sub.chan (psub v0 x) /\
  sub.inthreeway (psub v x) = sub.inthreeway (psub v0 x).
Proof.
  intros H. apply erase_conf_keeps in H as (_ & _ & _ & _ & _ & _ & _ & H).
  specialize (H x).
  pose proof (f_equal sub.dfd H) as H1.
  pose proof (f_equal sub.owner H) as H2.
  pose proof (f_equal sub.chan H) as H3.
  pose proof (f_equal sub.inthreeway H) as H4.
  destruct (psub v x), (psub v0 x). cbn in *. auto.
Qed.

Lemma erase_conf_confno (c : Z) (v : pvt.t) :
  erase_conf (pvt.set_confno c v) = erase_conf v.
Proof. destruct v. reflexivity. Qed.

Lemma erase_conf_curconf (x : subidx) (zi : conf.t) (v : pvt.t) :
  erase_conf (upd_sub x (sub.set_curconf zi) v) = erase_conf v.
Proof. destruct_line v; destruct x; reflexivity. Qed.

Lemma conf_only_refl (w : world) : conf_only w w.
Proof.
  split; [reflexivity|]. split; [reflexivity|].
  exists []. split; [symmetry; apply app_nil_r | constructor].
Qed.

Lemma conf_only_lookup (w0 w : world) (q : nat) (v0 : pvt.t) :
  conf_only w0 w -> pvts w0 !! q = Some v0 ->
  exists v, pvts w !! q = Some v /\ erase_conf v = erase_conf v0.
Proof.
  intros (_ & He & _) Hq.
  pose proof (f_equal (fun m => m !! q) He) as H. cbn in H.
  rewrite !lookup_fmap, Hq in H.
  destruct (pvts w !! q) as [v|]; [|discriminate H].
  exists v. split; [reflexivity|]. cbn in H. congruence.
Qed.

Section ConfOnly.

Variable K : env.
Variable w0 : world.
Hypothesis closed : lines_closed (pvts w0).

Lemma co_event (e : event) :
  conf_event e -> triple (conf_only w0) (emit e) (fun _ => conf_only w0).
Proof.
  intros He w (Hc & Hp & t & Ht & Hall).
  eexists. eexists. split; [reflexivity|].
  split; [exact Hc|]. split; [exact Hp|].
  exists (t ++ [e]). cbn [trace]. rewrite Ht, app_assoc. split; [reflexivity|].
  apply Forall_app. split; [exact Hall | constructor; [exact He | constructor]].
Qed.

Lemma co_history : triple (conf_only w0) history (fun _ => conf_only w0).
Proof. intros w Hw. eexists. eexists. split; [reflexivity | exact Hw]. Qed.

Lemma co_setconf (fd : Z) (zi : conf.t) :
  triple (conf_only w0) (hw K (DAHDI_SETCONF fd zi)) (fun _ => conf_only w0).
Proof.
  unfold hw. tstep co_history.
  eapply triple_bind; [apply co_event; exact I|]. intros ?.
  apply triple_ret. auto.
Qed.

Lemma co_warning (msg : string) :
  triple (conf_only w0) (ast_log LOG_WARNING msg) (fun _ => conf_only w0).
Proof. apply co_event. exact I. Qed.

Lemma co_rd (q : nat) (v0 : pvt.t) :
  pvts w0 !! q = Some v0 ->
  triple (conf_only w0) (rd q)
    (fun v w => erase_conf v = erase_conf v0 /\ conf_only w0 w).
Proof.
  intros Hq w Hw. destruct (conf_only_lookup w0 w q v0 Hw Hq) as (v & Hv & He).
  exists v, w. split; [apply rd_run; exact Hv|]. split; assumption.
Qed.

Lemma co_wr (q : nat) (f : pvt.t -> pvt.t) :
  is_Some (pvts w0 !! q) ->
  (forall v, erase_conf (f v) = erase_conf v) ->
  triple (conf_only w0) (wr q f) (fun _ => conf_only w0).
Proof.
  intros [v0 Hq] Hf w Hw.
  destruct (conf_only_lookup w0 w q v0 Hw Hq) as (v & Hv & He).
  destruct Hw as (Hc & Hp & Ht).
  eexists. eexists. split; [apply wr_run; exact Hv|].
  split; [exact Hc|]. split; [|exact Ht].
  cbn [pvts]. rewrite fmap_insert, Hf, <- Hp.
  apply insert_id. rewrite lookup_fmap, Hv. reflexivity.
Qed.

Lemma co_drop {A} (phi : A -> Prop) (m : M A) :
  triple (conf_only w0) m (fun a w => phi a /\ conf_only w0 w) ->
  triple (conf_only w0) m (fun _ => conf_only w0).
Proof.
  intros H w Hw. destruct (H w Hw) as (a & w' & Hrun & _ & Hpost).
  exists a, w'. auto.
Qed.

Lemma co_rdsub (c : subref) :
  is_Some (pvts w0 !! c.1) ->
  triple (conf_only w0) (rdsub c) (fun _ => conf_only w0).
Proof.
  intros [v0 Hc]. unfold rdsub.
  tstep (co_rd c.1 v0 Hc). tpure. apply triple_ret. auto.
Qed.

Lemma co_conf_add (p : nat) (c : subref) (index : subidx) (slavechannel : Z) :
  is_Some (pvts w0 !! p) -> is_Some (pvts w0 !! c.1) ->
  triple (conf_only w0) (conf_add K p c index slavechannel) (fun _ => conf_only w0).
Proof.
  intros Hp Hc. unfold conf_add. destruct Hp as [v0 Hp0].
  tstep (co_rd p v0 Hp0). tpure.
  tstep (co_rdsub c Hc).
  destruct (_ && _); [apply triple_ret; auto|].
  destruct (_ <? 0); [apply triple_ret; auto|].
  tstep co_history. tstep co_setconf.
  destruct (negb _).
  - tstep co_warning. apply triple_ret. auto.
  - eapply triple_bind.
    { apply triple_when. apply co_wr; [eauto | intros v; apply erase_conf_confno]. }
    intros ?. eapply triple_bind.
    { apply co_wr; [exact Hc | intros v; apply erase_conf_curconf]. }
    intros ?. apply triple_ret. auto.
Qed.

Lemma co_conf_del (p : nat) (c : subref) (index : subidx) :
  is_Some (pvts w0 !! p) -> is_Some (pvts w0 !! c.1) ->
  triple (conf_only w0) (conf_del K p c index) (fun _ => conf_only w0).
Proof.
  intros Hp Hc. unfold conf_del. destruct Hp as [v0 Hp0].
  tstep (co_rd p v0 Hp0). tpure.
  tstep (co_rdsub c Hc).
  destruct (_ || _); [apply triple_ret; auto|].
  tstep co_history. tstep co_setconf.
  destruct (negb _).
  - tstep co_warning. apply triple_ret. auto.
  - eapply triple_bind.
    { apply co_wr; [exact Hc | intros v; apply erase_conf_curconf]. }
    intros ?. apply triple_ret. auto.
Qed.

Lemma co_GET_CHANNEL (q : nat) :
  is_Some (pvts w0 !! q) ->
  triple (conf_only w0) (GET_CHANNEL q) (fun _ => conf_only w0).
Proof.
  intros [v0 Hq]. unfold GET_CHANNEL.
  tstep (co_rd q v0 Hq). tpure.
  match goal with H : erase_conf _ = erase_conf v0 |- _ =>
    apply erase_conf_keeps in H as (_ & _ & Hb & _) end.
  rewrite Hb. destruct (pvt.bearer v0) as [b|] eqn:Eb; [|apply triple_ret; auto].
  destruct (closed q v0 Hq) as (_ & _ & Hbe).
  destruct (Hbe b Eb) as [vb Hvb].
  tstep (co_rd b vb Hvb). tpure. apply triple_ret. auto.
Qed.

Lemma scan_slaves_in (l : list (option nat)) :
  forall acc s b, scan_slaves l acc = (Some s, b) -> In (Some s) l \/ acc = Some s.
Proof.
  induction l as [|o l IH]; intros acc s b H; cbn in H.
  - inversion H. right. reflexivity.
  - destruct o as [s'|].
    + destruct acc; [discriminate H|].
      apply IH in H as [H|H]; [left; right; exact H|].
      left. left. exact H.
    + apply IH in H as [H|H]; [left; right; exact H | right; exact H].
Qed.

Lemma slaves_list_in (sl : slaves_t) (s : nat) :
  In (Some s) (slaves_list sl) -> exists x, get_slave sl x = Some s.
Proof.
  unfold slaves_list. cbn. intros [H|[H|[H|[H|[]]]]].
  - exists SLAVE0. exact H.
  - exists SLAVE1. exact H.
  - exists SLAVE2. exact H.
  - exists SLAVE3. exact H.
Qed.

Lemma co_isslavenative (p : nat) :
  is_Some (pvts w0 !! p) ->
  triple (conf_only w0) (isslavenative p)
    (fun r w => (r.1 = true -> exists s, r.2 = Some s /\ is_Some (pvts w0 !! s)) /\
                conf_only w0 w).
Proof.
  intros [v0 Hp]. unfold isslavenative.
  tstep (co_rd p v0 Hp). tpure.
  match goal with H : erase_conf _ = erase_conf v0 |- _ =>
    apply erase_conf_keeps in H as (Hs & _) end.
  rewrite Hs.
  destruct (no_threeway _).
  - destruct (scan_slaves (slaves_list (pvt.slaves v0)) None) as [[s|] b] eqn:E.
    + apply scan_slaves_in in E as [E|E]; [|discriminate E].
      apply slaves_list_in in E as [x Hx].
      destruct (closed p v0 Hp) as (Hsl & _).
      destruct (Hsl x s Hx) as [vs Hvs].
      tstep (co_rd s vs Hvs). tpure.
      destruct (negb _); apply triple_ret; intros w Hw; (split; [|exact Hw]).
      * discriminate.
      * intros _. exists s. split; [reflexivity | eauto].
    + apply triple_ret. intros w Hw. split; [discriminate | exact Hw].
  - apply triple_ret. intros w Hw. split; [discriminate | exact Hw].
Qed.

Lemma co_foldM {A} (f : A -> Z -> M Z) (l : list A) :
  (forall a n, In a l -> triple (conf_only w0) (f a n) (fun _ => conf_only w0)) ->
  forall n, triple (conf_only w0) (foldM f l n) (fun _ => conf_only w0).
Proof.
  induction l as [|a l IH]; intros Hf n; cbn [foldM].
  - apply triple_ret. auto.
  - eapply triple_bind; [apply Hf; left; reflexivity|]. intros n'.
    apply IH. intros a' n'' Hin. apply Hf. right. exact Hin.
Qed.

Lemma co_update_conf (p : nat) :
  is_Some (pvts w0 !! p) ->
  triple (conf_only w0) (update_conf K p) (fun r w => r = 0 /\ conf_only w0 w).
Proof.
  intros Hp. pose proof Hp as [v0 Hp0]. unfold update_conf.
  tstep (co_isslavenative p Hp). tpure.
  match goal with a : (bool * option nat)%type |- _ => destruct a as [usn slave] end.
  cbn [fst snd] in *.
  eapply triple_bind.
  { apply co_foldM. intros x n _. unfold update_conf_sub.
    tstep (co_rd p v0 Hp0). tpure.
    destruct (_ && _).
    - tstep (co_conf_add p (p, x) x 0 Hp Hp). apply triple_ret. auto.
    - tstep (co_conf_del p (p, x) x Hp Hp). apply triple_ret. auto. }
  intros needconf.
  eapply triple_bind.
  { apply co_foldM. intros x n _. unfold update_conf_slave.
    tstep (co_rd p v0 Hp0). tpure.
    match goal with H : erase_conf _ = erase_conf v0 |- _ =>
      apply erase_conf_keeps in H as (Hs & _) end.
    rewrite Hs. destruct (get_slave (pvt.slaves v0) x) as [s|] eqn:Ex;
      [|apply triple_ret; auto].
    destruct (closed p v0 Hp0) as (Hsl & _).
    pose proof (Hsl x s Ex) as Hsome.
    destruct usn.
    - tstep (co_GET_CHANNEL p Hp).
      eapply triple_bind;
        [apply (co_conf_add p (s, SUB_REAL) SUB_REAL); [exact Hp | exact Hsome]|].
      intros ?. apply triple_ret. auto.
    - tstep (co_conf_add p (s, SUB_REAL) SUB_REAL 0 Hp Hsome). apply triple_ret. auto. }
  intros needconf2.
  tstep (co_rd p v0 Hp0). tpure.
  eapply triple_bind with (Q := fun _ => conf_only w0).
  { destruct (_ && _); [|apply triple_ret; auto].
    destruct usn.
    - match goal with H : true = true -> _ |- _ =>
        destruct (H eq_refl) as (s & -> & Hsome) end.
      tstep (co_GET_CHANNEL s Hsome).
      eapply triple_bind;
        [apply (co_conf_add p (p, SUB_REAL) SUB_REAL); [exact Hp | exact Hp]|].
      intros ?. apply triple_ret. auto.
    - tstep (co_conf_add p (p, SUB_REAL) SUB_REAL 0 Hp Hp). apply triple_ret. auto. }
  intros needconf3.
  tstep (co_rd p v0 Hp0). tpure.
  match goal with H : erase_conf ?a = erase_conf v0 |- context [pvt.master ?a] =>
    apply erase_conf_keeps in H as (_ & Hm & _) end.
  rewrite Hm.
  eapply triple_bind with (Q := fun _ => conf_only w0).
  { destruct (pvt.master v0) as [m|] eqn:Em; [|apply triple_ret; auto].
    destruct (closed p v0 Hp0) as (_ & Hma & _).
    pose proof (Hma m Em) as Hmsome.
    eapply triple_bind; [apply (co_drop _ _ (co_isslavenative m Hmsome))|]. intros mn.
    destruct (fst mn).
    - tstep (co_GET_CHANNEL m Hmsome).
      eapply triple_bind;
        [apply (co_conf_add m (p, SUB_REAL) SUB_REAL); [exact Hmsome | exact Hp]|].
      intros ?. apply triple_ret. auto.
    - tstep (co_conf_add m (p, SUB_REAL) SUB_REAL 0 Hmsome Hp). apply triple_ret. auto. }
  intros ?.
  eapply triple_bind.
  { apply triple_when. apply co_wr; [exact Hp | intros v; apply erase_conf_confno]. }
  intros ?. apply triple_ret. auto.
Qed.

End ConfOnly.

Lemma conf_only_closed (w0 w : world) :
  conf_only w0 w -> lines_closed (pvts w0) -> lines_closed (pvts w).
Proof.
  intros Hco Hcl q v Hq.
  assert (Hback : forall r, is_Some (pvts w0 !! r) -> is_Some (pvts w !! r)).
  { intros r [vr Hr]. destruct (conf_only_lookup w0 w r vr Hco Hr) as (v' & Hv' & _).
    eauto. }
  destruct Hco as (_ & He & _).
  pose proof (f_equal (fun m => m !! q) He) as H. cbn in H.
  rewrite !lookup_fmap, Hq in H.
  destruct (pvts w0 !! q) as [v0|] eqn:Hq0; [|discriminate H].
  cbn in H. assert (Hev : erase_conf v = erase_conf v0) by congruence.
  apply erase_conf_keeps in Hev as (Hs & Hm & Hb & _).
  destruct (Hcl q v0 Hq0) as (C1 & C2 & C3).
  rewrite Hs, Hm, Hb. repeat split; intros; apply Hback; eauto.
Qed.

(** X16.  [update_conf] runs to the end on every line of a world without
    dangling line pointers, and returns 0.  It changes nothing but
    conference numbers and conference records: with these blanked out
    the lines are the same before and after, the call legs are
    untouched, and the only things it adds to the trace are
    DAHDI_SETCONF requests and warnings. *)
Theorem update_conf_only_conferences (K : env) (p : nat) (w : world) :
  lines_closed (pvts w) ->
  is_Some (pvts w !! p) ->
  exists w' : world,
    update_conf K p w = Some (0, w') /\
    chans w' = chans w /\
    erase_conf <$> pvts w' = erase_conf <$> pvts w /\
    (exists t, trace w' = trace w ++ t /\ Forall conf_event t) /\
    lines_closed (pvts w').
Proof.
  intros Hcl Hp.
  destruct (co_update_conf K w Hcl p Hp w (conf_only_refl w)) as (r & w' & Hrun & -> & Hco).
  exists w'. split; [exact Hrun|].
  pose proof (conf_only_closed w w' Hco Hcl) as Hcl'.
  destruct Hco as (Hc & He & Ht). auto.
Qed.

Lemma update_conf_only_conferences_witness :
  exists w' : world,
    update_conf dahdi_linux 1%nat world_bridged = Some (0, w') /\
    chans w' = chans world_bridged /\
    erase_conf <$> pvts w' = erase_conf <$> pvts world_bridged /\
    (exists t, trace w' = trace world_bridged ++ t /\ Forall conf_event t) /\
    lines_closed (pvts w').
Proof.
  apply (update_conf_only_conferences dahdi_linux 1%nat world_bridged).
  - intros q v Hq. unfold world_bridged in Hq. cbn [pvts] in Hq.
      rewrite lookup_insert in Hq. case_decide.
      { inversion Hq; subst v. repeat split.
        - intros x s Hx. destruct x; cbn in Hx; inversion Hx; subst. vm_compute. eauto.
        - intros m Hm. discriminate Hm.
        - intros b Hb. discriminate Hb. }
      rewrite lookup_insert in Hq. case_decide.
      { inversion Hq; subst v. repeat split.
        - intros x s Hx. destruct x; cbn in Hx; discriminate Hx.
        - intros m Hm. cbn in Hm. inversion Hm; subst. vm_compute. eauto.
        - intros b Hb. discriminate Hb. }
      rewrite lookup_empty in Hq. discriminate Hq.
  - vm_compute. eauto.
Defined.
(** Putting a leg on hold when it is bridged, as the flash handler does
    it: [if (ast_bridged_channel(o)) ast_queue_control(o, ctl)]. *)
Lemma queue_if_bridged_run (o : nat) (c : chn.t) (ctl : ast_control) (w : world) :
  chans w !! o = Some c ->
  bind (ast_bridged_channel o)
       (fun b => when (is_some b) (ast_queue_control o ctl)) w =
    Some (tt, mk_world (pvts w)
                (<[o := if is_some (chn.bridged c)
                        then chn.set_readq (chn.readq c ++ [Q_CONTROL ctl]) c
                        else c]> (chans w))
                (trace w)).
Proof.
  intros Hc. unfold ast_bridged_channel, ast_queue_control, ast_queue.
  repeat mstep. destruct (is_some (chn.bridged c)); cbn [when].
  - erewrite wrc_run by exact Hc. reflexivity.
  - rewrite insert_id by exact Hc. destruct w; reflexivity.
Qed.

Lemma lines_closed_insert (ps : gmap nat pvt.t) (p : nat) (v v' : pvt.t) :
  lines_closed ps ->
  ps !! p = Some v ->
  pvt.slaves v' = pvt.slaves v -> pvt.master v' = pvt.master v ->
  pvt.bearer v' = pvt.bearer v ->
  lines_closed (<[p := v']> ps).
Proof.
  intros Hcl Hp Hs Hm Hb q vq Hq.
  assert (Hkeep : forall r, is_Some (ps !! r) -> is_Some (<[p := v']> ps !! r)).
  { intros r Hr. rewrite lookup_insert. case_decide; eauto. }
  rewrite lookup_insert in Hq. case_decide.
  - inversion Hq; subst vq. destruct (Hcl p v Hp) as (C1 & C2 & C3).
    rewrite Hs, Hm, Hb. repeat split; intros; apply Hkeep; eauto.
  - destruct (Hcl q vq Hq) as (C1 & C2 & C3).
    repeat split; intros; apply Hkeep; eauto.
Qed.

Lemma when_queue_run (bb : bool) (o : nat) (c : chn.t) (ctl : ast_control) (w : world) :
  chans w !! o = Some c ->
  when bb (ast_queue_control o ctl) w =
    Some (tt, mk_world (pvts w)
                (<[o := if bb then chn.set_readq (chn.readq c ++ [Q_CONTROL ctl]) c
                        else c]> (chans w))
                (trace w)).
Proof.
  intros Hc. unfold ast_queue_control, ast_queue. destruct bb; cbn [when].
  - erewrite wrc_run by exact Hc. reflexivity.
  - rewrite insert_id by exact Hc. destruct w; reflexivity.
Qed.
(** The line after a flash has swapped to the call-waiting call: field
    by field. *)
Lemma flashed_line (t : timeval) (b : bool) (v : pvt.t) :
  let v1 := pvt.set_callwaitcas 0 (pvt.set_flashtime t v) in
  let v2 := pvt.set_owner (sub.owner (psub (swapped SUB_REAL SUB_CALLWAIT v1) SUB_REAL))
              (swapped SUB_REAL SUB_CALLWAIT v1) in
  let v3 := pvt.set_cidcwexpire 0
              (pvt.set_callwaitingrepeat 0
                 (if b then upd_sub SUB_REAL (sub.set_needanswer true) v2 else v2)) in
  let v5 := upd_sub SUB_REAL (sub.set_needunhold true)
              (upd_sub SUB_CALLWAIT (sub.set_needhold true) v3) in
  sub.dfd (psub (swapped SUB_REAL SUB_CALLWAIT v1) SUB_REAL) = sub.dfd (psub v SUB_REAL) /\
  sub.owner (psub v2 SUB_REAL) = sub.owner (psub v SUB_CALLWAIT) /\
  sub.owner (psub v3 SUB_CALLWAIT) = sub.owner (psub v SUB_REAL) /\
  sub.inthreeway (psub v3 SUB_CALLWAIT) = sub.inthreeway (psub v SUB_REAL) /\
  (pvt.slaves v5 = pvt.slaves v /\ pvt.master v5 = pvt.master v /\
   pvt.bearer v5 = pvt.bearer v) /\
  sub.owner (psub v5 SUB_REAL) = sub.owner (psub v SUB_CALLWAIT) /\
  sub.owner (psub v5 SUB_CALLWAIT) = sub.owner (psub v SUB_REAL) /\
  pvt.owner v5 = sub.owner (psub v SUB_CALLWAIT) /\
  (forall x, sub.dfd (psub v5 x) = sub.dfd (psub v x)) /\
  sub.needhold (psub v5 SUB_CALLWAIT) = true /\
  sub.needunhold (psub v5 SUB_REAL) = true /\
  (b = true -> sub.needanswer (psub v5 SUB_REAL) = true).
Proof.
  destruct_line v; destruct b; vm_compute; repeat split;
    try (intros x; destruct x; reflexivity); discriminate.
Qed.

(** X17.  A flash with a call waiting swaps to it.  The line has FXO
    signalling, is not in alarm, not a radio line, in operator mode 0 or
    1; the event is for the Real leg; another leg owns CallWait and none
    owns ThreeWay.  Then the handler returns a frame, Real and CallWait
    have exchanged owners while every descriptor stays with its role,
    the owner of the line is the leg that was waiting, which reads from
    Real's descriptor; CallWait is flagged need-hold and Real
    need-unhold; and a waiting leg that was Ringing is now Up, with
    need-answer flagged on Real. *)
Theorem flash_swaps_to_call_waiting (K : env)
    (start_threeway : nat -> nat -> M unit)
    (winkflash_other : nat -> nat -> signalling -> M (option ast_frame))
    (ast p : nat) (mysig : signalling) (v : pvt.t) (w : world)
    (oreal ocw : nat) (creal ccw : chn.t) :
  pvts w !! p = Some v ->
  pvt.inalarm v = false ->
  pvt.radio v = 0 ->
  0 <= pvt.oprmode v <= 1 ->
  sig_is_fxo mysig = true ->
  sub.owner (psub v SUB_REAL) = Some oreal ->
  sub.owner (psub v SUB_CALLWAIT) = Some ocw ->
  sub.owner (psub v SUB_THREEWAY) = None ->
  oreal <> ocw ->
  chans w !! oreal = Some creal ->
  chans w !! ocw = Some ccw ->
  lines_closed (pvts w) ->
  exists (w' : world) (v' : pvt.t) (ccw' : chn.t),
    handle_winkflash K start_threeway winkflash_other ast p SUB_REAL mysig w =
      Some (Some null_frame, w') /\
    pvts w' !! p = Some v' /\
    sub.owner (psub v' SUB_REAL) = Some ocw /\
    sub.owner (psub v' SUB_CALLWAIT) = Some oreal /\
    pvt.owner v' = Some ocw /\
    (forall x, sub.dfd (psub v' x) = sub.dfd (psub v x)) /\
    sub.needhold (psub v' SUB_CALLWAIT) = true /\
    sub.needunhold (psub v' SUB_REAL) = true /\
    chans w' !! ocw = Some ccw' /\
    chn.fds0 ccw' = sub.dfd (psub v SUB_REAL) /\
    (chn._state ccw = AST_STATE_RINGING ->
     chn._state ccw' = AST_STATE_UP /\ sub.needanswer (psub v' SUB_REAL) = true).
Proof.
  intros Hp Halarm Hradio Hopr Hsig Hreal Hcw H3 Hne Hcr Hcc Hcl.
  assert (Hk : owners_known v w).
  { intros x o Ho. destruct x; rewrite ?Hreal, ?Hcw, ?H3 in Ho; inversion Ho; subst; eauto. }
  unfold handle_winkflash.
  rewrite (bind_run _ _ _ _ _ (rd_run _ _ _ Hp)).
  rewrite Halarm, Hradio, Hsig, Hcw. cbn [Z.eqb negb is_some].
  replace (pvt.oprmode v <? 0) with false by (symmetry; apply Z.ltb_ge; lia).
  replace (1 <? pvt.oprmode v) with false by (symmetry; apply Z.ltb_ge; lia).
  unfold history. repeat mstep. cbn [pvts chans trace]. rewrite ?insert_insert_eq.
  set (v1 := pvt.set_callwaitcas 0 (pvt.set_flashtime (ast_tvnow K (trace w)) v)).
  destruct (swapped_same_subs SUB_REAL SUB_CALLWAIT v1 v eq_refl) as (_ & Hlegs & Hpsub).
  unfold winkflash_callwait. rewrite !bind_assoc.
  erewrite bind_run.
  2:{ apply (swap_subs_run p SUB_REAL SUB_CALLWAIT v1); [apply lookup_insert_eq|].
      intros x o Ho. apply (Hk x o). rewrite <- Hpsub. exact Ho. }
  cbn [pvts chans trace]. rewrite insert_insert_eq, Hlegs.
  rewrite ?bind_assoc.
  erewrite bind_run by (apply rd_run; apply lookup_insert_eq).
  unfold tone_zone_play_tone.
  rewrite ?bind_assoc, (bind_run _ _ _ _ _ (hw_run _ _ _)).
  cbn [pvts chans trace]. rewrite ?bind_assoc.
  erewrite bind_run by (apply wr_run; apply lookup_insert_eq).
  cbn [pvts chans trace]. rewrite insert_insert_eq.
  set (v2 := pvt.set_owner _ (swapped SUB_REAL SUB_CALLWAIT v1)).
  set (cs1 := legs_swapped SUB_REAL SUB_CALLWAIT v (chans w)).
  set (tr1 := trace w ++ _).
  set (b := ast_state_eqb (chn._state ccw) AST_STATE_RINGING).
  pose proof (flashed_line (ast_tvnow K (trace w)) b v) as Hfacts.
  cbn zeta in Hfacts. fold v1 in Hfacts. fold v2 in Hfacts.
  set (v2b := if b then upd_sub SUB_REAL (sub.set_needanswer true) v2 else v2) in *.
  set (v3 := pvt.set_cidcwexpire 0 (pvt.set_callwaitingrepeat 0 v2b)) in *.
  set (v4 := upd_sub SUB_CALLWAIT (sub.set_needhold true) v3) in *.
  set (v5 := upd_sub SUB_REAL (sub.set_needunhold true) v4) in *.
  destruct Hfacts as (Fd & F2 & F3o & F3t & (Fs & Fm & Fb) & F5r & F5c & F5o & F5d &
                      F5h & F5u & F5a).
  (* the legs after the swap *)
  set (c1 := queue_null (chn.set_fds0 (sub.dfd (psub v SUB_REAL)) ccw)).
  set (r1 := queue_null (chn.set_fds0 (sub.dfd (psub v SUB_CALLWAIT)) creal)).
  assert (Hc1 : cs1 !! ocw = Some c1).
  { unfold cs1, legs_swapped. rewrite Hreal, Hcw, !on_leg_lookup, Hcc.
    repeat case_decide; try congruence. reflexivity. }
  assert (Hr1 : cs1 !! oreal = Some r1).
  { unfold cs1, legs_swapped. rewrite Hreal, Hcw, !on_leg_lookup, Hcr.
    repeat case_decide; try congruence. reflexivity. }
  unfold owner_of at 1. rewrite ?bind_assoc.
  erewrite bind_run by (apply rd_run; apply lookup_insert_eq).
  rewrite F2, Hcw. rewrite ?bind_assoc.
  erewrite bind_run by (apply rdc_run; exact Hc1). rewrite bind_ret, ?bind_assoc.
  erewrite bind_run by (apply rdc_run; exact Hc1). rewrite ?bind_assoc.
  change (chn._state c1) with (chn._state ccw). fold b.
  set (c2 := if b then chn.set__state AST_STATE_UP c1 else c1).
  set (cs2 := <[ocw := c2]> cs1).
  assert (Hans : when b (bind (ast_setstate ocw AST_STATE_UP)
                           (fun _ => wr p (upd_sub SUB_REAL (sub.set_needanswer true))))
                   (mk_world (<[p:=v2]> (pvts w)) cs1 tr1) =
                 Some (tt, mk_world (<[p:=v2b]> (pvts w)) cs2 tr1)).
  { unfold v2b, cs2, c2, ast_setstate. destruct b; cbn [when].
    - erewrite bind_run by (apply wrc_run; exact Hc1).
      erewrite wr_run by apply lookup_insert_eq.
      cbn [pvts chans trace]. rewrite insert_insert_eq. reflexivity.
    - rewrite (insert_id cs1 ocw c1 Hc1). reflexivity. }
  rewrite (bind_run _ _ _ _ _ Hans).
  repeat (rewrite ?bind_assoc;
          erewrite bind_run by (apply wr_run; apply lookup_insert_eq);
          cbn [pvts chans trace]; rewrite insert_insert_eq).
  fold v3. rewrite ?bind_assoc.
  erewrite bind_run by (apply rd_run; apply lookup_insert_eq).
  rewrite F3t. rewrite ?bind_assoc.
  set (hold := fun c : chn.t =>
                 if is_some (chn.bridged c)
                 then chn.set_readq (chn.readq c ++ [Q_CONTROL AST_CONTROL_HOLD]) c
                 else c).
  set (cs3 := if negb (sub.inthreeway (psub v SUB_REAL))
              then <[oreal := hold r1]> cs2 else cs2).
  assert (Hr2 : cs2 !! oreal = Some r1).
  { unfold cs2. rewrite lookup_insert_ne by congruence. exact Hr1. }
  assert (Hhold1 :
    (if negb (sub.inthreeway (psub v SUB_REAL))
     then bind (owner_of p SUB_CALLWAIT)
            (fun o => bind (ast_bridged_channel o)
               (fun bcw => when (is_some bcw) (ast_queue_control o AST_CONTROL_HOLD)))
     else ret tt) (mk_world (<[p:=v3]> (pvts w)) cs2 tr1) =
    Some (tt, mk_world (<[p:=v3]> (pvts w)) cs3 tr1)).
  { unfold cs3. destruct (sub.inthreeway (psub v SUB_REAL)); cbn [negb]; [reflexivity|].
    unfold owner_of. rewrite ?bind_assoc.
    erewrite bind_run by (apply rd_run; apply lookup_insert_eq).
    rewrite F3o, Hreal. rewrite ?bind_assoc.
    erewrite bind_run by (apply rdc_run; exact Hr2). rewrite bind_ret.
    apply (queue_if_bridged_run oreal r1 AST_CONTROL_HOLD). exact Hr2. }
  rewrite (bind_run _ _ _ _ _ Hhold1). rewrite ?bind_assoc.
  erewrite bind_run by (apply wr_run; apply lookup_insert_eq).
  cbn [pvts chans trace]. rewrite insert_insert_eq. fold v4. rewrite ?bind_assoc.
  assert (Hc3 : cs3 !! ocw = Some c2).
  { unfold cs3. destruct (negb _).
    - rewrite lookup_insert_ne by congruence. apply lookup_insert_eq.
    - apply lookup_insert_eq. }
  unfold ast_bridged_channel. rewrite ?bind_assoc.
  erewrite bind_run by (apply rdc_run; exact Hc3). rewrite bind_ret, ?bind_assoc.
  rewrite (bind_run _ _ _ _ _
             (when_queue_run _ ocw c2 AST_CONTROL_HOLD
                (mk_world (<[p:=v4]> (pvts w)) cs3 tr1) Hc3)).
  cbn [pvts chans trace]. fold (hold c2).
  erewrite bind_run by (apply wr_run; apply lookup_insert_eq).
  cbn [pvts chans trace]. rewrite insert_insert_eq. fold v5.
  set (cs4 := <[ocw := hold c2]> cs3).
  set (w5 := mk_world (<[p:=v5]> (pvts w)) cs4 tr1).
  assert (Hcl5 : lines_closed (pvts w5))
    by (apply (lines_closed_insert _ _ v); assumption).
  assert (Hp5 : pvts w5 !! p = Some v5) by apply lookup_insert_eq.
  destruct (co_update_conf K w5 Hcl5 p (ex_intro _ v5 Hp5) w5 (conf_only_refl w5))
    as (r & w' & Hrun & _ & Hco).
  rewrite (bind_run _ _ _ _ _ Hrun).
  destruct (conf_only_lookup w5 w' p v5 Hco Hp5) as (v' & Hv' & He).
  destruct Hco as (Hch & _).
  exists w', v', (hold c2). split; [reflexivity|]. split; [exact Hv'|].
  pose proof (erase_conf_keeps _ _ He) as (_ & _ & _ & _ & _ & _ & Ho & Hsub).
  assert (Hfield : forall x, sub.owner (psub v' x) = sub.owner (psub v5 x) /\
                             sub.dfd (psub v' x) = sub.dfd (psub v5 x) /\
                             sub.needhold (psub v' x) = sub.needhold (psub v5 x) /\
                             sub.needunhold (psub v' x) = sub.needunhold (psub v5 x) /\
                             sub.needanswer (psub v' x) = sub.needanswer (psub v5 x)).
  { intros x. specialize (Hsub x).
    pose proof (f_equal sub.owner Hsub) as E1.
    pose proof (f_equal sub.dfd Hsub) as E2.
    pose proof (f_equal sub.needhold Hsub) as E3.
    pose proof (f_equal sub.needunhold Hsub) as E4.
    pose proof (f_equal sub.needanswer Hsub) as E5.
    destruct (psub v' x), (psub v5 x). cbn in *. auto. }
  split; [rewrite (proj1 (Hfield SUB_REAL)), F5r; exact Hcw|].
  split; [rewrite (proj1 (Hfield SUB_CALLWAIT)), F5c; exact Hreal|].
  split; [rewrite Ho, F5o; exact Hcw|].
  split; [intros x; destruct (Hfield x) as (_ & -> & _); apply F5d|].
  split; [destruct (Hfield SUB_CALLWAIT) as (_ & _ & -> & _); exact F5h|].
  split; [destruct (Hfield SUB_REAL) as (_ & _ & _ & -> & _); exact F5u|].
  split; [rewrite Hch; apply lookup_insert_eq|].
  split.
  - unfold hold, c2. destruct (is_some _), b; reflexivity.
  - intros Hring. assert (Hb : b = true) by (unfold b; rewrite Hring; reflexivity).
    split.
    + unfold hold, c2. rewrite Hb. destruct (is_some _); reflexivity.
    + destruct (Hfield SUB_REAL) as (_ & _ & _ & _ & ->). apply F5a. exact Hb.
Qed.

Lemma flash_swaps_to_call_waiting_witness :
  exists (w' : world) (v' : pvt.t) (ccw' : chn.t),
    handle_winkflash dahdi_linux arm_threeway arm_winkflash 100%nat 1%nat SUB_REAL
      SIG_FXOKS world_callwait = Some (Some null_frame, w') /\
    pvts w' !! 1%nat = Some v' /\
    sub.owner (psub v' SUB_REAL) = Some 200%nat /\
    sub.owner (psub v' SUB_CALLWAIT) = Some 100%nat /\
    pvt.owner v' = Some 200%nat /\
    (forall x, sub.dfd (psub v' x) = sub.dfd (psub line_callwait x)) /\
    sub.needhold (psub v' SUB_CALLWAIT) = true /\
    sub.needunhold (psub v' SUB_REAL) = true /\
    chans w' !! 200%nat = Some ccw' /\
    chn.fds0 ccw' = sub.dfd (psub line_callwait SUB_REAL) /\
    (chn._state (leg AST_STATE_RINGING 20 1) = AST_STATE_RINGING ->
     chn._state ccw' = AST_STATE_UP /\ sub.needanswer (psub v' SUB_REAL) = true).
Proof.
  apply (flash_swaps_to_call_waiting dahdi_linux arm_threeway arm_winkflash
           100%nat 1%nat SIG_FXOKS line_callwait world_callwait
           100%nat 200%nat (leg AST_STATE_UP 10 1) (leg AST_STATE_RINGING 20 1));
    try reflexivity.
  - vm_compute. split; discriminate.
  - discriminate.
  - intros q v Hq. unfold world_callwait in Hq. cbn [pvts] in Hq.
    rewrite lookup_insert in Hq. case_decide.
    + inversion Hq; subst v. repeat split.
      * intros x s Hx. destruct x; cbn in Hx; discriminate Hx.
      * intros m Hm. discriminate Hm.
      * intros b Hb. discriminate Hb.
    + rewrite lookup_empty in Hq. discriminate Hq.
Defined.

(** ** Runs of [dahdi_unlink] *)

Lemma conf_equiv_lookup (ps ps' : gmap nat pvt.t) (q : nat) (v' : pvt.t) :
  conf_equiv ps ps' -> ps' !! q = Some v' ->
  exists v, ps !! q = Some v /\ erase_conf v = erase_conf v'.
Proof.
  intros He Hq.
  pose proof (f_equal (fun m => m !! q) He) as H. cbn in H.
  rewrite !lookup_fmap, Hq in H.
  destruct (ps !! q) as [v|]; [|discriminate H].
  exists v. split; [reflexivity|]. cbn in H. congruence.
Qed.

Lemma conf_equiv_sym (ps ps' : gmap nat pvt.t) : conf_equiv ps ps' -> conf_equiv ps' ps.
Proof. unfold conf_equiv. intros H. symmetry. exact H. Qed.

Lemma conf_equiv_trans (ps1 ps2 ps3 : gmap nat pvt.t) :
  conf_equiv ps1 ps2 -> conf_equiv ps2 ps3 -> conf_equiv ps1 ps3.
Proof. unfold conf_equiv. intros H1 H2. rewrite H1. exact H2. Qed.

Lemma conf_equiv_closed (ps ps' : gmap nat pvt.t) :
  conf_equiv ps ps' -> lines_closed ps' -> lines_closed ps.
Proof.
  intros He Hcl q v Hq.
  assert (Hback : forall r, is_Some (ps' !! r) -> is_Some (ps !! r)).
  { intros r [vr Hr]. destruct (conf_equiv_lookup ps ps' r vr He Hr) as (v' & Hv' & _).
    eauto. }
  destruct (conf_equiv_lookup ps' ps q v (conf_equiv_sym _ _ He) Hq) as (v0 & Hq0 & Hev).
  apply erase_conf_keeps in Hev as (Hs & Hm & Hb & _).
  destruct (Hcl q v0 Hq0) as (C1 & C2 & C3).
  rewrite <- Hs, <- Hm, <- Hb. repeat split; intros; apply Hback; eauto.
Qed.

Lemma conf_equiv_alter (ps ps' : gmap nat pvt.t) (q : nat) (f : pvt.t -> pvt.t) :
  (forall v v', erase_conf v = erase_conf v' -> erase_conf (f v) = erase_conf (f v')) ->
  conf_equiv ps ps' -> conf_equiv (alter f q ps) (alter f q ps').
Proof.
  intros Hf He. unfold conf_equiv. apply map_eq. intros i.
  pose proof (f_equal (fun m => m !! i) He) as H. cbn in H.
  rewrite !lookup_fmap in *. rewrite !lookup_alter.
  destruct (decide (q = i)) as [->|]; [|exact H].
  destruct (ps !! i) as [v|], (ps' !! i) as [v'|]; cbn in *; try discriminate;
    [|reflexivity].
  f_equal. apply Hf. congruence.
Qed.

Lemma wr_alter (q : nat) (f : pvt.t -> pvt.t) (w : world) :
  is_Some (pvts w !! q) ->
  wr q f w = Some (tt, mk_world (alter f q (pvts w)) (chans w) (trace w)).
Proof.
  intros [v Hv]. rewrite (wr_run _ _ _ _ Hv). do 3 f_equal.
  apply map_eq. intros i. rewrite lookup_alter, lookup_insert.
  destruct (decide (q = i)) as [->|]; [rewrite Hv|]; reflexivity.
Qed.

Lemma erase_conf_set_master (o : option nat) (v v' : pvt.t) :
  erase_conf v = erase_conf v' ->
  erase_conf (pvt.set_master o v) = erase_conf (pvt.set_master o v').
Proof.
  intros H. change (pvt.set_master o (erase_conf v) = pvt.set_master o (erase_conf v')).
  rewrite H. reflexivity.
Qed.

Lemma erase_conf_set_inconference (n : Z) (v v' : pvt.t) :
  erase_conf v = erase_conf v' ->
  erase_conf (pvt.set_inconference n v) = erase_conf (pvt.set_inconference n v').
Proof.
  intros H.
  change (pvt.set_inconference n (erase_conf v) = pvt.set_inconference n (erase_conf v')).
  rewrite H. reflexivity.
Qed.

Lemma erase_conf_put_slave (x : slaveidx) (o : option nat) (v v' : pvt.t) :
  erase_conf v = erase_conf v' ->
  erase_conf (pvt.set_slaves (put_slave x o (pvt.slaves v)) v) =
  erase_conf (pvt.set_slaves (put_slave x o (pvt.slaves v')) v').
Proof.
  intros H.
  change ((fun e => pvt.set_slaves (put_slave x o (pvt.slaves e)) e) (erase_conf v) =
          (fun e => pvt.set_slaves (put_slave x o (pvt.slaves e)) e) (erase_conf v')).
  rewrite H. reflexivity.
Qed.

Lemma follows_conf_only (w0 w w' : world) (ps : gmap nat pvt.t) :
  follows w0 ps w -> conf_only w w' -> follows w0 ps w'.
Proof.
  intros (Hc & He & t & Ht & Hall) (Hc' & He' & t' & Ht' & Hall').
  split; [congruence|]. split; [unfold conf_equiv in *; congruence|].
  exists (t ++ t'). rewrite Ht', Ht, app_assoc. split; [reflexivity|].
  apply Forall_app. split; assumption.
Qed.

Section Follows.

Variable K : env.
Variable w0 : world.

(** A run of the conference manager keeps the links. *)
Lemma fl_conf {A} (ps : gmap nat pvt.t) (m : M A) :
  lines_closed ps ->
  (forall wb, lines_closed (pvts wb) -> conf_equiv (pvts wb) ps ->
     triple (conf_only wb) m (fun _ => conf_only wb)) ->
  triple (follows w0 ps) m (fun _ => follows w0 ps).
Proof.
  intros Hcl Hm w Hw. pose proof Hw as (_ & He & _).
  destruct (Hm w (conf_equiv_closed _ _ He Hcl) He w (conf_only_refl w))
    as (a & w' & Hrun & Hco).
  exists a, w'. split; [exact Hrun|]. eapply follows_conf_only; eassumption.
Qed.

Lemma fl_rd (ps : gmap nat pvt.t) (q : nat) (e : pvt.t) :
  ps !! q = Some e ->
  triple (follows w0 ps) (rd q)
    (fun v w => erase_conf v = erase_conf e /\ follows w0 ps w).
Proof.
  intros Hq w Hw. pose proof Hw as (_ & He & _).
  destruct (conf_equiv_lookup _ _ q e He Hq) as (v & Hv & Hev).
  exists v, w. split; [apply rd_run; exact Hv|]. split; assumption.
Qed.

Lemma fl_wr (ps : gmap nat pvt.t) (q : nat) (f : pvt.t -> pvt.t) :
  is_Some (ps !! q) ->
  (forall v v', erase_conf v = erase_conf v' -> erase_conf (f v) = erase_conf (f v')) ->
  triple (follows w0 ps) (wr q f) (fun _ => follows w0 (alter f q ps)).
Proof.
  intros [e Hq] Hf w (Hc & He & Ht).
  destruct (conf_equiv_lookup _ _ q e He Hq) as (v & Hv & Hev).
  eexists. eexists. split; [apply wr_alter; eauto|].
  split; [exact Hc|]. split; [|exact Ht].
  cbn [pvts]. apply conf_equiv_alter; assumption.
Qed.

Lemma fl_conf_del (ps : gmap nat pvt.t) (p : nat) (c : subref) (index : subidx) :
  lines_closed ps -> is_Some (ps !! p) -> is_Some (ps !! c.1) ->
  triple (follows w0 ps) (conf_del K p c index) (fun _ => follows w0 ps).
Proof.
  intros Hcl [ep Hp] [ec Hc]. apply fl_conf; [exact Hcl|].
  intros wb Hclb Heb.
  destruct (conf_equiv_lookup _ _ p ep Heb Hp) as (vp & Hvp & _).
  destruct (conf_equiv_lookup _ _ c.1 ec Heb Hc) as (vc & Hvc & _).
  apply co_conf_del; eauto.
Qed.

Lemma fl_update_conf (ps : gmap nat pvt.t) (p : nat) :
  lines_closed ps -> is_Some (ps !! p) ->
  triple (follows w0 ps) (update_conf K p) (fun _ => follows w0 ps).
Proof.
  intros Hcl [ep Hp]. apply fl_conf; [exact Hcl|].
  intros wb Hclb Heb.
  destruct (conf_equiv_lookup _ _ p ep Heb Hp) as (vp & Hvp & _).
  apply (co_drop wb (fun r => r = 0)). apply co_update_conf; eauto.
Qed.

End Follows.

(** Clearing pointers keeps a store closed. *)
Lemma lines_closed_alter (ps : gmap nat pvt.t) (q : nat) (f : pvt.t -> pvt.t) :
  (forall v, (forall x s, get_slave (pvt.slaves (f v)) x = Some s ->
                exists y, get_slave (pvt.slaves v) y = Some s) /\
             (forall m, pvt.master (f v) = Some m -> pvt.master v = Some m) /\
             pvt.bearer (f v) = pvt.bearer v) ->
  lines_closed ps -> lines_closed (alter f q ps).
Proof.
  intros Hf Hcl r v Hr.
  assert (Hkeep : forall i, is_Some (ps !! i) -> is_Some (alter f q ps !! i)).
  { intros i [vi Hi]. rewrite lookup_alter. case_decide; subst; rewrite ?Hi; eauto. }
  rewrite lookup_alter in Hr. destruct (decide (q = r)) as [->|Hne].
  - destruct (ps !! r) as [v0|] eqn:Hr0; [|discriminate Hr].
    cbn in Hr. inversion Hr; subst v. clear Hr.
    destruct (Hcl r v0 Hr0) as (C1 & C2 & C3).
    destruct (Hf v0) as (F1 & F2 & F3).
    repeat split.
    + intros x s Hx. destruct (F1 x s Hx) as [y Hy]. apply Hkeep. eauto.
    + intros m Hm. apply Hkeep. eauto.
    + intros b Hb. apply Hkeep. rewrite F3 in Hb. eauto.
  - destruct (Hcl r v Hr) as (C1 & C2 & C3).
    repeat split; intros; apply Hkeep; eauto.
Qed.

Lemma shrinks_set_master (v : pvt.t) :
  (forall x s, get_slave (pvt.slaves (pvt.set_master None v)) x = Some s ->
     exists y, get_slave (pvt.slaves v) y = Some s) /\
  (forall m, pvt.master (pvt.set_master None v) = Some m -> pvt.master v = Some m) /\
  pvt.bearer (pvt.set_master None v) = pvt.bearer v.
Proof. destruct v. cbn. repeat split; [eauto | discriminate]. Qed.

Lemma shrinks_set_inconference (n : Z) (v : pvt.t) :
  (forall x s, get_slave (pvt.slaves (pvt.set_inconference n v)) x = Some s ->
     exists y, get_slave (pvt.slaves v) y = Some s) /\
  (forall m, pvt.master (pvt.set_inconference n v) = Some m -> pvt.master v = Some m) /\
  pvt.bearer (pvt.set_inconference n v) = pvt.bearer v.
Proof. destruct v. cbn. repeat split; eauto. Qed.

Lemma shrinks_put_slave (x0 : slaveidx) (v : pvt.t) :
  (forall x s,
     get_slave (pvt.slaves (pvt.set_slaves (put_slave x0 None (pvt.slaves v)) v)) x = Some s ->
     exists y, get_slave (pvt.slaves v) y = Some s) /\
  (forall m, pvt.master (pvt.set_slaves (put_slave x0 None (pvt.slaves v)) v) = Some m ->
     pvt.master v = Some m) /\
  pvt.bearer (pvt.set_slaves (put_slave x0 None (pvt.slaves v)) v) = pvt.bearer v.
Proof.
  destruct v as [? ? [a b c d]]. cbn. repeat split; [|eauto].
  intros x s Hx. destruct x0, x; cbn in Hx; try discriminate;
    first [ exists SLAVE0; exact Hx | exists SLAVE1; exact Hx
          | exists SLAVE2; exact Hx | exists SLAVE3; exact Hx ].
Qed.

Lemma links_slot_dom (s m : nat) (x : slaveidx) (st : bool * gmap nat pvt.t) (q : nat) :
  is_Some ((links_slot s m x st).2 !! q) <-> is_Some (st.2 !! q).
Proof.
  assert (Ha : forall f i (ps : gmap nat pvt.t),
            is_Some (alter f i ps !! q) <-> is_Some (ps !! q)).
  { intros f i ps. rewrite lookup_alter. case_decide; subst; [|tauto].
    destruct (ps !! q); cbn; split; intros [? ?]; eauto; discriminate. }
  unfold links_slot. destruct st as [hs ps]. cbn [fst snd].
  destruct (ps !! m) as [vm|]; [|tauto].
  destruct (get_slave (pvt.slaves vm) x) as [sx|].
  - destruct (Nat.eqb sx s).
    + destruct hs; cbn [snd]; rewrite ?Ha; tauto.
    + cbn [snd]. tauto.
  - destruct hs; cbn [snd]; rewrite ?Ha; tauto.
Qed.

Lemma links_slot_closed (s m : nat) (x : slaveidx) (st : bool * gmap nat pvt.t) :
  lines_closed st.2 -> lines_closed (links_slot s m x st).2.
Proof.
  intros Hcl. unfold links_slot. destruct st as [hs ps]. cbn [fst snd] in *.
  destruct (ps !! m) as [vm|]; [|exact Hcl].
  assert (H1 : forall ps', lines_closed ps' ->
             lines_closed (alter (pvt.set_inconference 0) m ps')).
  { intros ps'. apply lines_closed_alter. apply shrinks_set_inconference. }
  destruct (get_slave (pvt.slaves vm) x) as [sx|].
  - destruct (Nat.eqb sx s).
    + assert (H2 : lines_closed
               (alter (fun v => pvt.set_slaves (put_slave x None (pvt.slaves v)) v) m
                  (alter (pvt.set_master None) sx ps))).
      { apply lines_closed_alter; [apply shrinks_put_slave|].
        apply lines_closed_alter; [apply shrinks_set_master | exact Hcl]. }
      destruct hs; cbn [snd]; auto.
    + exact Hcl.
  - destruct hs; cbn [snd]; auto.
Qed.

Section UnlinkRun.

Variable K : env.
Variable w0 : world.
Variables s m : nat.

Lemma fl_unlink_slot (ps : gmap nat pvt.t) (x : slaveidx) (hs : bool) :
  lines_closed ps -> is_Some (ps !! m) ->
  triple (follows w0 ps) (unlink_slot K (Some s) m x hs)
    (fun r w => r = (links_slot s m x (hs, ps)).1 /\
                follows w0 (links_slot s m x (hs, ps)).2 w).
Proof.
  intros Hcl Hm. pose proof Hm as [em Hem].
  unfold unlink_slot, links_slot. cbn [fst snd]. rewrite Hem.
  tstep (fl_rd w0 ps m em Hem). tpure.
  match goal with H : erase_conf _ = erase_conf em |- _ =>
    apply erase_conf_keeps in H as (Hs & _) end.
  rewrite Hs.
  assert (Hwhen : forall (b : bool) (ps' : gmap nat pvt.t),
            is_Some (ps' !! m) ->
            triple (follows w0 ps')
              (bind (when (negb b) (wr m (pvt.set_inconference 0))) (fun _ => ret b))
              (fun r w => r = b /\
                 follows w0 (if b then ps' else alter (pvt.set_inconference 0) m ps') w)).
  { intros b ps' Hm'. destruct b; cbn [negb when].
    - eapply triple_bind with (Q := fun _ => follows w0 ps'); [apply triple_ret; auto|].
      intros ?. apply triple_ret. auto.
    - eapply triple_bind;
        [apply (fl_wr w0 ps' m _ Hm'); apply erase_conf_set_inconference|].
      intros ?. apply triple_ret. auto. }
  destruct (get_slave (pvt.slaves em) x) as [sx|] eqn:Ex.
  - cbn [is_some negb orb opt_nat_eqb].
    destruct (Nat.eqb sx s) eqn:E.
    + destruct (Hcl m em Hem) as (Hsl & _). pose proof (Hsl x sx Ex) as Hsx.
      assert (Hm1 : is_Some (alter (pvt.set_master None) sx ps !! m)).
      { rewrite lookup_alter. case_decide; subst; rewrite ?Hem; eauto. }
      eapply triple_bind with
        (Q := fun r w => r = hs /\
                follows w0
                  (alter (fun v => pvt.set_slaves (put_slave x None (pvt.slaves v)) v) m
                     (alter (pvt.set_master None) sx ps)) w).
      { tstep (fl_conf_del K w0 ps m (sx, SUB_REAL) SUB_REAL Hcl Hm Hsx).
        tstep (fl_conf_del K w0 ps sx (m, SUB_REAL) SUB_REAL Hcl Hsx Hm).
        eapply triple_bind;
          [apply (fl_wr w0 ps sx _ Hsx); apply erase_conf_set_master|]. intros ?.
        eapply triple_bind;
          [apply (fl_wr w0 _ m _ Hm1); apply erase_conf_put_slave|]. intros ?.
        apply triple_ret. auto. }
      intros r. apply triple_pure. intros ->. apply Hwhen.
      rewrite lookup_alter, decide_True by reflexivity.
      destruct Hm1 as [v1 ->]. eauto.
    + eapply triple_bind with (Q := fun r w => r = true /\ follows w0 ps w);
        [apply triple_ret; auto|].
      intros r. apply triple_pure. intros ->. apply (Hwhen true ps Hm).
  - eapply triple_bind with (Q := fun r w => r = hs /\ follows w0 ps w);
      [apply triple_ret; auto|].
    intros r. apply triple_pure. intros ->. apply (Hwhen hs ps Hm).
Qed.

End UnlinkRun.

Section UnlinkFold.

Variable K : env.
Variable w0 : world.
Variables s m : nat.

Lemma fl_unlink_fold (L : list slaveidx) :
  forall (hs : bool) (ps : gmap nat pvt.t),
    lines_closed ps -> is_Some (ps !! m) ->
    triple (follows w0 ps) (foldM (unlink_slot K (Some s) m) L hs)
      (fun r w => follows w0 (fold_left (fun st x => links_slot s m x st) L (hs, ps)).2 w).
Proof.
  induction L as [|x L IH]; intros hs ps Hcl Hm; cbn [foldM fold_left].
  - apply triple_ret. auto.
  - tstep (fl_unlink_slot K w0 s m ps x hs Hcl Hm). tpure. subst.
    pose proof (links_slot_closed s m x (hs, ps) Hcl) as Hcl'.
    pose proof (proj2 (links_slot_dom s m x (hs, ps) m) Hm) as Hm'.
    destruct (links_slot s m x (hs, ps)) as [hs' ps']. cbn [fst snd] in *.
    apply IH; assumption.
Qed.

Lemma links_unlinked_closed (ps : gmap nat pvt.t) (L : list slaveidx) :
  forall st, lines_closed st.2 -> is_Some (st.2 !! m) ->
    lines_closed (fold_left (fun st x => links_slot s m x st) L st).2 /\
    is_Some ((fold_left (fun st x => links_slot s m x st) L st).2 !! m).
Proof.
  induction L as [|x L IH]; intros st Hcl Hm; cbn [fold_left]; [auto|].
  apply IH; [apply links_slot_closed; exact Hcl | apply links_slot_dom; exact Hm].
Qed.

Lemma fl_dahdi_unlink (needlock : bool) (ps : gmap nat pvt.t) :
  lines_closed ps -> is_Some (ps !! m) ->
  triple (follows w0 ps) (dahdi_unlink K (Some s) (Some m) needlock)
    (fun _ => follows w0 (links_unlinked s m ps)).
Proof.
  intros Hcl Hm. unfold dahdi_unlink, links_unlinked.
  tstep (fl_unlink_fold all_slaves false ps Hcl Hm).
  destruct (links_unlinked_closed ps all_slaves (false, ps) Hcl Hm) as [Hcl' Hm'].
  set (ps' := (fold_left _ all_slaves (false, ps)).2) in *.
  eapply triple_bind with (Q := fun _ => follows w0 ps').
  { apply triple_ret. intros w Hw. exact Hw. }
  intros ?.
  tstep (fl_update_conf K w0 ps' m Hcl' Hm'). apply triple_ret. auto.
Qed.

End UnlinkFold.

(** The turn on the store is the turn on the two lines. *)
Lemma links_slot_lines (s m : nat) (x : slaveidx) (hs : bool) (vm vs : pvt.t)
    (ps : gmap nat pvt.t) :
  s <> m ->
  links_slot s m x (hs, <[m := vm]> (<[s := vs]> ps)) =
    ((unlink_lines s x (hs, vm, vs)).1.1,
     <[m := (unlink_lines s x (hs, vm, vs)).1.2]>
       (<[s := (unlink_lines s x (hs, vm, vs)).2]> ps)).
Proof.
  intros Hne. unfold links_slot, unlink_lines. cbn [fst snd].
  rewrite lookup_insert_eq.
  assert (Ha : forall f v1 v2, alter f m (<[m := v1]> (<[s := v2]> ps)) =
                               <[m := f v1]> (<[s := v2]> ps))
    by (intros; apply alter_insert_eq).
  assert (Hb : forall f v1 v2, alter f s (<[m := v1]> (<[s := v2]> ps)) =
                               <[m := v1]> (<[s := f v2]> ps)).
  { intros f v1 v2. rewrite alter_insert_ne by congruence.
    rewrite alter_insert_eq. reflexivity. }
  destruct (get_slave (pvt.slaves vm) x) as [sx|]; cbn [holds holds_other].
  - destruct (Nat.eqb sx s) eqn:E; cbn [negb].
    + apply Nat.eqb_eq in E. subst sx. rewrite orb_false_r.
      rewrite Hb, Ha. destruct hs; rewrite ?Ha; reflexivity.
    + rewrite orb_true_r. reflexivity.
  - rewrite orb_false_r. destruct hs; rewrite ?Ha; reflexivity.
Qed.

Lemma links_fold_lines (s m : nat) (ps : gmap nat pvt.t) (L : list slaveidx) :
  s <> m ->
  forall (hs : bool) (vm vs : pvt.t),
    (fold_left (fun st x => links_slot s m x st) L (hs, <[m := vm]> (<[s := vs]> ps))).2 =
    <[m := (fold_left (fun st x => unlink_lines s x st) L (hs, vm, vs)).1.2]>
      (<[s := (fold_left (fun st x => unlink_lines s x st) L (hs, vm, vs)).2]> ps).
Proof.
  intros Hne. induction L as [|x L IH]; intros hs vm vs; cbn [fold_left]; [reflexivity|].
  rewrite links_slot_lines by exact Hne.
  destruct (unlink_lines s x (hs, vm, vs)) as [[hs' vm'] vs'] eqn:E. cbn [fst snd].
  apply IH.
Qed.

(** The turn on the links alone. *)
Lemma unlink_lines_links (s : nat) (x : slaveidx) (hs : bool) (vm vs : pvt.t) :
  let r := unlink_lines s x (hs, vm, vs) in
  (r.1.1, pvt.slaves r.1.2, pvt.inconference r.1.2, pvt.master r.2) =
    unlink_links s x (hs, pvt.slaves vm, pvt.inconference vm, pvt.master vs) /\
  (pvt.master r.1.2 = pvt.master vm /\ pvt.subs r.1.2 = pvt.subs vm /\
   pvt.owner r.1.2 = pvt.owner vm) /\
  (pvt.slaves r.2 = pvt.slaves vs /\ pvt.inconference r.2 = pvt.inconference vs /\
   pvt.subs r.2 = pvt.subs vs /\ pvt.owner r.2 = pvt.owner vs).
Proof.
  unfold unlink_lines, unlink_links. cbn [fst snd].
  destruct (holds s (get_slave (pvt.slaves vm) x)),
           (hs || holds_other s (get_slave (pvt.slaves vm) x));
    destruct vm, vs; repeat split.
Qed.

Lemma unlink_lines_fold (s : nat) (L : list slaveidx) :
  forall (hs : bool) (vm vs : pvt.t),
    let r := fold_left (fun st x => unlink_lines s x st) L (hs, vm, vs) in
    (r.1.1, pvt.slaves r.1.2, pvt.inconference r.1.2, pvt.master r.2) =
      fold_left (fun st x => unlink_links s x st) L
        (hs, pvt.slaves vm, pvt.inconference vm, pvt.master vs) /\
    (pvt.master r.1.2 = pvt.master vm /\ pvt.subs r.1.2 = pvt.subs vm /\
     pvt.owner r.1.2 = pvt.owner vm) /\
    (pvt.slaves r.2 = pvt.slaves vs /\ pvt.inconference r.2 = pvt.inconference vs /\
     pvt.subs r.2 = pvt.subs vs /\ pvt.owner r.2 = pvt.owner vs).
Proof.
  induction L as [|x L IH]; intros hs vm vs; cbn [fold_left].
  - cbn. repeat split.
  - destruct (unlink_lines_links s x hs vm vs) as (E & (M1 & M2 & M3) & (S1 & S2 & S3 & S4)).
    destruct (unlink_lines s x (hs, vm, vs)) as [[hs' vm'] vs']. cbn [fst snd] in *.
    destruct (IH hs' vm' vs') as (E' & (M1' & M2' & M3') & (S1' & S2' & S3' & S4')).
    cbn zeta. rewrite E', E.
    repeat split; congruence.
Qed.

(** What the four turns leave of the links. *)
Lemma unlink_links_all (s : nat) (sl : slaves_t) (inc : Z) (ms : option nat) :
  let r := fold_left (fun st x => unlink_links s x st) all_slaves (false, sl, inc, ms) in
  (forall x, get_slave r.1.1.2 x =
             if holds s (get_slave sl x) then None else get_slave sl x) /\
  r.1.2 = (if holds_other s (get_slave sl SLAVE0) then inc else 0) /\
  r.2 = (if existsb (holds s) (slaves_list sl) then None else ms).
Proof.
  destruct sl as [a b c d].
  cbn zeta. (split; [intros x; destruct x | split]);
  destruct a as [a|], b as [b|], c as [c|], d as [d|];
    repeat (cbn [all_slaves fold_left unlink_links get_slave slave0 slave1 slave2 slave3
                 put_slave fst snd slaves_list existsb holds holds_other negb orb];
            match goal with
            | |- context [Nat.eqb ?n s] => destruct (Nat.eqb n s)
            end);
    reflexivity.
Qed.

Lemma follows_refl (w : world) : follows w (pvts w) w.
Proof.
  split; [reflexivity|]. split; [reflexivity|].
  exists []. split; [symmetry; apply app_nil_r | constructor].
Qed.

(** X18.  [dahdi_unlink] of one slave from its master, on a world
    without dangling line pointers, runs to the end.  Every slot of the
    master that held the slave is empty and the other slots are as they
    were; the slave has no master if it sat in a slot, and keeps its
    master otherwise; the master keeps its own master.  The master's
    [inconference] is kept only when slot 0 holds another slave, and is
    cleared otherwise, even when another slave sits in a later slot: the
    test on [hasslaves] is made inside the loop, after each slot.  The
    call legs are untouched, and no other line changes but in conference
    numbers and records. *)
Theorem unlink_takes_the_slave_out (K : env) (s m : nat) (needlock : bool)
    (w : world) (vm vs : pvt.t) :
  lines_closed (pvts w) ->
  pvts w !! m = Some vm ->
  pvts w !! s = Some vs ->
  s <> m ->
  exists (w' : world) (vm' vs' : pvt.t),
    dahdi_unlink K (Some s) (Some m) needlock w = Some (tt, w') /\
    pvts w' !! m = Some vm' /\
    pvts w' !! s = Some vs' /\
    (forall x, get_slave (pvt.slaves vm') x =
               if holds s (get_slave (pvt.slaves vm) x) then None
               else get_slave (pvt.slaves vm) x) /\
    pvt.inconference vm' =
      (if holds_other s (get_slave (pvt.slaves vm) SLAVE0)
       then pvt.inconference vm else 0) /\
    pvt.master vs' =
      (if existsb (holds s) (slaves_list (pvt.slaves vm)) then None else pvt.master vs) /\
    pvt.master vm' = pvt.master vm /\
    pvt.slaves vs' = pvt.slaves vs /\
    pvt.inconference vs' = pvt.inconference vs /\
    chans w' = chans w /\
    (forall q, q <> m -> q <> s ->
       erase_conf <$> (pvts w' !! q) = erase_conf <$> (pvts w !! q)).
Proof.
  intros Hcl Hm Hs Hne.
  destruct (fl_dahdi_unlink K w s m needlock (pvts w) Hcl (ex_intro _ vm Hm) w
              (follows_refl w)) as (r & w' & Hrun & Hch & He & _).
  destruct r.
  assert (Hps : pvts w = <[m := vm]> (<[s := vs]> (pvts w))).
  { rewrite (insert_id (pvts w) s vs Hs). rewrite (insert_id (pvts w) m vm Hm).
    reflexivity. }
  unfold links_unlinked in He. rewrite Hps in He.
  rewrite (links_fold_lines s m (pvts w) all_slaves Hne false vm vs) in He.
  destruct (unlink_lines_fold s all_slaves false vm vs)
    as (E & (M1 & M2 & M3) & (S1 & S2 & S3 & S4)).
  destruct (unlink_links_all s (pvt.slaves vm) (pvt.inconference vm) (pvt.master vs))
    as (A1 & A2 & A3).
  cbn zeta in E, A1, A2, A3. rewrite <- E in A1, A2, A3. cbn [fst snd] in A1, A2, A3.
  set (r4 := fold_left (fun st x => unlink_lines s x st) all_slaves (false, vm, vs)) in *.
  destruct (conf_equiv_lookup _ _ m r4.1.2 He (lookup_insert_eq _ _ _))
    as (vm' & Hvm' & Hem).
  assert (Hs4 : <[m := r4.1.2]> (<[s := r4.2]> (pvts w)) !! s = Some r4.2).
  { rewrite lookup_insert_ne by congruence. apply lookup_insert_eq. }
  destruct (conf_equiv_lookup _ _ s r4.2 He Hs4) as (vs' & Hvs' & Hes).
  apply erase_conf_keeps in Hem as (Ks & Km & _ & _ & _ & Ki & _).
  apply erase_conf_keeps in Hes as (Ls & Lm & _ & _ & _ & Li & _).
  exists w', vm', vs'. split; [exact Hrun|]. split; [exact Hvm'|]. split; [exact Hvs'|].
  split; [intros x; rewrite Ks; apply A1|].
  split; [rewrite Ki; exact A2|].
  split; [rewrite Lm; exact A3|].
  split; [congruence|]. split; [congruence|]. split; [congruence|].
  split; [exact Hch|].
  intros q Hqm Hqs.
  pose proof (f_equal (fun mp => mp !! q) He) as H. cbn in H.
  rewrite !lookup_fmap in H.
  rewrite !lookup_insert_ne in H by congruence. exact H.
Qed.

Lemma unlink_takes_the_slave_out_witness :
  exists (w' : world) (vm' vs' : pvt.t),
    dahdi_unlink dahdi_linux (Some 2%nat) (Some 1%nat) true world_bridged = Some (tt, w') /\
    pvts w' !! 1%nat = Some vm' /\
    pvts w' !! 2%nat = Some vs' /\
    (forall x, get_slave (pvt.slaves vm') x =
               if holds 2 (get_slave (mk_slaves (Some 2%nat) None None None) x) then None
               else get_slave (mk_slaves (Some 2%nat) None None None) x) /\
    pvt.inconference vm' =
      (if holds_other 2 (get_slave (mk_slaves (Some 2%nat) None None None) SLAVE0)
       then 1 else 0) /\
    pvt.master vs' =
      (if existsb (holds 2) (slaves_list (mk_slaves (Some 2%nat) None None None))
       then None else Some 1%nat) /\
    pvt.master vm' = None /\
    pvt.slaves vs' = mk_slaves None None None None /\
    pvt.inconference vs' = 0 /\
    chans w' = chans world_bridged /\
    (forall q, q <> 1%nat -> q <> 2%nat ->
       erase_conf <$> (pvts w' !! q) = erase_conf <$> (pvts world_bridged !! q)).
Proof.
  apply (unlink_takes_the_slave_out dahdi_linux 2%nat 1%nat true world_bridged
           (pvt.set_inconference 1
              (pvt.set_slaves (mk_slaves (Some 2%nat) None None None)
                 (line SIG_FXOKS 1 1 (sub_open 10 (Some 100%nat)))))
           (pvt.set_master (Some 1%nat)
              (line SIG_FXOKS 2 2 (sub_open 20 (Some 200%nat))))).
  - intros q v Hq. unfold world_bridged in Hq. cbn [pvts] in Hq.
    rewrite lookup_insert in Hq. case_decide.
    { inversion Hq; subst v. repeat split.
      - intros x s Hx. destruct x; cbn in Hx; inversion Hx; subst. vm_compute. eauto.
      - intros m Hm. discriminate Hm.
      - intros b Hb. discriminate Hb. }
    rewrite lookup_insert in Hq. case_decide.
    { inversion Hq; subst v. repeat split.
      - intros x s Hx. destruct x; cbn in Hx; discriminate Hx.
      - intros m Hm. cbn in Hm. inversion Hm; subst. vm_compute. eauto.
      - intros b Hb. discriminate Hb. }
    rewrite lookup_empty in Hq. discriminate Hq.
  - reflexivity.
  - reflexivity.
  - discriminate.
Defined.

(** ** C3: when a slave is merged by digital monitor *)

Lemma en_bind {A B} (P : world -> Prop) (Q : A -> world -> Prop) (R : B -> world -> Prop)
    (m : M A) (k : A -> M B) :
  ensures P m Q -> (forall a, ensures (Q a) (k a) R) -> ensures P (bind m k) R.
Proof.
  intros Hm Hk w b w' HP Hrun. unfold bind in Hrun.
  destruct (m w) as [[a w1]|] eqn:E; [|discriminate Hrun].
  exact (Hk a w1 b w' (Hm w a w1 HP E) Hrun).
Qed.

Lemma en_ret {A} (P : world -> Prop) (Q : A -> world -> Prop) (a : A) :
  (forall w, P w -> Q a w) -> ensures P (ret a) Q.
Proof. intros H w b w' HP Hrun. injection Hrun as <- <-. apply H. exact HP. Qed.

Lemma en_when (P : world -> Prop) (b : bool) (m : M unit) :
  ensures P m (fun _ => P) -> ensures P (when b m) (fun _ => P).
Proof. intros H. destruct b; [exact H | apply en_ret; auto]. Qed.

Lemma en_pure {A} (phi : Prop) (P : world -> Prop) (m : M A) (Q : A -> world -> Prop) :
  (phi -> ensures P m Q) -> ensures (fun w => phi /\ P w) m Q.
Proof. intros H w a w' [Hphi HP]. apply H; assumption. Qed.

Lemma en_pre_swap {A} (phi : Prop) (P : world -> Prop) (m : M A) (Q : A -> world -> Prop) :
  ensures (fun w => phi /\ P w) m Q -> ensures (fun w => P w /\ phi) m Q.
Proof. intros H w a w' [HP Hphi]. apply H. split; assumption. Qed.

Lemma en_if {A} (P : world -> Prop) (b : bool) (m1 m2 : M A) (Q : A -> world -> Prop) :
  (b = true -> ensures P m1 Q) -> (b = false -> ensures P m2 Q) ->
  ensures P (if b then m1 else m2) Q.
Proof. intros H1 H2. destruct b; [apply H1 | apply H2]; reflexivity. Qed.

Lemma en_quiet {A} (P : world -> Prop) (m : M A) :
  lines_only P -> quiet m -> ensures P m (fun _ => P).
Proof. intros HP Hm w a w' Hw Hrun. exact (HP w w' (Hm w a w' Hrun) Hw). Qed.

Lemma rd_same (q : nat) (w : world) (v : pvt.t) (w' : world) :
  rd q w = Some (v, w') -> w' = w /\ pvts w !! q = Some v.
Proof.
  unfold rd. destruct (pvts w !! q); intros H; inversion H; subst. auto.
Qed.

Lemma quiet_rd (q : nat) : quiet (rd q).
Proof. intros w a w' H. apply rd_same in H as [-> _]. reflexivity. Qed.

Lemma quiet_rdsub (c : subref) : quiet (rdsub c).
Proof.
  intros w a w' H. unfold rdsub, bind in H.
  destruct (rd c.1 w) as [[v w1]|] eqn:E; [|discriminate H].
  apply rd_same in E as [-> _]. injection H as _ <-. reflexivity.
Qed.

Lemma quiet_history : quiet history.
Proof. intros w a w' H. injection H as _ <-. reflexivity. Qed.

Lemma quiet_emit (e : event) : quiet (emit e).
Proof. intros w a w' H. injection H as _ <-. reflexivity. Qed.

Lemma quiet_hw (K : env) (c : hwcall) : quiet (hw K c).
Proof. intros w a w' H. injection H as _ <-. reflexivity. Qed.

Lemma quiet_isslavenative (q : nat) : quiet (isslavenative q).
Proof.
  intros w r w' H. unfold isslavenative, bind in H.
  destruct (rd q w) as [[v w1]|] eqn:E; [|discriminate H].
  apply rd_same in E as [-> _].
  destruct (if no_threeway v then _ else _) as [[s'|] usn].
  - destruct (rd s' w) as [[vs w2]|] eqn:E2; [|discriminate H].
    apply rd_same in E2 as [-> _].
    destruct (negb _); injection H as _ <-; reflexivity.
  - injection H as _ <-. reflexivity.
Qed.

Lemma quiet_GET_CHANNEL (q : nat) : quiet (GET_CHANNEL q).
Proof.
  intros w c w' H. unfold GET_CHANNEL, bind in H.
  destruct (rd q w) as [[v w1]|] eqn:E; [|discriminate H].
  apply rd_same in E as [-> _].
  destruct (pvt.bearer v) as [b|]; [|injection H as _ <-; reflexivity].
  destruct (rd b w) as [[vb w2]|] eqn:E2; [|discriminate H].
  apply rd_same in E2 as [-> _]. injection H as _ <-. reflexivity.
Qed.

Lemma conf_equiv_origin (ps ps0 : gmap nat pvt.t) (q : nat) (v : pvt.t) :
  conf_equiv ps ps0 -> ps !! q = Some v ->
  exists v0, ps0 !! q = Some v0 /\ erase_conf v = erase_conf v0.
Proof.
  intros He Hq.
  pose proof (f_equal (fun m => m !! q) He) as H. cbn in H.
  rewrite !lookup_fmap, Hq in H.
  destruct (ps0 !! q) as [v0|]; [|discriminate H].
  exists v0. split; [reflexivity|]. cbn in H. congruence.
Qed.

Lemma conf_equiv_insert (ps ps0 : gmap nat pvt.t) (q : nat) (v v' : pvt.t) :
  conf_equiv ps ps0 -> ps !! q = Some v -> erase_conf v' = erase_conf v ->
  conf_equiv (<[q := v']> ps) ps0.
Proof.
  intros He Hq Hv. unfold conf_equiv in *.
  rewrite fmap_insert, Hv, <- He.
  apply insert_id. rewrite lookup_fmap, Hq. reflexivity.
Qed.

Lemma upd_other_real (x : subidx) (f : sub.t -> sub.t) (v : pvt.t) :
  x <> SUB_REAL -> psub (upd_sub x f v) SUB_REAL = psub v SUB_REAL.
Proof.
  intros Hx. rewrite psub_upd_sub.
  destruct (decide (SUB_REAL = x)) as [E|_]; [congruence | reflexivity].
Qed.

Lemma programmed_lines (w0 : world) (s p : nat) (R : conf.t -> Z -> Prop) :
  lines_only (programmed w0 s p R).
Proof. intros w w' E H. unfold programmed in *. rewrite E. exact H. Qed.

Lemma lines_only_known (P : world -> Prop) (q : nat) (v : pvt.t) :
  lines_only P -> lines_only (fun w => P w /\ pvts w !! q = Some v).
Proof. intros HP w w' E [H1 H2]. split; [exact (HP w w' E H1) | rewrite E; exact H2]. Qed.

Section SlaveMode.

Variable K : env.
Variable w0 : world.
Variable s p : nat.
Variable vs vp : pvt.t.

Hypothesis slave_known : pvts w0 !! s = Some vs.
Hypothesis master_known : pvts w0 !! p = Some vp.
Hypothesis slave_other : s <> p.
Hypothesis slave_open : 0 <= sub.dfd (psub vs SUB_REAL).
Hypothesis kernel : setconf_accepted K (sub.dfd (psub vs SUB_REAL)).

Variable ch : Z.
Hypothesis master_channel : GET_CHANNEL p w0 = Some (ch, w0).

(** A write that touches neither the link fields of a line nor the
    conference record of the slave's Real sub-channel, and keeps [R]
    when it changes the conference number of the master. *)
Lemma programmed_insert (R : conf.t -> Z -> Prop) (w : world) (q : nat) (v v' : pvt.t) :
  programmed w0 s p R w ->
  pvts w !! q = Some v ->
  erase_conf v' = erase_conf v ->
  (q = s -> sub.curconf (psub v' SUB_REAL) = sub.curconf (psub v SUB_REAL)) ->
  (q = p -> forall c, R c (pvt.confno v) -> R c (pvt.confno v')) ->
  programmed w0 s p R (mk_world (<[q := v']> (pvts w)) (chans w) (trace w)).
Proof.
  intros (He & us & up & Hus & Hup & HR) Hq Hv Hcur Hno. split.
  - cbn [pvts]. eapply conf_equiv_insert; eassumption.
  - cbn [pvts]. destruct (decide (q = s)) as [->|Hqs].
    + exists v', up. split; [apply lookup_insert_eq|].
      split; [rewrite lookup_insert_ne by exact slave_other; exact Hup|].
      rewrite (Hcur eq_refl). congruence.
    + destruct (decide (q = p)) as [->|Hqp].
      * exists us, v'. split; [rewrite lookup_insert_ne by exact Hqs; exact Hus|].
        split; [apply lookup_insert_eq|].
        apply (Hno eq_refl). congruence.
      * exists us, up. rewrite !lookup_insert_ne by assumption. auto.
Qed.

Lemma GET_CHANNEL_equiv (w : world) :
  conf_equiv (pvts w) (pvts w0) -> GET_CHANNEL p w = Some (ch, w).
Proof.
  intros He. pose proof master_channel as H0.
  unfold GET_CHANNEL, bind in H0 |- *.
  unfold rd at 1 in H0. rewrite master_known in H0.
  pose proof (f_equal (fun m => m !! p) He) as Hl. cbn in Hl.
  rewrite !lookup_fmap, master_known in Hl.
  unfold rd at 1. destruct (pvts w !! p) as [v|] eqn:Hv; [|discriminate Hl].
  assert (Hev : erase_conf v = erase_conf vp) by (cbn in Hl; congruence).
  apply erase_conf_keeps in Hev as (_ & _ & Hb & _ & Hc & _).
  rewrite Hb.
  destruct (pvt.bearer vp) as [bq|].
  - unfold rd in H0 |- *.
    destruct (pvts w0 !! bq) as [vb0|] eqn:Hb0; [|discriminate H0].
    pose proof (f_equal (fun m => m !! bq) He) as Hlb. cbn in Hlb.
    rewrite !lookup_fmap, Hb0 in Hlb.
    destruct (pvts w !! bq) as [vb|]; [|discriminate Hlb].
    assert (Hevb : erase_conf vb = erase_conf vb0) by (cbn in Hlb; congruence).
    apply erase_conf_keeps in Hevb as (_ & _ & _ & _ & Hcb & _).
    cbn [ret] in H0 |- *. injection H0 as <-. rewrite Hcb. reflexivity.
  - cbn [ret] in H0 |- *. injection H0 as <-. rewrite Hc. reflexivity.
Qed.

Section Others.

Variable R : conf.t -> Z -> Prop.
Hypothesis R_stable : stable K R.

(** The tail of [conf_add] and [conf_del]: a conference record is
    stored on a sub-channel other than the slave's Real one. *)
Lemma en_store_other (P : world -> Prop) (c : subref) (zi : conf.t) :
  c <> (s, SUB_REAL) ->
  (forall w, P w -> programmed w0 s p R w) ->
  ensures P (wr c.1 (upd_sub c.2 (sub.set_curconf zi)))
    (fun _ => programmed w0 s p R).
Proof.
  intros Hc HP w a w' HI Hrun. unfold wr in Hrun.
  destruct (pvts w !! c.1) as [v|] eqn:Hq; [|discriminate Hrun].
  injection Hrun as _ <-.
  apply (programmed_insert R w c.1 v _ (HP w HI) Hq).
  - apply erase_conf_curconf.
  - intros E. rewrite upd_other_real; [reflexivity|].
    intros E2. apply Hc. destruct c as [c1 c2]. cbn in E, E2. congruence.
  - intros _ c0 Hc0. destruct v. exact Hc0.
Qed.

(** [conf_add] for a sub-channel other than the slave's Real one. *)
Lemma en_conf_add_other (q : nat) (c : subref) (index : subidx) (sc : Z) :
  c <> (s, SUB_REAL) ->
  ensures (programmed w0 s p R) (conf_add K q c index sc)
    (fun _ => programmed w0 s p R).
Proof.
  intros Hc w a w' HI Hrun. unfold conf_add in Hrun.
  unfold bind at 1 in Hrun.
  destruct (rd q w) as [[vq w1]|] eqn:Eq; [|discriminate Hrun].
  apply rd_same in Eq as [-> Hq].
  set (P1 := fun w => programmed w0 s p R w /\ pvts w !! q = Some vq).
  assert (HP1 : lines_only P1)
    by (apply lines_only_known, programmed_lines).
  assert (Hdrop : forall w, P1 w -> programmed w0 s p R w) by (intros ? [H _]; exact H).
  match type of Hrun with
  | ?m w = _ =>
      assert (E : ensures P1 m (fun _ => programmed w0 s p R));
        [| exact (E w a w' (conj HI Hq) Hrun)]
  end.
  eapply en_bind; [apply (en_quiet P1 _ HP1 (quiet_rdsub c))|]. intros cs.
  destruct (_ && _); [apply en_ret; exact Hdrop|].
  destruct (_ <? 0); [apply en_ret; exact Hdrop|].
  eapply en_bind; [apply (en_quiet P1 _ HP1 quiet_history)|]. intros h.
  eapply en_bind; [apply (en_quiet P1 _ HP1 (quiet_hw K _))|]. intros r.
  destruct (negb _).
  - eapply en_bind; [apply (en_quiet P1 _ HP1 (quiet_emit _))|]. intros ?.
    apply en_ret. exact Hdrop.
  - eapply en_bind with (Q := fun _ => programmed w0 s p R).
    + destruct (sc <? 1) eqn:Esc; [|apply en_ret; exact Hdrop]. cbn [when].
      assert (Hzi : conf_add_zi K vq index sc =
                    conf.mk 0 (pvt.confno vq) (conf.confmode (conf_add_zi K vq index sc))).
      { unfold conf_add_zi. apply Z.ltb_lt in Esc.
        replace (0 <? sc) with false by (symmetry; apply Z.ltb_ge; lia). reflexivity. }
      intros w2 a2 w2' [HI2 Hq2] Hrun2. unfold wr in Hrun2.
      rewrite Hq2 in Hrun2. injection Hrun2 as _ <-.
      apply (programmed_insert R w2 q vq _ HI2 Hq2).
      * apply erase_conf_confno.
      * intros _. destruct vq. reflexivity.
      * intros _ c0 Hc0.
        change (pvt.confno (pvt.set_confno ?n vq)) with n.
        rewrite Hzi. apply R_stable. exact Hc0.
    + intros ?. eapply en_bind; [apply en_store_other; [exact Hc | auto]|]. intros ?.
      apply en_ret. auto.
Qed.

(** [conf_del] for a sub-channel other than the slave's Real one. *)
Lemma en_conf_del_other (q : nat) (c : subref) (index : subidx) :
  c <> (s, SUB_REAL) ->
  ensures (programmed w0 s p R) (conf_del K q c index)
    (fun _ => programmed w0 s p R).
Proof.
  intros Hc. unfold conf_del.
  pose proof (programmed_lines w0 s p R) as HP.
  eapply en_bind; [apply (en_quiet _ _ HP (quiet_rd q))|]. intros vq.
  eapply en_bind; [apply (en_quiet _ _ HP (quiet_rdsub c))|]. intros cs.
  destruct (_ || _); [apply en_ret; auto|].
  eapply en_bind; [apply (en_quiet _ _ HP quiet_history)|]. intros h.
  eapply en_bind; [apply (en_quiet _ _ HP (quiet_hw K _))|]. intros r.
  destruct (negb _).
  - eapply en_bind; [apply (en_quiet _ _ HP (quiet_emit _))|]. intros ?.
    apply en_ret. auto.
  - eapply en_bind; [apply en_store_other; [exact Hc | auto]|]. intros ?.
    apply en_ret. auto.
Qed.

End Others.

Variable x : slaveidx.
Variable native : bool.
Variable mode : Z.
Variable numbered : bool.

Hypothesis slave_slot : get_slave (pvt.slaves vp) x = Some s.
Hypothesis mode_of_native :
  mode = if native && (0 <? ch) then DAHDI_CONF_DIGITALMON K else confmode_real K.
Hypothesis numbered_ok :
  numbered = true ->
  setconf_numbered K /\
  (pvt.confno vp = -1 \/ 0 < pvt.confno vp) /\
  conf.confno (sub.curconf (psub vs SUB_REAL)) <> -1.

Lemma stable_untouched : stable K (record_untouched (sub.curconf (psub vs SUB_REAL)) numbered).
Proof.
  intros c n h fd md [Hc Hn]. split; [exact Hc|]. intros Hnum.
  destruct (numbered_ok Hnum) as (Hk & _).
  destruct (Hk h fd (conf.mk 0 n md)) as [Hpos Hneg]. cbn [conf.confno] in Hpos, Hneg.
  destruct (Hn Hnum) as [E|E].
  - right. apply Hneg. exact E.
  - right. rewrite (Hpos E). exact E.
Qed.

Lemma stable_in_mode : stable K (record_in_mode mode native ch numbered).
Proof.
  intros c n h fd md [Hc Hn]. split; [exact Hc|]. intros Hnum.
  specialize (Hn Hnum). destruct native; [exact Hn|].
  destruct (numbered_ok Hnum) as (Hk & _).
  destruct (Hk h fd (conf.mk 0 n md)) as [Hpos _]. cbn [conf.confno] in Hpos.
  destruct Hn as [E1 E2]. rewrite (Hpos E2). auto.
Qed.

Lemma numbered_untouched : numbered_from numbered (record_untouched (sub.curconf (psub vs SUB_REAL)) numbered).
Proof.
  intros c n [Hc Hn] Hnum. split; [exact (Hn Hnum)|]. intros E.
  destruct (numbered_ok Hnum) as (_ & _ & Hc0). subst c.
  destruct (Hn Hnum) as [H|H]; [congruence | exact H].
Qed.

Lemma numbered_in_mode : native = false -> numbered_from numbered (record_in_mode mode native ch numbered).
Proof.
  intros -> c n [Hc Hn] Hnum. destruct (Hn Hnum) as [_ H]. auto.
Qed.

Lemma slave_channel_mode (v : pvt.t) :
  conf.confmode (conf_add_zi K v SUB_REAL (if native then ch else 0)) = mode.
Proof.
  rewrite mode_of_native. unfold conf_add_zi.
  destruct native; cbn [andb]; [|reflexivity].
  destruct (0 <? ch); reflexivity.
Qed.

(** [conf_add] for the slave's Real sub-channel, as the loop of
    [update_conf] over the slaves calls it: afterwards the sub-channel
    is programmed in [mode], whether the kernel had to be asked or
    not. *)
Lemma en_conf_add_slave (R : conf.t -> Z -> Prop) :
  (native = false -> numbered_from numbered R) ->
  ensures (programmed w0 s p R)
    (conf_add K p (s, SUB_REAL) SUB_REAL (if native then ch else 0))
    (fun _ => programmed w0 s p (record_in_mode mode native ch numbered)).
Proof.
  intros HR w a w' (He & us & up & Hus & Hup & HRw) Hrun.
  set (sc := if native then ch else 0) in *.
  unfold conf_add, rdsub in Hrun.
  unfold bind at 1 in Hrun. unfold rd at 1 in Hrun. rewrite Hup in Hrun.
  unfold bind at 1 in Hrun. unfold bind at 1 in Hrun. cbn [fst snd] in Hrun.
  unfold rd at 1 in Hrun. rewrite Hus in Hrun. cbn [ret] in Hrun.
  set (zi := conf_add_zi K up SUB_REAL sc) in *.
  assert (Hzmode : conf.confmode zi = mode) by apply slave_channel_mode.
  assert (Hzno : conf.confno zi = if 0 <? sc then sc else pvt.confno up)
    by apply conf_add_zi_confno.
  destruct (conf_equiv_origin _ _ s us He Hus) as (v0 & Hv0 & Hev).
  rewrite slave_known in Hv0. injection Hv0 as <-.
  destruct (erase_conf_sub us vs SUB_REAL Hev) as (Hdfd & _).
  destruct ((conf.confno zi =? conf.confno (sub.curconf (psub us SUB_REAL))) &&
            (conf.confmode zi =? conf.confmode (sub.curconf (psub us SUB_REAL)))) eqn:Esame.
  { injection Hrun as _ <-.
    apply andb_true_iff in Esame as [E1 E2]. apply Z.eqb_eq in E1, E2.
    split; [exact He|]. exists us, up. split; [exact Hus|]. split; [exact Hup|].
    split; [congruence|]. intros Hnum.
    unfold sc in *. destruct native eqn:En.
    - intros Hch. rewrite <- E1, Hzno.
      replace (0 <? ch) with true by (symmetry; apply Z.ltb_lt; exact Hch). reflexivity.
    - assert (Hn : conf.confno zi = pvt.confno up) by exact Hzno.
      rewrite Hn in E1.
      destruct (HR eq_refl _ _ HRw Hnum) as [_ Hpos]. auto. }
  replace (sub.dfd (psub us SUB_REAL) <? 0) with false in Hrun
    by (symmetry; apply Z.ltb_ge; rewrite Hdfd; exact slave_open).
  unfold history, hw, history, emit in Hrun.
  repeat mstep_in Hrun.
  rewrite Hdfd in Hrun.
  destruct (kernel (trace w) zi) as [Hacc Hkeep].
  rewrite Hacc in Hrun. cbn [Z.eqb negb] in Hrun.
  set (zi' := setconf_out K (trace w) (sub.dfd (psub vs SUB_REAL)) zi) in *.
  assert (Hzi' : conf.confmode zi' = mode) by (rewrite <- Hzmode; exact Hkeep).
  destruct (sc <? 1) eqn:Esc; cbn [when] in Hrun.
  - (* the master takes the conference number the kernel answered *)
    unfold bind at 1 in Hrun. unfold wr at 1 in Hrun. cbn [pvts chans trace] in Hrun.
    rewrite Hup in Hrun.
    unfold bind at 1 in Hrun. unfold wr at 1 in Hrun. cbn [pvts chans trace] in Hrun.
    rewrite lookup_insert_ne in Hrun by (intros E; apply slave_other; congruence).
    rewrite Hus in Hrun. cbn [ret] in Hrun. injection Hrun as _ <-.
    split.
    { cbn [pvts]. eapply conf_equiv_insert;
        [eapply conf_equiv_insert; [exact He | exact Hup | apply erase_conf_confno]
        | rewrite lookup_insert_ne by (intros E; apply slave_other; congruence); exact Hus
        | apply erase_conf_curconf]. }
    cbn [pvts]. eexists. eexists. split; [apply lookup_insert_eq|].
    split; [rewrite lookup_insert_ne by exact slave_other; apply lookup_insert_eq|].
    rewrite psub_upd_sub, decide_True by reflexivity.
    change (sub.curconf (sub.set_curconf zi' ?c)) with zi'.
    change (pvt.confno (pvt.set_confno ?n up)) with n.
    split; [exact Hzi'|]. intros Hnum.
    apply Z.ltb_lt in Esc.
    replace (0 <? sc) with false in Hzno by (symmetry; apply Z.ltb_ge; lia).
    unfold sc in *. destruct native eqn:En; [intros Hch; lia|].
    split; [reflexivity|].
    destruct (numbered_ok Hnum) as (Hk & _).
    destruct (Hk (trace w) (sub.dfd (psub vs SUB_REAL)) zi) as [Hpos Hneg].
    fold zi' in Hpos, Hneg. rewrite Hzno in Hpos, Hneg.
    destruct (HR eq_refl _ _ HRw Hnum) as [[E|E] _].
    + apply Hneg. exact E.
    + rewrite (Hpos E). exact E.
  - (* slave-native on a positive channel: the master's number stays *)
    rewrite bind_ret in Hrun.
    unfold bind at 1 in Hrun. unfold wr at 1 in Hrun. cbn [pvts chans trace] in Hrun.
    rewrite Hus in Hrun. cbn [ret] in Hrun. injection Hrun as _ <-.
    split.
    { cbn [pvts]. eapply conf_equiv_insert; [exact He | exact Hus | apply erase_conf_curconf]. }
    cbn [pvts]. eexists. exists up. split; [apply lookup_insert_eq|].
    split; [rewrite lookup_insert_ne by exact slave_other; exact Hup|].
    rewrite psub_upd_sub, decide_True by reflexivity.
    change (sub.curconf (sub.set_curconf zi' ?c)) with zi'.
    split; [exact Hzi'|]. intros Hnum.
    apply Z.ltb_ge in Esc.
    unfold sc in *. destruct native eqn:En; [|lia].
    intros Hch.
    destruct (numbered_ok Hnum) as (Hk & _).
    destruct (Hk (trace w) (sub.dfd (psub vs SUB_REAL)) zi) as [Hpos _].
    fold zi' in Hpos. rewrite Hzno in Hpos.
    replace (0 <? ch) with true in Hpos by (symmetry; apply Z.ltb_lt; exact Hch).
    apply Hpos. exact Hch.
Qed.

(** One turn of the loop of [update_conf] over the slaves: the count
    does not go down; a turn on a slot that holds the slave programs it
    and, outside slave-native mode, adds one to the count; a turn on
    another slot keeps the relation. *)
Lemma en_update_conf_slave (R : conf.t -> Z -> Prop) (y : slaveidx) (n : Z) :
  stable K R ->
  (native = false -> numbered_from numbered R) ->
  ensures (programmed w0 s p R) (update_conf_slave K p native y n)
    (fun n' w =>
       n <= n' /\
       (get_slave (pvt.slaves vp) y = Some s ->
        programmed w0 s p (record_in_mode mode native ch numbered) w /\ (native = false -> n' = n + 1)) /\
       (get_slave (pvt.slaves vp) y <> Some s -> programmed w0 s p R w)).
Proof.
  intros Hst Hnum w a w' HI Hrun. unfold update_conf_slave in Hrun.
  unfold bind at 1 in Hrun.
  destruct (rd p w) as [[v w1]|] eqn:E; [|discriminate Hrun].
  apply rd_same in E as [-> Hv].
  destruct (conf_equiv_origin _ _ p v (proj1 HI) Hv) as (v0 & Hv0 & Hev).
  rewrite master_known in Hv0. injection Hv0 as <-.
  apply erase_conf_keeps in Hev as (Hsl & _). rewrite Hsl in Hrun.
  destruct (get_slave (pvt.slaves vp) y) as [s'|].
  2:{ injection Hrun as <- <-. split; [lia|]. split; [discriminate | intros _; exact HI]. }
  assert (Hrun' : (conf_add K p (s', SUB_REAL) SUB_REAL (if native then ch else 0) ;;
                   ret (if native then n else n + 1)) w = Some (a, w')).
  { destruct native.
    - unfold bind at 1 in Hrun. rewrite (GET_CHANNEL_equiv w (proj1 HI)) in Hrun. exact Hrun.
    - exact Hrun. }
  clear Hrun.
  unfold bind in Hrun'.
  destruct (conf_add K p (s', SUB_REAL) SUB_REAL (if native then ch else 0) w)
    as [[r w1]|] eqn:Eadd; [|discriminate Hrun'].
  injection Hrun' as <- <-.
  split; [destruct native; lia|].
  destruct (decide (s' = s)) as [->|Hne].
  - split; [|intros E; contradiction].
    intros _. split; [|intros ->; reflexivity].
    exact (en_conf_add_slave R Hnum w r w1 HI Eadd).
  - split; [intros E; congruence|].
    intros _. refine (en_conf_add_other R Hst p (s', SUB_REAL) SUB_REAL _ _ w r w1 HI Eadd).
    intros E. apply Hne. congruence.
Qed.

(** The loop over the slaves once the slave is programmed. *)
Lemma en_slaves_after (l : list slaveidx) :
  forall n, ensures (programmed w0 s p (record_in_mode mode native ch numbered)) (foldM (update_conf_slave K p native) l n)
              (fun n' w => n <= n' /\ programmed w0 s p (record_in_mode mode native ch numbered) w).
Proof.
  induction l as [|y l IH]; intros n; cbn [foldM].
  - apply en_ret. intros w H. split; [lia | exact H].
  - intros w a w' HI Hrun. unfold bind in Hrun.
    destruct (update_conf_slave K p native y n w) as [[n1 w1]|] eqn:E; [|discriminate Hrun].
    destruct (en_update_conf_slave (record_in_mode mode native ch numbered) y n stable_in_mode numbered_in_mode w n1 w1 HI E)
      as (Hle & Hhit & Hmiss).
    assert (H1 : programmed w0 s p (record_in_mode mode native ch numbered) w1).
    { destruct (decide (get_slave (pvt.slaves vp) y = Some s)) as [Hy|Hy].
      - exact (proj1 (Hhit Hy)).
      - exact (Hmiss Hy). }
    destruct (IH n1 w1 a w' H1 Hrun) as [Hle' H']. split; [lia | exact H'].
Qed.

(** The loop over the slaves from a state in which the slave's record is
    untouched: it programs the slave and, outside slave-native mode,
    counts it. *)
Lemma en_slaves_hit (l : list slaveidx) :
  In x l ->
  forall n, ensures (programmed w0 s p (record_untouched (sub.curconf (psub vs SUB_REAL)) numbered)) (foldM (update_conf_slave K p native) l n)
              (fun n' w => programmed w0 s p (record_in_mode mode native ch numbered) w /\ (native = false -> n + 1 <= n')).
Proof.
  induction l as [|y l IH]; intros Hin n; [destruct Hin|].
  cbn [foldM]. intros w a w' HI Hrun. unfold bind in Hrun.
  destruct (update_conf_slave K p native y n w) as [[n1 w1]|] eqn:E; [|discriminate Hrun].
  destruct (en_update_conf_slave (record_untouched (sub.curconf (psub vs SUB_REAL)) numbered) y n stable_untouched (fun _ => numbered_untouched)
              w n1 w1 HI E) as (Hle & Hhit & Hmiss).
  destruct (decide (get_slave (pvt.slaves vp) y = Some s)) as [Hy|Hy].
  - destruct (Hhit Hy) as [H1 Hn1].
    destruct (en_slaves_after l n1 w1 a w' H1 Hrun) as [Hle' H'].
    split; [exact H'|]. intros En. rewrite (Hn1 En) in Hle'. exact Hle'.
  - assert (Hin' : In x l).
    { destruct Hin as [->|Hin]; [|exact Hin]. contradiction. }
    destruct (IH Hin' n1 w1 a w' (Hmiss Hy) Hrun) as [H' Hn'].
    split; [exact H'|]. intros En. specialize (Hn' En). lia.
Qed.

Lemma en_foldM_mono {A} (P : world -> Prop) (f : A -> Z -> M Z) (l : list A) :
  (forall a n, ensures P (f a n) (fun n' w => n <= n' /\ P w)) ->
  forall n, ensures P (foldM f l n) (fun n' w => n <= n' /\ P w).
Proof.
  intros Hf. induction l as [|a l IH]; intros n; cbn [foldM].
  - apply en_ret. intros w H. split; [lia | exact H].
  - eapply en_bind; [apply Hf|]. intros n1. apply en_pure. intros Hle.
    intros w a' w' HP Hrun. destruct (IH n1 w a' w' HP Hrun) as [Hle' H'].
    split; [lia | exact H'].
Qed.

(** If [update_conf] on the master ends, the slave's Real sub-channel is
    programmed in [mode]. *)
Lemma en_update_conf (sl : option nat) (r : Z) (w' : world) :
  isslavenative p w0 = Some ((native, sl), w0) ->
  update_conf K p w0 = Some (r, w') ->
  programmed w0 s p (record_in_mode mode native ch numbered) w'.
Proof.
  intros Hnat Hrun. unfold update_conf in Hrun.
  unfold bind at 1 in Hrun. rewrite Hnat in Hrun.
  assert (Hstart : programmed w0 s p (record_untouched (sub.curconf (psub vs SUB_REAL)) numbered) w0).
  { split; [reflexivity|]. exists vs, vp. split; [exact slave_known|].
    split; [exact master_known|]. split; [reflexivity|].
    intros Hnum. exact (proj1 (proj2 (numbered_ok Hnum))). }
  cbv beta iota in Hrun.
  match type of Hrun with
  | ?m w0 = _ =>
      assert (E : ensures (programmed w0 s p (record_untouched (sub.curconf (psub vs SUB_REAL)) numbered)) m (fun _ => programmed w0 s p (record_in_mode mode native ch numbered)));
        [| exact (E w0 r w' Hstart Hrun)]
  end.
  assert (Hpo : forall y, (p, y) <> (s, SUB_REAL))
    by (intros y E; inversion E; apply slave_other; congruence).
  pose proof (programmed_lines w0 s p (record_untouched (sub.curconf (psub vs SUB_REAL)) numbered)) as HL0.
  pose proof (programmed_lines w0 s p (record_in_mode mode native ch numbered)) as HL1.
  eapply en_bind.
  { apply (en_foldM_mono (programmed w0 s p (record_untouched (sub.curconf (psub vs SUB_REAL)) numbered))). intros y n. unfold update_conf_sub.
    eapply en_bind; [apply (en_quiet _ _ HL0 (quiet_rd p))|]. intros v.
    destruct ((-1 <? _) && _).
    - eapply en_bind; [apply (en_conf_add_other (record_untouched (sub.curconf (psub vs SUB_REAL)) numbered) stable_untouched); apply Hpo|].
      intros ?. apply en_ret. intros w H. split; [lia | exact H].
    - eapply en_bind; [apply (en_conf_del_other (record_untouched (sub.curconf (psub vs SUB_REAL)) numbered)); apply Hpo|].
      intros ?. apply en_ret. intros w H. split; [lia | exact H]. }
  intros n1. apply en_pure. intros Hn1.
  eapply en_bind.
  { apply (en_slaves_hit all_slaves). destruct x; cbn; auto. }
  intros n2. cbv beta.
  eapply en_pre_swap.
  apply en_pure. intros Hn2.
  eapply en_bind; [apply (en_quiet _ _ HL1 (quiet_rd p))|]. intros v.
  eapply en_bind with
    (Q := fun n3 w => (native = false -> 1 <= n3) /\ programmed w0 s p (record_in_mode mode native ch numbered) w).
  { destruct (negb _ && _); [|apply en_ret; intros w H; split; [intros E; specialize (Hn2 E); lia | exact H]].
    apply en_if; intros En.
    - destruct sl as [s'|]; [|intros w a w1 _ Hr; discriminate Hr].
      eapply en_bind; [apply (en_quiet _ _ HL1 (quiet_GET_CHANNEL _))|]. intros c.
      eapply en_bind; [apply (en_conf_add_other (record_in_mode mode native ch numbered) stable_in_mode); apply Hpo|].
      intros ?. apply en_ret. intros w H. split; [congruence | exact H].
    - eapply en_bind; [apply (en_conf_add_other (record_in_mode mode native ch numbered) stable_in_mode); apply Hpo|].
      intros ?. apply en_ret. intros w H.
      split; [intros E; specialize (Hn2 E); lia | exact H]. }
  intros n3. apply en_pure. intros Hn3.
  eapply en_bind; [apply (en_quiet _ _ HL1 (quiet_rd p))|]. intros v2.
  eapply en_bind with (Q := fun _ => programmed w0 s p (record_in_mode mode native ch numbered)).
  { destruct (pvt.master v2) as [m|]; [|apply en_ret; auto].
    eapply en_bind; [apply (en_quiet _ _ HL1 (quiet_isslavenative m))|]. intros mn.
    destruct (fst mn).
    - eapply en_bind; [apply (en_quiet _ _ HL1 (quiet_GET_CHANNEL _))|]. intros c.
      eapply en_bind; [apply (en_conf_add_other (record_in_mode mode native ch numbered) stable_in_mode); apply Hpo|].
      intros ?. apply en_ret. auto.
    - eapply en_bind; [apply (en_conf_add_other (record_in_mode mode native ch numbered) stable_in_mode); apply Hpo|].
      intros ?. apply en_ret. auto. }
  intros ?.
  eapply en_bind with (Q := fun _ => programmed w0 s p (record_in_mode mode native ch numbered)); [|intros ?; apply en_ret; auto].
  destruct (n3 =? 0) eqn:En3; [|apply en_ret; auto]. cbn [when].
  apply Z.eqb_eq in En3.
  intros w3 a3 w4 HI Hr. unfold wr in Hr.
  destruct (pvts w3 !! p) as [v3|] eqn:Hv3; [|discriminate Hr].
  injection Hr as _ <-.
  apply (programmed_insert (record_in_mode mode native ch numbered) w3 p v3 _ HI Hv3).
  - apply erase_conf_confno.
  - intros E. exfalso. apply slave_other. congruence.
  - intros _ c [Hc Hn]. split; [exact Hc|]. intros Hnum. specialize (Hn Hnum).
    destruct native; [exact Hn|]. specialize (Hn3 eq_refl). lia.
Qed.

End SlaveMode.


